(** * gopro2gpx: the GPMF telemetry parser, the timestamp interpolator and the
    GPX serializer of [src/gopro2gpx.py], embedded as Rocq functions.

    Conventions of the embedding:
    - [bytes] values are [list byte]; a Python [str] is a [string];
    - the [BytesIO] cursor is a record of the bytes not yet read and the
      position reached ([tell()]);
    - the local variables of [gopro_binary_to_csv] are the fields of the
      record [parser], threaded through the loop bodies;
    - a Python exception that nothing catches is the [Raise] outcome of the
      [result] monad;
    - a [datetime] is its number of microseconds since the start of ordinal
      day 0 (0001-01-01 is ordinal day 1), a [timedelta] is a number of
      microseconds: Python's datetime arithmetic is exact integer arithmetic
      on these quantities;
    - Python floats are the kernel's binary64 floats. *)

From Stdlib Require Import ZArith List Lia Bool String Ascii.
From Stdlib Require Import Strings.Byte.
From Stdlib Require Import Floats.PrimFloat Numbers.Cyclic.Int63.Uint63.
Import ListNotations.
Local Open Scope Z_scope.

Set Implicit Arguments.

(* ================================================================== *)
(** ** Exceptions *)

Inductive exn : Type :=
| StructError        (* struct.error: buffer of the wrong size *)
| ValueError         (* strptime mismatch, invalid date, undecodable text *)
| KeyError
| IndexError
| ZeroDivisionError
| OverflowError
| PyException.       (* the two explicit [raise Exception(...)] *)

Inductive result (A : Type) : Type :=
| Ok (a : A)
| Raise (e : exn).
Arguments Ok {A} a.
Arguments Raise {A} e.

Definition bind {A B : Type} (r : result A) (k : A -> result B) : result B :=
  match r with
  | Ok a => k a
  | Raise e => Raise e
  end.

Notation "x <- c ;; k" := (bind c (fun x => k))
  (at level 61, c at next level, right associativity).
Notation "' pat <- c ;; k" := (bind c (fun x => match x with pat => k end))
  (at level 61, pat pattern, c at next level, right associativity).

(* ================================================================== *)
(** ** Bytes, [struct.unpack] and [str(bytes)] *)

Definition byte_val (b : byte) : Z := Z.of_N (Byte.to_N b).

Definition byte_of_Z (z : Z) : byte :=
  match Byte.of_N (Z.to_N z) with
  | Some b => b
  | None => "000"%byte
  end.

Definition ascii_bytes (s : string) : list byte := list_byte_of_string s.

(** Big-endian unsigned integer held by a byte string ([int.from_bytes(b, 'big')]). *)
Definition be_uint (bs : list byte) : Z :=
  fold_left (fun acc b => acc * 256 + byte_val b) bs 0.

(** Big-endian two's-complement 32-bit integer of four bytes. *)
Definition be_int32 (bs : list byte) : Z :=
  let u := be_uint bs in
  if u <? 2 ^ 31 then u else u - 2 ^ 32.

(** [struct.unpack('>cBBB', b)]: exactly four bytes, else [struct.error]. *)
Definition unpack_cBBB (b : list byte) : result (byte * Z * Z * Z) :=
  match b with
  | [c; b1; b2; b3] => Ok (c, byte_val b1, byte_val b2, byte_val b3)
  | _ => Raise StructError
  end.

(** [struct.unpack('>H', b)[0]]: exactly two bytes. *)
Definition unpack_H (b : list byte) : result Z :=
  if Nat.eqb (List.length b) 2 then Ok (be_uint b) else Raise StructError.

(** [struct.unpack('>I', b)[0]]: exactly four bytes. *)
Definition unpack_I (b : list byte) : result Z :=
  if Nat.eqb (List.length b) 4 then Ok (be_uint b) else Raise StructError.

(** [struct.unpack('>iiiii', b)]: exactly twenty bytes, five signed words. *)
Definition unpack_iiiii (b : list byte) : result (Z * Z * Z * Z * Z) :=
  if Nat.eqb (List.length b) 20 then
    Ok (be_int32 (firstn 4 b),
        be_int32 (firstn 4 (skipn 4 b)),
        be_int32 (firstn 4 (skipn 8 b)),
        be_int32 (firstn 4 (skipn 12 b)),
        be_int32 (firstn 4 (skipn 16 b)))
  else Raise StructError.

Definition backslash : ascii := ascii_of_nat 92.
Definition squote : ascii := ascii_of_nat 39.
Definition dquote : ascii := ascii_of_nat 34.

Definition hex_digit (n : Z) : ascii :=
  ascii_of_nat (Z.to_nat (if n <? 10 then 48 + n else 87 + n)).

(** One byte as [repr] of a [bytes] object shows it, for the quote in use. *)
Definition repr_byte (quote : ascii) (b : byte) : string :=
  let a := ascii_of_byte b in
  let n := byte_val b in
  if Ascii.eqb a quote || Ascii.eqb a backslash then String backslash (String a EmptyString)
  else if n =? 9 then String backslash "t"
  else if n =? 10 then String backslash "n"
  else if n =? 13 then String backslash "r"
  else if (n <? 32) || (127 <=? n) then
    String backslash (String "x"%char
      (String (hex_digit (n / 16)) (String (hex_digit (n mod 16)) EmptyString)))
  else String a EmptyString.

Definition has_byte (n : Z) (bs : list byte) : bool :=
  existsb (fun b => byte_val b =? n) bs.

(** [str(b)] for a [bytes] object [b] (Python 3): [b'...'], or [b"..."] when
    the bytes hold a single quote and no double quote. *)
Definition str_of_bytes (bs : list byte) : string :=
  let quote := if has_byte 39 bs && negb (has_byte 34 bs) then dquote else squote in
  String "b"%char
    (String quote
       (fold_right (fun b acc => append (repr_byte quote b) acc)
          (String quote EmptyString) bs)).

Fixpoint starts_with (p s : string) : bool :=
  match p, s with
  | EmptyString, _ => true
  | String a p', String b s' => Ascii.eqb a b && starts_with p' s'
  | String _ _, EmptyString => false
  end.

(** Python's [p in s] on strings. *)
Fixpoint contains (p s : string) : bool :=
  starts_with p s ||
  match s with
  | EmptyString => false
  | String _ s' => contains p s'
  end.

(* ================================================================== *)
(** ** The [BytesIO] cursor *)

Record bytesio : Type := mk_bytesio {
  remaining : list byte;   (* the bytes from the current position to the end *)
  tell : nat               (* the current position *)
}.

(** [BytesIO(o)] on a fresh buffer. *)
Definition BytesIO (o : list byte) : bytesio := mk_bytesio o 0.

(** [io.read(n)]: up to [n] bytes, fewer at the end of the buffer; never an
    error. *)
Definition read (n : nat) (io : bytesio) : list byte * bytesio :=
  (firstn n (remaining io),
   mk_bytesio (skipn n (remaining io)) (tell io + List.length (firstn n (remaining io)))%nat).


(* ================================================================== *)
(** ** [datetime] and [timedelta]

    The calendar functions follow CPython's [datetime] module
    ([_days_before_year], [_ymd2ord], [_ord2ymd], [_divide_and_round]). *)

Definition datetime : Type := Z.
Definition timedelta : Type := Z.

Definition us_per_second : Z := 1000000.
Definition us_per_day : Z := 86400 * us_per_second.
Definition MAXORDINAL : Z := 3652059.   (* date(9999, 12, 31).toordinal() *)

Definition is_leap (year : Z) : bool :=
  (year mod 4 =? 0) && (negb (year mod 100 =? 0) || (year mod 400 =? 0)).

Definition days_in_month_table : list Z :=
  [-1; 31; 28; 31; 30; 31; 30; 31; 31; 30; 31; 30; 31].

Definition days_before_month_table : list Z :=
  [-1; 0; 31; 59; 90; 120; 151; 181; 212; 243; 273; 304; 334].

Definition days_before_year (year : Z) : Z :=
  let y := year - 1 in
  y * 365 + y / 4 - y / 100 + y / 400.

Definition days_in_month (year month : Z) : Z :=
  if (month =? 2) && is_leap year then 29
  else nth (Z.to_nat month) days_in_month_table 0.

Definition days_before_month (year month : Z) : Z :=
  nth (Z.to_nat month) days_before_month_table 0
  + (if (2 <? month) && is_leap year then 1 else 0).

Definition ymd2ord (year month day : Z) : Z :=
  days_before_year year + days_before_month year month + day.

(** [datetime(year, month, day, hour, minute, second, microsecond)], for
    fields already checked to be in range. *)
Definition mk_datetime (year month day hour minute second us : Z) : datetime :=
  (ymd2ord year month day * 86400 + hour * 3600 + minute * 60 + second)
  * us_per_second + us.

(** The values a [datetime] object can hold: 0001-01-01 to 9999-12-31. *)
Definition dt_validb (t : datetime) : bool :=
  (us_per_day <=? t) && (t <? (MAXORDINAL + 1) * us_per_day).

(** [ord2ymd n]: the civil date of ordinal day [n]. *)
Definition ord2ymd (n : Z) : Z * Z * Z :=
  let n := n - 1 in
  let n400 := n / 146097 in
  let n := n mod 146097 in
  let year := n400 * 400 + 1 in
  let n100 := n / 36524 in
  let n := n mod 36524 in
  let n4 := n / 1461 in
  let n := n mod 1461 in
  let n1 := n / 365 in
  let n := n mod 365 in
  let year := year + n100 * 100 + n4 * 4 + n1 in
  if (n1 =? 4) || (n100 =? 4) then (year - 1, 12, 31)
  else
    let leapyear := (n1 =? 3) && (negb (n4 =? 24) || (n100 =? 3)) in
    let month := Z.shiftr (n + 50) 5 in
    let preceding :=
      nth (Z.to_nat month) days_before_month_table 0
      + (if (2 <? month) && leapyear then 1 else 0) in
    if n <? preceding then
      let month := month - 1 in
      let preceding :=
        preceding
        - (nth (Z.to_nat month) days_in_month_table 0
           + (if (month =? 2) && leapyear then 1 else 0)) in
      (year, month, n - preceding + 1)
    else (year, month, n - preceding + 1).

Fixpoint ordinals_from (n : nat) (first : Z) : list Z :=
  match n with
  | O => []
  | S n' => first :: ordinals_from n' (first + 1)
  end.

(** The ordinal days of the years 1969 to 2068, those [%y] can give. *)
Definition parsed_ordinals : list Z :=
  ordinals_from (Z.to_nat 36525) (ymd2ord 1969 1 1).

(** [n] is the ordinal of the civil date [ord2ymd n], a date of a year from
    1969 to 2068. *)
Definition civil_ok (n : Z) : bool :=
  let '(y, m, d) := ord2ymd n in
  (ymd2ord y m d =? n) && (1969 <=? y) && (y <=? 2068)
  && (1 <=? m) && (m <=? 12) && (1 <=? d) && (d <=? days_in_month y m).

(** [a - b] on datetimes. *)
Definition dt_sub (a b : datetime) : timedelta := a - b.

(** [t + d]: [OverflowError] when the day leaves [1 .. MAXORDINAL]. *)
Definition dt_add (t : datetime) (d : timedelta) : result datetime :=
  if dt_validb (t + d) then Ok (t + d) else Raise OverflowError.

(** [datetime.timedelta(seconds=n)]. *)
Definition td_seconds (n : Z) : timedelta := n * us_per_second.

(** [_divide_and_round a b]: nearest integer to [a / b], ties to even. *)
Definition divide_and_round (a b : Z) : Z :=
  let q := a / b in
  let r := 2 * (a mod b) in
  let greater_than_half := if 0 <? b then b <? r else r <? b in
  if greater_than_half || ((r =? b) && (q mod 2 =? 1)) then q + 1 else q.

(** [d / n] for a timedelta and an [int]. *)
Definition td_div (d : timedelta) (n : Z) : result timedelta :=
  if n =? 0 then Raise ZeroDivisionError else Ok (divide_and_round d n).

(** [n * d].  A product beyond the range of [timedelta] (10^9 days) raises
    [OverflowError] in Python; added to a datetime it is beyond the range of
    [datetime] too, so [dt_add] raises the same exception for it here. *)
Definition td_mul (n : Z) (d : timedelta) : timedelta := n * d.

Definition digit_char (d : Z) : ascii := ascii_of_nat (Z.to_nat (48 + d mod 10)).

Definition pad2 (v : Z) : string :=
  String (digit_char (v / 10)) (String (digit_char v) EmptyString).

Definition pad4 (v : Z) : string :=
  String (digit_char (v / 1000)) (String (digit_char (v / 100)) (pad2 v)).

(** [t.strftime("%Y-%m-%dT%H:%M:%SZ")]. The year is written on four digits,
    as every platform does for the years 1000..9999. *)
Definition strftime_iso (t : datetime) : string :=
  let '(year, month, day) := ord2ymd (t / us_per_day) in
  let secs := (t mod us_per_day) / us_per_second in
  (pad4 year ++ "-" ++ pad2 month ++ "-" ++ pad2 day ++ "T"
   ++ pad2 (secs / 3600) ++ ":" ++ pad2 (secs mod 3600 / 60) ++ ":"
   ++ pad2 (secs mod 60) ++ "Z")%string.


(* ================================================================== *)
(** ** [bytes.strip().decode()] and [strptime(_, '%y%m%d%H%M%S.%f')]

    [strptime] compiles the format to the regular expression
    [(\d\d)(1[0-2]|0[1-9]|[1-9])(3[0-1]|[1-2]\d|0[1-9]|[1-9]| [1-9])]
    [(2[0-3]|[0-1]\d|\d)([0-5]\d|\d)(6[0-1]|[0-5]\d|\d)\.([0-9]{1,6})],
    takes the first match of a backtracking search from the start of the text
    and rejects the text when the match does not reach its end.  Each group
    below lists its matches in the order the search tries them.

    The model covers ASCII text.  A payload with a byte above 127 gives
    [ValueError] here: in Python it fails to decode ([UnicodeDecodeError], a
    [ValueError]) or fails to match, unless it spells digits of another
    script in UTF-8, which this model does not follow. *)

Definition is_space (b : byte) : bool :=
  let n := byte_val b in
  (n =? 32) || ((9 <=? n) && (n <=? 13)).

Fixpoint lstrip (bs : list byte) : list byte :=
  match bs with
  | b :: bs' => if is_space b then lstrip bs' else bs
  | [] => []
  end.

(** [b.strip()] *)
Definition strip (bs : list byte) : list byte :=
  rev (lstrip (rev (lstrip bs))).

Definition digit_in (lo hi : Z) (b : byte) : option Z :=
  let d := byte_val b - 48 in
  if (lo <=? d) && (d <=? hi) then Some d else None.

(** One digit in [lo..hi]. *)
Definition one (lo hi : Z) (s : list byte) : list (Z * list byte) :=
  match s with
  | b :: s' =>
      match digit_in lo hi b with
      | Some d => [(d, s')]
      | None => []
      end
  | [] => []
  end.

(** A digit in [lo1..hi1] followed by a digit in [lo2..hi2]. *)
Definition two (lo1 hi1 lo2 hi2 : Z) (s : list byte) : list (Z * list byte) :=
  flat_map (fun '(d1, s1) => map (fun '(d2, s2) => (10 * d1 + d2, s2)) (one lo2 hi2 s1))
           (one lo1 hi1 s).

(** A space followed by a digit in [1..9]. *)
Definition space_one (s : list byte) : list (Z * list byte) :=
  match s with
  | b :: s' => if byte_val b =? 32 then one 1 9 s' else []
  | [] => []
  end.

Definition re_y s := two 0 9 0 9 s.
Definition re_m s := two 1 1 0 2 s ++ two 0 0 1 9 s ++ one 1 9 s.
Definition re_d s :=
  two 3 3 0 1 s ++ two 1 2 0 9 s ++ two 0 0 1 9 s ++ one 1 9 s ++ space_one s.
Definition re_H s := two 2 2 0 3 s ++ two 0 1 0 9 s ++ one 0 9 s.
Definition re_M s := two 0 5 0 9 s ++ one 0 9 s.
Definition re_S s := two 6 6 0 1 s ++ two 0 5 0 9 s ++ one 0 9 s.

Definition re_dot (s : list byte) : list (list byte) :=
  match s with
  | b :: s' => if byte_val b =? 46 then [s'] else []
  | [] => []
  end.

(** [[0-9]{1,6}], greedy: the longest run first.  The value is the run padded
    with zeros to six digits, as [strptime] does before [int()]. *)
Fixpoint digits_upto (n : nat) (s : list byte) : list (list Z * list byte) :=
  match n with
  | O => [([], s)]
  | S n' =>
      match s with
      | b :: s' =>
          match digit_in 0 9 b with
          | Some d => map (fun '(ds, r) => (d :: ds, r)) (digits_upto n' s') ++ [([], s)]
          | None => [([], s)]
          end
      | [] => [([], s)]
      end
  end.

Definition fraction_of (ds : list Z) : Z :=
  fold_left (fun acc d => acc * 10 + d) (ds ++ repeat 0 (6 - List.length ds)) 0.

Definition re_f (s : list byte) : list (Z * list byte) :=
  flat_map (fun '(ds, r) => match ds with [] => [] | _ => [(fraction_of ds, r)] end)
           (digits_upto 6 s).

Record ts_fields : Type := mk_fields {
  f_y : Z; f_m : Z; f_d : Z; f_H : Z; f_M : Z; f_S : Z; f_f : Z
}.

(** Every match of the whole expression, in search order, with the text left. *)
Definition re_timestamp (s : list byte) : list (ts_fields * list byte) :=
  flat_map (fun '(y, s) =>
  flat_map (fun '(m, s) =>
  flat_map (fun '(d, s) =>
  flat_map (fun '(hh, s) =>
  flat_map (fun '(mm, s) =>
  flat_map (fun '(ss, s) =>
  flat_map (fun s =>
  map (fun '(f, s) => (mk_fields y m d hh mm ss f, s)) (re_f s))
  (re_dot s)) (re_S s)) (re_M s)) (re_H s)) (re_d s)) (re_m s)) (re_y s).

Definition strptime (text : list byte) : result datetime :=
  match re_timestamp text with
  | [] => Raise ValueError                      (* does not match format *)
  | (f, rest) :: _ =>
      match rest with
      | _ :: _ => Raise ValueError              (* unconverted data remains *)
      | [] =>
          let year := if f_y f <=? 68 then f_y f + 2000 else f_y f + 1900 in
          if (f_d f <=? days_in_month year (f_m f)) && (f_S f <=? 59) then
            Ok (mk_datetime year (f_m f) (f_d f) (f_H f) (f_M f) (f_S f) (f_f f))
          else Raise ValueError                 (* day or second out of range *)
      end
  end.

(** [datetime.strptime(payload.strip().decode(), '%y%m%d%H%M%S.%f')] *)
Definition parse_timestamp (payload : list byte) : result datetime :=
  let text := strip payload in
  if forallb (fun b => byte_val b <? 128) text then strptime text
  else Raise ValueError.


(* ================================================================== *)
(** ** The dictionaries of [gopro_binary_to_csv] *)

(** [current_gps_data]: the keys [latitude], [longitude] and [speedmps] are
    set by the parser, the key [timestamp] by the interpolation loop. *)
Record gps_datum : Type := mk_datum {
  latitude : float;
  longitude : float;
  speedmps : float;
  point_timestamp : option datetime
}.

(** [current_data] and the elements of [data]: [{}] has neither key. *)
Record row : Type := mk_row {
  timestamp : option datetime;
  gps_data : option (list gps_datum)
}.

Definition empty_dict : row := mk_row None None.

(** Truth value of a dict: it has a key. *)
Definition dict_truth (r : row) : bool :=
  match timestamp r, gps_data r with
  | None, None => false
  | _, _ => true
  end.

(** [d[key]]: [KeyError] for a key the dict lacks. *)
Definition getitem {A : Type} (v : option A) : result A :=
  match v with
  | Some a => Ok a
  | None => Raise KeyError
  end.

(** [l[i]] on a list: [IndexError] out of range. *)
Definition list_index {A : Type} (l : list A) (i : nat) : result A :=
  match nth_error l i with
  | Some a => Ok a
  | None => Raise IndexError
  end.

(** [float(n)] for an integer below [2^63] in absolute value. *)
Definition float_of_Z (z : Z) : float :=
  if z <? 0 then PrimFloat.opp (PrimFloat.of_uint63 (Uint63.of_Z (- z)))
  else PrimFloat.of_uint63 (Uint63.of_Z z).

(** [float(raw) / scales[i]] *)
Definition scaled (raw : Z) (scales : list Z) (i : nat) : result float :=
  sc <- list_index scales i ;;
  if sc =? 0 then Raise ZeroDivisionError
  else Ok (PrimFloat.div (float_of_Z raw) (float_of_Z sc)).

(* ================================================================== *)
(** ** [gopro_binary_to_csv]: the parsing loop (lines 35-115) *)

Record parser : Type := mk_parser {
  gopro_binary : bytesio;
  scales : list Z;
  gps_fix : Z;
  gps_accuracy : Z;
  okay_to_record : bool;
  data : list row;
  current_data : row
}.

Definition with_io (st : parser) (io : bytesio) : parser :=
  mk_parser io (scales st) (gps_fix st) (gps_accuracy st) (okay_to_record st)
            (data st) (current_data st).

Definition with_scales (st : parser) (sc : list Z) : parser :=
  mk_parser (gopro_binary st) sc (gps_fix st) (gps_accuracy st) (okay_to_record st)
            (data st) (current_data st).

Definition with_gps_fix (st : parser) (v : Z) : parser :=
  mk_parser (gopro_binary st) (scales st) v (gps_accuracy st) (okay_to_record st)
            (data st) (current_data st).

Definition with_gps_accuracy (st : parser) (v : Z) : parser :=
  mk_parser (gopro_binary st) (scales st) (gps_fix st) v (okay_to_record st)
            (data st) (current_data st).

Definition with_okay_to_record (st : parser) (b : bool) : parser :=
  mk_parser (gopro_binary st) (scales st) (gps_fix st) (gps_accuracy st) b
            (data st) (current_data st).

Definition with_data (st : parser) (d : list row) : parser :=
  mk_parser (gopro_binary st) (scales st) (gps_fix st) (gps_accuracy st)
            (okay_to_record st) d (current_data st).

Definition with_current_data (st : parser) (r : row) : parser :=
  mk_parser (gopro_binary st) (scales st) (gps_fix st) (gps_accuracy st)
            (okay_to_record st) (data st) r.

(** Lines 35-44: the state before the first iteration. *)
Definition initial (io : bytesio) : parser :=
  mk_parser io [1; 1; 1; 1] 0 9999 false [] empty_dict.

(** [gopro_binary.read(n)], keeping the bytes read. *)
Definition read_st (n : Z) (st : parser) : list byte * parser :=
  let (b, io) := read (Z.to_nat n) (gopro_binary st) in (b, with_io st io).

(** Line 109: [gps_fix in [2, 3] and gps_accuracy < 500]. *)
Definition gate (fix_ accuracy : Z) : bool :=
  ((fix_ =? 2) || (fix_ =? 3)) && (accuracy <? 500).

(** Lines 78-88: one GPS5 value. *)
Definition gps5_value (val_size : Z) (st : parser) : result parser :=
  if negb (val_size =? 20) then Raise PyException
  else
    let (b, st) := read_st val_size st in
    '(lat, lon, _, speed, _) <- unpack_iiiii b ;;
    if okay_to_record st then
      la <- scaled lat (scales st) 0 ;;
      lo <- scaled lon (scales st) 1 ;;
      sp <- scaled speed (scales st) 3 ;;
      gd <- getitem (gps_data (current_data st)) ;;
      Ok (with_current_data st
            (mk_row (timestamp (current_data st))
                    (Some (gd ++ [mk_datum la lo sp None]))))
    else Ok st.

(** Lines 90-95: one GPSU value.  It reads [data_length] bytes, the payload
    of the whole record. *)
Definition gpsu_value (data_length : Z) (st : parser) : result parser :=
  keep <- (if dict_truth (current_data st) then
             gd <- getitem (gps_data (current_data st)) ;;
             Ok (negb (Nat.eqb (List.length gd) 0))
           else Ok false) ;;
  let st := if keep : bool then with_data st (data st ++ [current_data st]) else st in
  let (b, st) := read_st data_length st in
  ts <- parse_timestamp b ;;
  Ok (with_current_data st (mk_row (Some ts) (Some []))).

(** Line 99: one GPSF value. *)
Definition gpsf_value (val_size : Z) (st : parser) : result parser :=
  let (b, st) := read_st val_size st in
  v <- unpack_I b ;;
  Ok (with_gps_fix st v).

(** Line 103: one GPSP value. *)
Definition gpsp_value (val_size : Z) (st : parser) : result parser :=
  let (b, st) := read_st val_size st in
  v <- unpack_H b ;;
  Ok (with_gps_accuracy st v).

(** Lines 77-109: the body of [for value in range(num_values)]. *)
Definition value_body (label_string : string) (val_size data_length : Z)
    (st : parser) : result parser :=
  st <- (if contains "GPS5" label_string then gps5_value val_size st
         else if contains "GPSU" label_string then gpsu_value data_length st
         else if contains "GPSF" label_string then gpsf_value val_size st
         else if contains "GPSP" label_string then gpsp_value val_size st
         else Ok (snd (read_st val_size st))) ;;
  Ok (with_okay_to_record st (gate (gps_fix st) (gps_accuracy st))).

(** Line 76: the loop over the values of a record. *)
Fixpoint values_loop (n : nat) (label_string : string) (val_size data_length : Z)
    (st : parser) : result parser :=
  match n with
  | O => Ok st
  | S n' =>
      st <- value_body label_string val_size data_length st ;;
      values_loop n' label_string val_size data_length st
  end.

(** Lines 69-74: one scale value. *)
Definition scal_body (val_size : Z) (st : parser) : result parser :=
  if val_size =? 2 then
    let (b, st) := read_st 2 st in
    v <- unpack_H b ;; Ok (with_scales st (scales st ++ [v]))
  else if val_size =? 4 then
    let (b, st) := read_st 4 st in
    v <- unpack_I b ;; Ok (with_scales st (scales st ++ [v]))
  else Raise PyException.

(** Line 68: the loop over the scale values. *)
Fixpoint scal_loop (n : nat) (val_size : Z) (st : parser) : result parser :=
  match n with
  | O => Ok st
  | S n' => st <- scal_body val_size st ;; scal_loop n' val_size st
  end.

(** Lines 113-115: skip to the next multiple of four. *)
Definition skip_padding (data_length : Z) (st : parser) : parser :=
  let mod_ := data_length mod 4 in
  if mod_ =? 0 then st else snd (read_st (4 - mod_) st).

(** What one pass through the body of [while True] does. *)
Inductive step : Type :=
| Break                    (* line 50 *)
| Next (st : parser)       (* [continue], or the end of the body *)
| Fatal (e : exn).         (* an exception leaves the function *)

(** Lines 53-115: the body of [while True] once the header is read. *)
Definition record_body (label_string : string) (data_type : byte)
    (desc1 desc2 desc3 : Z) (st : parser) : step :=
  if byte_val data_type =? 0 then Next st
  else if contains "EMPT" label_string then Next (snd (read_st 4 st))
  else
    let val_size := desc1 in
    let num_values := Z.lor (Z.shiftl desc2 8) desc3 in
    let data_length := val_size * num_values in
    let body :=
      if contains "SCAL" label_string then
        scal_loop (Z.to_nat num_values) val_size (with_scales st [])
      else
        values_loop (Z.to_nat num_values) label_string val_size data_length st in
    match body with
    | Raise e => Fatal e
    | Ok st => Next (skip_padding data_length st)
    end.

(** Lines 46-115: the body of [while True].  Only [struct.unpack] can raise
    inside the [try], and [struct.error] is what the [except] catches. *)
Definition iteration (st : parser) : step :=
  let (label, st) := read_st 4 st in
  let label_string := str_of_bytes label in
  let (d, st) := read_st 4 st in
  match unpack_cBBB d with
  | Raise _ => Break
  | Ok (data_type, desc1, desc2, desc3) =>
      record_body label_string data_type desc1 desc2 desc3 st
  end.

(** Line 45: [while True].  Every pass that does not leave the loop reads an
    eight-byte header, so [fuel] above the number of bytes left is never
    used up ([while_loop_fuel]). *)
Fixpoint while_loop (fuel : nat) (st : parser) : option (result parser) :=
  match fuel with
  | O => None
  | S fuel' =>
      match iteration st with
      | Break => Some (Ok st)
      | Fatal e => Some (Raise e)
      | Next st' => while_loop fuel' st'
      end
  end.

Definition enough_fuel (st : parser) : nat :=
  S (List.length (remaining (gopro_binary st))).

(** Lines 35-115: the parser state when the loop is left. *)
Definition parse (io : bytesio) : option (result parser) :=
  while_loop (enough_fuel (initial io)) (initial io).

(* ================================================================== *)
(** ** [gopro_binary_to_csv]: the timestamps (lines 119-138) *)

Definition with_timestamp (g : gps_datum) (t : datetime) : gps_datum :=
  mk_datum (latitude g) (longitude g) (speedmps g) (Some t).

(** Lines 121-129: [row['timestamp']], or for the first row without one, a
    second before the next row. *)
Definition start_time_of (data : list row) (index : nat) (r : row) : result datetime :=
  match timestamp r with
  | Some t => Ok t
  | None =>
      if Nat.eqb index 0 then
        nxt <- list_index data (index + 1) ;;
        t <- getitem (timestamp nxt) ;;
        dt_add t (- td_seconds 1)
      else Raise KeyError
  end.

(** Lines 130-133. *)
Definition end_time_of (data : list row) (index : nat) (start_time : datetime)
  : result datetime :=
  if Nat.eqb index (List.length data - 1) then dt_add start_time (td_seconds 1)
  else
    nxt <- list_index data (index + 1) ;;
    getitem (timestamp nxt).

(** Lines 135-137: the samples of one row, from position [gps_index] on. *)
Fixpoint stamp (start_time : datetime) (step_ : timedelta) (gps_index : Z)
    (l : list gps_datum) : result (list gps_datum) :=
  match l with
  | [] => Ok []
  | gps_datum :: l' =>
      t <- dt_add start_time (td_mul gps_index step_) ;;
      rest <- stamp start_time step_ (gps_index + 1) l' ;;
      Ok (with_timestamp gps_datum t :: rest)
  end.

(** Lines 121-137: the body of the loop over [enumerate(data)]. *)
Definition stamp_row (data : list row) (index : nat) (r : row)
  : result (list gps_datum) :=
  start_time <- start_time_of data index r ;;
  end_time <- end_time_of data index start_time ;;
  let span := dt_sub end_time start_time in
  gd <- getitem (gps_data r) ;;
  step_ <- td_div span (Z.of_nat (List.length gd)) ;;
  stamp start_time step_ 0 gd.

(** Line 120: the loop, at position [index] with [rows] still to visit. *)
Fixpoint stamp_rows (data : list row) (index : nat) (rows : list row)
  : result (list gps_datum) :=
  match rows with
  | [] => Ok []
  | r :: rows' =>
      pts <- stamp_row data index r ;;
      rest <- stamp_rows data (S index) rows' ;;
      Ok (pts ++ rest)
  end.

(** Lines 119-138. *)
Definition interpolate (data : list row) : result (list gps_datum) :=
  stamp_rows data 0 data.

(** The whole function on a byte source. *)
Definition gopro_binary_to_csv (gopro_binary : bytesio)
  : option (result (list gps_datum)) :=
  match parse gopro_binary with
  | None => None
  | Some (Raise e) => Some (Raise e)
  | Some (Ok st) => Some (interpolate (data st))
  end.

(* ================================================================== *)
(** ** [make_gpx] (lines 140-164) *)

Definition nl : string := String (ascii_of_nat 10) EmptyString.
Definition dq : string := String dquote EmptyString.

Definition gpx_header : string :=
  (nl ++ "<?xml version=" ++ dq ++ "1.0" ++ dq ++ " encoding=" ++ dq ++ "UTF-8" ++ dq
   ++ "?>" ++ nl
   ++ "<gpx xmlns=" ++ dq ++ "http://www.topografix.com/GPX/1/1" ++ dq
   ++ " xmlns:xsi=" ++ dq ++ "http://www.w3.org/2001/XMLSchema-instance" ++ dq
   ++ " xsi:schemaLocation=" ++ dq
   ++ "http://www.topografix.com/GPX/1/1 http://www.topografix.com/GPX/1/1/gpx.xsd"
   ++ dq ++ " version=" ++ dq ++ "1.1" ++ dq ++ " creator=" ++ dq ++ "gopro2gpx.py"
   ++ dq ++ ">" ++ nl
   ++ " <trk>" ++ nl ++ "  <trkseg>" ++ nl ++ "  ")%string.

Definition gpx_footer : string :=
  (nl ++ "  </trkseg>" ++ nl ++ " </trk>" ++ nl ++ "</gpx>" ++ nl)%string.

Section Serializer.

(** [str(x)] for a float, as the format field [{}] renders it: the shortest
    decimal text that reads back as [x].  Taken as given. *)
Variable float_str : float -> string.

(** Lines 151-155: the text of one [trkpt] line.  The first field is filled
    with [p['longitude']], the second with [p['latitude']]. *)
Definition trkpt (p : gps_datum) : result string :=
  t <- getitem (point_timestamp p) ;;
  Ok ("   <trkpt lat=" ++ dq ++ float_str (longitude p) ++ dq
      ++ " lon=" ++ dq ++ float_str (latitude p) ++ dq
      ++ "><time>" ++ strftime_iso t ++ "</time></trkpt>")%string.

(** Lines 149-157: what the loop prints, and the exception that stops it. *)
Fixpoint print_points (points : list gps_datum) : list string * option exn :=
  match points with
  | [] => ([], None)
  | p :: points' =>
      match trkpt p with
      | Raise e => ([], Some e)
      | Ok line =>
          let (out, err) := print_points points' in (line :: out, err)
      end
  end.

(** [make_gpx(points, fd)]: the texts handed to [print] (each is followed
    by a newline in the file), and the exception raised, if any. *)
Definition make_gpx (points : list gps_datum) : list string * option exn :=
  let (out, err) := print_points points in
  match err with
  | Some e => (gpx_header :: out, Some e)
  | None => (gpx_header :: out ++ [gpx_footer], None)
  end.

End Serializer.


(* ================================================================== *)
(** ** Building streams

    The layout of a record, as the loop reads it: a four-byte label, a type
    byte, a value-size byte, a two-byte big-endian count, the payload. *)

(** [z] on [n] bytes, big-endian ([z.to_bytes(n, 'big')], two's complement
    for a negative [z]). *)
Definition be (n : nat) (z : Z) : list byte :=
  map (fun i => byte_of_Z ((z mod 2 ^ (8 * Z.of_nat n))
                           / 2 ^ (8 * Z.of_nat (n - 1 - i)) mod 256))
      (seq 0 n).

Definition header (label ty : string) (val_size num_values : Z) : list byte :=
  ascii_bytes label ++ ascii_bytes ty ++ be 1 val_size ++ be 2 num_values.

Definition gps5_sample (lat lon alt speed speed3d : Z) : list byte :=
  be 4 lat ++ be 4 lon ++ be 4 alt ++ be 4 speed ++ be 4 speed3d.

Definition spaces (n : nat) : list byte := repeat " "%byte n.

(* ================================================================== *)
(** ** Runs of the loop *)

(** [steps st st']: the loop, entered in state [st], comes back to its head
    in state [st'] after some number of passes. *)
Inductive steps : parser -> parser -> Prop :=
| steps_refl st : steps st st
| steps_next st st' st'' :
    iteration st = Next st' -> steps st' st'' -> steps st st''.

(** The state at the head of the loop after [n] passes, if none of them
    leaves the loop. *)
Fixpoint passes (n : nat) (st : parser) : option parser :=
  match n with
  | O => Some st
  | S n' =>
      match iteration st with
      | Next st' => passes n' st'
      | _ => None
      end
  end.

(** The label text the next pass will test. *)
Definition next_label (st : parser) : string :=
  str_of_bytes (fst (read_st 4 st)).

(** [steps_no_gpsu st st']: the same, through records none of which has a
    label holding [GPSU]. *)
Inductive steps_no_gpsu : parser -> parser -> Prop :=
| no_gpsu_refl st : steps_no_gpsu st st
| no_gpsu_next st st' st'' :
    iteration st = Next st' ->
    contains "GPSU" (next_label st) = false ->
    steps_no_gpsu st' st'' -> steps_no_gpsu st st''.

(** Bytes left in the source. *)
Definition bytes_left (st : parser) : nat :=
  List.length (remaining (gopro_binary st)).

(* ================================================================== *)
(** ** The fix and accuracy values read so far *)

(** The value a GPSF value body is about to read, and what the latest fix
    value is after a value body: the tests are those of lines 77-100, in
    their order. *)
Definition fix_after (label_string : string) (val_size : Z) (st : parser) (f : Z) : Z :=
  if contains "GPS5" label_string || contains "GPSU" label_string then f
  else if contains "GPSF" label_string then be_uint (fst (read_st val_size st))
  else f.

Definition accuracy_after (label_string : string) (val_size : Z) (st : parser) (a : Z) : Z :=
  if contains "GPS5" label_string || contains "GPSU" label_string
     || contains "GPSF" label_string then a
  else if contains "GPSP" label_string then be_uint (fst (read_st val_size st))
  else a.

(** [seen st f a]: the loop can be in state [st], at its head or between two
    values of a record, and on the way there the latest GPSF value read was
    [f] and the latest GPSP value read was [a] (0 and 9999, the initial
    values, when none was read).  The states are those built from the
    initial one by reads, assignments to [scales] and value bodies, which is
    all a pass of the loop is made of ([seen_steps], [seen_values_loop]). *)
Inductive seen : parser -> Z -> Z -> Prop :=
| seen_initial io : seen (initial io) 0 9999
| seen_read st f a n : seen st f a -> seen (snd (read_st n st)) f a
| seen_scales st f a sc : seen st f a -> seen (with_scales st sc) f a
| seen_value st f a ls vs dl st' :
    seen st f a -> value_body ls vs dl st = Ok st' ->
    seen st' (fix_after ls vs st f) (accuracy_after ls vs st a).

(* ================================================================== *)
(** ** Well-formed session lists *)

(** A finalized session: a timestamp and at least one sample. *)
Definition row_ok (r : row) : Prop :=
  exists t g gd, timestamp r = Some t /\ gps_data r = Some (g :: gd).

(** [current_data] is [{}] or a session dictionary with both keys. *)
Definition current_ok (r : row) : Prop :=
  r = empty_dict \/ exists t gd, r = mk_row (Some t) (Some gd).

Definition sessions_ok (st : parser) : Prop :=
  Forall row_ok (data st) /\ current_ok (current_data st).

(* ================================================================== *)
(** ** The round-trip scenario *)

(** One SCAL record [1,1,1,1], GPSU at 210615120000.000000, GPSF 3, GPSP 100,
    one GPS5 record of two samples, GPSU at 210615120002.000000.  The GPSU
    payloads are one value of nineteen bytes, padded to twenty. *)
Definition round_trip_stream : list byte :=
  header "SCAL" "l" 4 4 ++ be 4 1 ++ be 4 1 ++ be 4 1 ++ be 4 1
  ++ header "GPSU" "U" 19 1 ++ ascii_bytes "210615120000.000000" ++ be 1 0
  ++ header "GPSF" "L" 4 1 ++ be 4 3
  ++ header "GPSP" "S" 2 1 ++ be 2 100 ++ be 2 0
  ++ header "GPS5" "l" 20 2
  ++ gps5_sample 100000 200000 0 500 0 ++ gps5_sample 100010 200010 0 520 0
  ++ header "GPSU" "U" 19 1 ++ ascii_bytes "210615120002.000000" ++ be 1 0.

(** The text of a [trkpt] line with the given attribute and time texts. *)
Definition trkpt_text (lat lon time : string) : string :=
  ("   <trkpt lat=" ++ dq ++ lat ++ dq ++ " lon=" ++ dq ++ lon ++ dq
   ++ "><time>" ++ time ++ "</time></trkpt>")%string.

(** The parser state when the loop is left on [round_trip_stream]. *)
Definition round_trip_final : parser :=
  Eval vm_compute in
    match parse (BytesIO round_trip_stream) with
    | Some (Ok st) => st
    | _ => initial (BytesIO [])
    end.

(* ================================================================== *)
(** ** Truncated streams *)

(** The descriptor the next pass will unpack. *)
Definition header_at (st : parser) : result (byte * Z * Z * Z) :=
  unpack_cBBB (fst (read_st 4 (snd (read_st 4 st)))).







(* ================================================================== *)
(** ** A session left open at the end of the stream *)

(** [round_trip_stream] followed by a GPS5 record of one sample, which goes
    to the session opened by the second GPSU record. *)
Definition open_session_stream : list byte :=
  round_trip_stream ++ header "GPS5" "l" 20 1 ++ gps5_sample 100020 200020 0 540 0.

(** The state after the six records of [round_trip_stream]... *)
Definition open_session_mid : parser :=
  Eval vm_compute in
    match passes 6 (initial (BytesIO open_session_stream)) with
    | Some st => st
    | None => initial (BytesIO [])
    end.

(** ... and after the seventh. *)
Definition open_session_final : parser :=
  Eval vm_compute in
    match passes 7 (initial (BytesIO open_session_stream)) with
    | Some st => st
    | None => initial (BytesIO [])
    end.

(* ================================================================== *)
(** ** The bytes a pass asks for *)

(** What one value body reads: lines 83, 94, 99, 103 and 107. *)
Definition per_value (label_string : string) (val_size data_length : Z) : Z :=
  if contains "GPS5" label_string then val_size
  else if contains "GPSU" label_string then data_length
  else val_size.

(** What lines 113-115 read. *)
Definition padding (data_length : Z) : Z :=
  if data_length mod 4 =? 0 then 0 else 4 - data_length mod 4.

(** What a pass that ends normally asks of the source after the header. *)
Definition asked (label_string : string) (data_type : byte) (desc1 desc2 desc3 : Z) : Z :=
  if byte_val data_type =? 0 then 0
  else if contains "EMPT" label_string then 4
  else
    let num_values := Z.lor (Z.shiftl desc2 8) desc3 in
    let data_length := desc1 * num_values in
    (if contains "SCAL" label_string then num_values * desc1
     else num_values * per_value label_string desc1 data_length)
    + padding data_length.

(* ================================================================== *)
(** ** Further streams *)

(** A fix of 3, an accuracy of 100, then a GPS5 record of one sample, with
    no GPSU record before it. *)
Definition gps5_before_gpsu_stream : list byte :=
  header "GPSF" "L" 4 1 ++ be 4 3
  ++ header "GPSP" "S" 2 1 ++ be 2 100 ++ be 2 0
  ++ header "GPS5" "l" 20 1 ++ gps5_sample 100000 200000 0 500 0.

(** The same GPS5 record while the gate is still closed, then a GPSU
    record. *)
Definition gps5_gate_closed_stream : list byte :=
  header "GPS5" "l" 20 1 ++ gps5_sample 100000 200000 0 500 0
  ++ header "GPSU" "U" 19 1 ++ ascii_bytes "210615120000.000000" ++ be 1 0.

(** A GPSU record with a repeat count of 2 and a value size of 19: 38 bytes
    of payload, two bytes of padding.  The payload and the 38 bytes that
    follow it are each a timestamp among spaces. *)
Definition gpsu_twice_stream : list byte :=
  header "GPSU" "U" 19 2
  ++ ascii_bytes "210615120000.000000" ++ spaces 19
  ++ spaces 2 ++ ascii_bytes "210615120001.000000" ++ spaces 17
  ++ spaces 2
  ++ header "GPSF" "L" 4 1 ++ be 4 3.



(** A GPSF record of one four-byte value, then a GPSP record of one two-byte
    value and its padding. *)
Definition fix_accuracy_stream : list byte :=
  header "GPSF" "L" 4 1 ++ be 4 3
  ++ header "GPSP" "S" 2 1 ++ be 2 100 ++ be 2 0.

(** The state between the two records of [fix_accuracy_stream]. *)
Definition fix_accuracy_mid : parser :=
  Eval vm_compute in
    match passes 1 (initial (BytesIO fix_accuracy_stream)) with
    | Some st => st
    | None => initial (BytesIO [])
    end.

(** The state at the head of the loop after four records of
    [round_trip_stream]... *)
Definition round_trip_before_gps5 : parser :=
  Eval vm_compute in
    match passes 4 (initial (BytesIO round_trip_stream)) with
    | Some st => st
    | None => initial (BytesIO [])
    end.

(** ... and the state in which the loop reads the first GPS5 value: the
    header of the fifth record is read. *)
Definition round_trip_at_gps5 : parser :=
  snd (read_st 4 (snd (read_st 4 round_trip_before_gps5))).

(* ================================================================== *)
(** ** Spans of sessions *)

Definition samples_of (r : row) : list gps_datum :=
  match gps_data r with
  | Some l => l
  | None => []
  end.

(** The number of samples in the sessions before position [i]: where the
    points of session [i] start in the flat list. *)
Definition points_before (data : list row) (i : nat) : nat :=
  list_sum (map (fun r => List.length (samples_of r)) (firstn i data)).

(** The end of the span of session [i], which starts at [start]: the
    timestamp of the next session when there is one, a second after [start]
    otherwise. *)
Definition session_end (data : list row) (i : nat) (start end_ : datetime) : Prop :=
  match nth_error data (S i) with
  | Some nxt => timestamp nxt = Some end_
  | None => end_ = start + td_seconds 1
  end.

(** Five samples in a session that the next GPSU record closes three
    microseconds after it was opened, then one sample more and a last GPSU
    record. *)
Definition tight_span_stream : list byte :=
  header "GPSU" "U" 19 1 ++ ascii_bytes "210615120000.000000" ++ be 1 0
  ++ header "GPSF" "L" 4 1 ++ be 4 3
  ++ header "GPSP" "S" 2 1 ++ be 2 100 ++ be 2 0
  ++ header "GPS5" "l" 20 5
  ++ gps5_sample 100000 200000 0 500 0 ++ gps5_sample 100001 200001 0 500 0
  ++ gps5_sample 100002 200002 0 500 0 ++ gps5_sample 100003 200003 0 500 0
  ++ gps5_sample 100004 200004 0 500 0
  ++ header "GPSU" "U" 19 1 ++ ascii_bytes "210615120000.000003" ++ be 1 0
  ++ header "GPS5" "l" 20 1 ++ gps5_sample 100005 200005 0 500 0
  ++ header "GPSU" "U" 19 1 ++ ascii_bytes "210615120001.000000" ++ be 1 0.

(* ================================================================== *)
(** ** The shape of a time text *)



(* ================================================================== *)
(** ** Samples and points *)

(** A point without its [timestamp] key: the sample the parser stored. *)
Definition drop_timestamp (g : gps_datum) : gps_datum :=
  mk_datum (latitude g) (longitude g) (speedmps g) None.

(** The samples of all the sessions of a list, in order. *)
Definition all_samples (data : list row) : list gps_datum :=
  List.concat (map samples_of data).

(** The state after the two records of [fix_accuracy_stream]. *)
Definition fix_accuracy_final : parser :=
  Eval vm_compute in
    match passes 2 (initial (BytesIO fix_accuracy_stream)) with
    | Some st => st
    | None => initial (BytesIO [])
    end.

(** The [trkpt] text of a point that has a timestamp. *)
Definition trkpt_line (float_str : float -> string) (p : gps_datum) : string :=
  trkpt_text (float_str (longitude p)) (float_str (latitude p))
    (match point_timestamp p with
     | Some t => strftime_iso t
     | None => EmptyString
     end).

(* ================================================================== *)
(** ** The values of a scale record *)

(** The [n] big-endian integers of [size] bytes at the start of [payload]. *)
Fixpoint scale_values (n size : nat) (payload : list byte) : list Z :=
  match n with
  | O => []
  | S n' => be_uint (firstn size payload) :: scale_values n' size (skipn size payload)
  end.

(** A SCAL record of three two-byte values, then a fix of 3, an accuracy of
    100, a GPSU record and a GPS5 record of one sample. *)
Definition three_scales_stream : list byte :=
  header "SCAL" "s" 2 3 ++ be 2 9 ++ be 2 9 ++ be 2 9 ++ be 2 0
  ++ header "GPSF" "L" 4 1 ++ be 4 3
  ++ header "GPSP" "S" 2 1 ++ be 2 100 ++ be 2 0
  ++ header "GPSU" "U" 19 1 ++ ascii_bytes "210615120000.000000" ++ be 1 0
  ++ header "GPS5" "l" 20 1 ++ gps5_sample 100000 200000 0 500 0.

(** The state in which the loop reads the GPS5 value of
    [three_scales_stream]. *)
Definition three_scales_at_gps5 : parser :=
  Eval vm_compute in
    match passes 4 (initial (BytesIO three_scales_stream)) with
    | Some st => snd (read_st 4 (snd (read_st 4 st)))
    | None => initial (BytesIO [])
    end.

(* ================================================================== *)
(** ** The script (lines 166-180) *)

(** How the script ends. *)
Inductive finish : Type :=
| SystemExit (code : Z)                 (* [sys.exit(code)] *)
| Uncaught (e : exn)
| NameError (name : string)             (* a name that is bound nowhere *)
| Written (path : string) (out : list string * option exn).
                                        (* [make_gpx] ran on the opened file *)

(** Lines 173-175, the loop over the videos.  The argument of
    [dump_metadata] is the name [VIDEO]; the loop variable is [video], and
    no assignment, import or definition of the module binds [VIDEO], so the
    first pass prints its message and raises [NameError] while the argument
    is evaluated, before [dump_metadata] is called. *)
Definition process_videos (videos : list string) : list string * option finish :=
  match videos with
  | [] => ([], None)
  | video :: _ => ([("Processing " ++ video)%string], Some (NameError "VIDEO"))
  end.

Section Script.

(** [str(x)] for a float, as in [Serializer]. *)
Variable float_str : float -> string.

(** The script on [sys.argv]: what it prints on the standard output and how
    it ends. *)
Definition main (argv : list string) : list string * finish :=
  if (List.length argv <? 3)%nat then
    match argv with
    | [] => ([], Uncaught IndexError)
    | argv0 :: _ =>
        ([("Usage: " ++ argv0 ++ " <video> [video...] output.gpx")%string],
         SystemExit 1)
    end
  else
    let videos := firstn (List.length argv - 2) (skipn 1 argv) in
    match process_videos videos with
    | (out, Some f) => (out, f)
    | (out, None) =>
        let path := last argv EmptyString in
        (out ++ [("Writing output to " ++ path)%string],
         Written path (make_gpx float_str []))
    end.

End Script.

(* ================================================================== *)
(** ** The timestamps a payload can give *)

(** The first and the last microsecond of the years 1969 to 2068. *)
Definition first_parsed : datetime := mk_datetime 1969 1 1 0 0 0 0.
Definition last_parsed : datetime := mk_datetime 2068 12 31 23 59 59 999999.

Definition in_parsed_years (t : datetime) : Prop :=
  first_parsed <= t <= last_parsed.

(** Every timestamp held by a session of the parser is of those years. *)
Definition timestamps_ok (st : parser) : Prop :=
  Forall (fun r => forall t, timestamp r = Some t -> in_parsed_years t) (data st)
  /\ forall t, timestamp (current_data st) = Some t -> in_parsed_years t.

(** The number of samples held by the sessions of the parser. *)
Definition samples_held (st : parser) : nat :=
  List.length (all_samples (data st))
  + List.length (samples_of (current_data st)).

(** A size no source goes beyond: 10^18 bytes hold at most 5 * 10^16
    samples of twenty bytes. *)
Definition max_source_bytes : Z := 1000000000000000000.

(* ================================================================== *)
(** ** The text of a label *)

(** An upper-case letter. *)
Definition is_upper (c : ascii) : bool :=
  (65 <=? nat_of_ascii c)%nat && (nat_of_ascii c <=? 90)%nat.

Fixpoint no_upper (s : string) : bool :=
  match s with
  | EmptyString => true
  | String c s' => negb (is_upper c) && no_upper s'
  end.

(** What [repr_byte] gives for a byte: the character itself, or an escape
    that starts with a backslash and holds no upper-case letter. *)
Definition repr_shape (quote : ascii) (b : byte) : bool :=
  String.eqb (repr_byte quote b) (String (ascii_of_byte b) EmptyString)
  || (starts_with (String backslash EmptyString) (repr_byte quote b)
      && no_upper (repr_byte quote b)).

(** The text between [b'] and the end of [str(b)]. *)
Definition repr_body (quote : ascii) (bs : list byte) : string :=
  fold_right (fun b acc => append (repr_byte quote b) acc)
    (String quote EmptyString) bs.

(** The labels the loop body tests for. *)
Definition tags : list string :=
  ["EMPT"; "SCAL"; "GPS5"; "GPSU"; "GPSF"; "GPSP"]%string.

(* ================================================================== *)
(** ** The text of a GPSU payload *)

(** The character of a decimal digit. *)
Definition digit_byte (d : Z) : byte := byte_of_Z (48 + d).

(** The last [n] decimal digits of [v], the most significant first. *)
Fixpoint digits_of (n : nat) (v : Z) : list Z :=
  match n with
  | O => []
  | S n' => digits_of n' (v / 10) ++ [v mod 10]
  end.

(** [yymmddHHMMSS.ffffff], the text that the format of line 94 describes,
    every field at its full width. *)
Definition gpsu_text (yy m d hh mm ss f : Z) : list byte :=
  map digit_byte (digits_of 2 yy ++ digits_of 2 m ++ digits_of 2 d
                  ++ digits_of 2 hh ++ digits_of 2 mm ++ digits_of 2 ss)
  ++ "."%byte :: map digit_byte (digits_of 6 f).

(* ================================================================== *)
(** ** The samples of a GPS5 payload *)

(** The sample that lines 82-87 make of the twenty bytes of a value, with
    [s0], [s1] and [s3] for [scales[0]], [scales[1]] and [scales[3]]. *)
Definition gps5_sample_of (s0 s1 s3 : Z) (b : list byte) : gps_datum :=
  mk_datum (PrimFloat.div (float_of_Z (be_int32 (firstn 4 b))) (float_of_Z s0))
           (PrimFloat.div (float_of_Z (be_int32 (firstn 4 (skipn 4 b))))
                          (float_of_Z s1))
           (PrimFloat.div (float_of_Z (be_int32 (firstn 4 (skipn 12 b))))
                          (float_of_Z s3))
           None.

(** The samples of the first [n] values of a payload. *)
Fixpoint gps5_samples (n : nat) (s0 s1 s3 : Z) (payload : list byte)
  : list gps_datum :=
  match n with
  | O => []
  | S n' =>
      gps5_sample_of s0 s1 s3 (firstn 20 payload)
      :: gps5_samples n' s0 s1 s3 (skipn 20 payload)
  end.

(* ================================================================== *)
(** ** The dates of the years 1969 to 2068 *)

(** [ord2ymd] takes the ordinal of the date [year]-[month]-[day] back to
    the date. *)
Definition date_read_back (year month day : Z) : bool :=
  let '(y, m, d) := ord2ymd (ymd2ord year month day) in
  (y =? year) && (m =? month) && (d =? day).

(* ================================================================== *)
(** ** A stream of one session *)

(** A GPSU record: one value of nineteen bytes, the text of the timestamp,
    and the byte that pads it to twenty. *)
Definition gpsu_record (t : ts_fields) : list byte :=
  header "GPSU" "U" 19 1
  ++ gpsu_text (f_y t) (f_m t) (f_d t) (f_H t) (f_M t) (f_S t) (f_f t)
  ++ be 1 0.

(** The payload of a GPS5 record: five words for each sample. *)
Definition gps5_payload (samples : list (Z * Z * Z * Z * Z)) : list byte :=
  flat_map (fun '(lat, lon, alt, speed, speed3d) =>
              gps5_sample lat lon alt speed speed3d) samples.

(** Four scales, a timestamp, a fix, an accuracy, one GPS5 record and the
    timestamp that closes the session. *)
Definition session_stream (s0 s1 s2 s3 : Z) (t1 : ts_fields) (fix_ accuracy : Z)
    (samples : list (Z * Z * Z * Z * Z)) (t2 : ts_fields) : list byte :=
  header "SCAL" "s" 2 4 ++ be 2 s0 ++ be 2 s1 ++ be 2 s2 ++ be 2 s3
  ++ gpsu_record t1
  ++ header "GPSF" "L" 4 1 ++ be 4 fix_
  ++ header "GPSP" "S" 2 1 ++ be 2 accuracy ++ be 2 0
  ++ header "GPS5" "l" 20 (Z.of_nat (List.length samples)) ++ gps5_payload samples
  ++ gpsu_record t2.

(** The fields of a date of the calendar and of a time of day. *)
Definition fields_ok (t : ts_fields) : Prop :=
  0 <= f_y t <= 99 /\ 1 <= f_m t <= 12
  /\ 1 <= f_d t <= days_in_month (if f_y t <=? 68 then f_y t + 2000
                                  else f_y t + 1900) (f_m t)
  /\ 0 <= f_H t <= 23 /\ 0 <= f_M t <= 59 /\ 0 <= f_S t <= 59
  /\ 0 <= f_f t <= 999999.

(** The [datetime] that [strptime] makes of the fields. *)
Definition datetime_of (t : ts_fields) : datetime :=
  mk_datetime (if f_y t <=? 68 then f_y t + 2000 else f_y t + 1900)
    (f_m t) (f_d t) (f_H t) (f_M t) (f_S t) (f_f t).

(** The five words of a sample fit 32 bits. *)
Definition sample_ok (w : Z * Z * Z * Z * Z) : Prop :=
  let '(lat, lon, alt, speed, speed3d) := w in
  let word z := - 2147483648 <= z < 2147483648 in
  word lat /\ word lon /\ word alt /\ word speed /\ word speed3d.

(** The sample that the words give under the scales. *)
Definition sample_datum (s0 s1 s3 : Z) (w : Z * Z * Z * Z * Z) : gps_datum :=
  let '(lat, lon, _, speed, _) := w in
  mk_datum (PrimFloat.div (float_of_Z lat) (float_of_Z s0))
           (PrimFloat.div (float_of_Z lon) (float_of_Z s1))
           (PrimFloat.div (float_of_Z speed) (float_of_Z s3))
           None.

(** The parser has [rest] left to read and holds the given values. *)
Definition parser_at (st : parser) (rest : list byte) (sc : list Z)
    (fix_ accuracy : Z) (okay : bool) (dt : list row) (cur : row) : Prop :=
  remaining (gopro_binary st) = rest /\ scales st = sc /\ gps_fix st = fix_
  /\ gps_accuracy st = accuracy /\ okay_to_record st = okay
  /\ data st = dt /\ current_data st = cur.

(* ================================================================== *)
(** * Properties *)

(** ** The calendar *)

(** On every day of the years 1969 to 2068, [ord2ymd] gives a date of the
    calendar and [ymd2ord] takes it back to the day. *)
Lemma calendar_round_trip :
  forallb civil_ok parsed_ordinals = true
  /\ ymd2ord 1969 1 1 + 36524 = ymd2ord 2068 12 31.
Proof.
  split; vm_compute; reflexivity.
Qed.

(** ** The monad *)

Lemma bind_Ok {A B : Type} (c : result A) (k : A -> result B) (b : B) :
  bind c k = Ok b -> exists a, c = Ok a /\ k a = Ok b.
Proof.
  destruct c as [a|e]; simpl; intro H; [exists a; auto | discriminate].
Qed.

Ltac bind_inv H :=
  let a := fresh "a" in
  let Ha := fresh "Ha" in
  apply bind_Ok in H; destruct H as [a [Ha H]].

(** ** The source only moves forward *)

Lemma read_st_left (n : Z) (st : parser) :
  bytes_left (snd (read_st n st)) = (bytes_left st - Z.to_nat n)%nat.
Proof.
  unfold bytes_left, read_st, read; simpl. apply length_skipn.
Qed.

Lemma read_st_fst_length (n : Z) (st : parser) :
  List.length (fst (read_st n st)) = Nat.min (Z.to_nat n) (bytes_left st).
Proof.
  unfold bytes_left, read_st, read; simpl. apply length_firstn.
Qed.

Lemma read_st_tell (n : Z) (st : parser) :
  tell (gopro_binary (snd (read_st n st)))
  = (tell (gopro_binary st) + Nat.min (Z.to_nat n) (bytes_left st))%nat.
Proof.
  unfold bytes_left, read_st, read; simpl. now rewrite length_firstn.
Qed.

(** ** Relations kept by every pass of the loop

    A pass is made of reads, of assignments to [scales] and of value bodies:
    a reflexive and transitive relation between states that these three keep
    is kept by [values_loop], [scal_loop], [iteration] and [steps]. *)

Section LoopRelation.

Variable R : parser -> parser -> Prop.
Variable Q : string -> Prop.      (* what is known of the record's label *)
Hypothesis R_refl : forall st, R st st.
Hypothesis R_trans : forall a b c, R a b -> R b c -> R a c.
Hypothesis R_read : forall n st, R st (snd (read_st n st)).
Hypothesis R_scales : forall st sc, R st (with_scales st sc).
Hypothesis R_value : forall ls vs dl st st',
    Q ls -> value_body ls vs dl st = Ok st' -> R st st'.

Lemma values_loop_rel n ls vs dl : forall st st',
    Q ls -> values_loop n ls vs dl st = Ok st' -> R st st'.
Proof.
  induction n as [|n IH]; simpl; intros st st' HQ H.
  - injection H as <-. apply R_refl.
  - bind_inv H. eapply R_trans; [eapply R_value; eauto | eauto].
Qed.

Lemma scal_body_rel vs st st' : scal_body vs st = Ok st' -> R st st'.
Proof.
  unfold scal_body. intro H.
  destruct (vs =? 2).
  - destruct (read_st 2 st) as [b st1] eqn:E. bind_inv H. injection H as <-.
    eapply R_trans; [|apply R_scales].
    change st1 with (snd (b, st1)). rewrite <- E. apply R_read.
  - destruct (vs =? 4); [|discriminate].
    destruct (read_st 4 st) as [b st1] eqn:E. bind_inv H. injection H as <-.
    eapply R_trans; [|apply R_scales].
    change st1 with (snd (b, st1)). rewrite <- E. apply R_read.
Qed.

Lemma scal_loop_rel n vs : forall st st',
    scal_loop n vs st = Ok st' -> R st st'.
Proof.
  induction n as [|n IH]; simpl; intros st st' H.
  - injection H as <-. apply R_refl.
  - bind_inv H. eapply R_trans; [eapply scal_body_rel; eauto | eauto].
Qed.

Lemma skip_padding_rel dl st : R st (skip_padding dl st).
Proof.
  unfold skip_padding. destruct (dl mod 4 =? 0); [apply R_refl | apply R_read].
Qed.

Lemma record_body_rel ls ty d1 d2 d3 st st' :
  Q ls -> record_body ls ty d1 d2 d3 st = Next st' -> R st st'.
Proof.
  unfold record_body. intros HQ H.
  destruct (byte_val ty =? 0).
  { injection H as <-. apply R_refl. }
  destruct (contains "EMPT" ls).
  { injection H as <-. exact (R_read 4 st). }
  destruct (contains "SCAL" ls).
  - destruct (scal_loop _ _ _) as [st3|] eqn:E3; [|discriminate].
    injection H as <-.
    eapply R_trans; [apply R_scales|].
    eapply R_trans; [eapply scal_loop_rel; eauto | apply skip_padding_rel].
  - destruct (values_loop _ _ _ _ _) as [st3|] eqn:E3; [|discriminate].
    injection H as <-.
    eapply R_trans; [eapply values_loop_rel; eauto | apply skip_padding_rel].
Qed.

Lemma iteration_rel st st' :
  Q (next_label st) -> iteration st = Next st' -> R st st'.
Proof.
  unfold iteration, next_label. intros HQ H.
  destruct (read_st 4 st) as [label st1] eqn:E1.
  assert (R1 : R st st1)
    by (change st1 with (snd (label, st1)); rewrite <- E1; apply R_read).
  destruct (read_st 4 st1) as [d st2] eqn:E2.
  assert (R2 : R st st2).
  { eapply R_trans; [exact R1|].
    change st2 with (snd (d, st2)); rewrite <- E2; apply R_read. }
  simpl in HQ.
  destruct (unpack_cBBB d) as [[[[ty d1] d2] d3]|]; [|discriminate].
  eapply R_trans; [exact R2 | eapply record_body_rel; eauto].
Qed.

End LoopRelation.

Lemma value_body_left ls vs dl st st' :
  value_body ls vs dl st = Ok st' -> (bytes_left st' <= bytes_left st)%nat.
Proof.
  unfold value_body. intro H. bind_inv H. injection H as <-.
  change (bytes_left (with_okay_to_record a _)) with (bytes_left a).
  assert (Hr : forall n, (bytes_left (snd (read_st n st)) <= bytes_left st)%nat)
    by (intro n; rewrite read_st_left; lia).
  destruct (contains "GPS5" ls).
  { unfold gps5_value in Ha. destruct (negb _); [discriminate|].
    destruct (read_st vs st) as [b st1] eqn:E.
    assert (H1 : (bytes_left st1 <= bytes_left st)%nat)
      by (change st1 with (snd (b, st1)); rewrite <- E; apply Hr).
    bind_inv Ha. destruct a0 as [[[[lat lon] alt] speed] speed3d].
    destruct (okay_to_record st1); [|injection Ha as <-; exact H1].
    repeat bind_inv Ha. injection Ha as <-. exact H1. }
  destruct (contains "GPSU" ls).
  { unfold gpsu_value in Ha. bind_inv Ha.
    destruct (read_st dl _) as [b st1] eqn:E.
    bind_inv Ha. injection Ha as <-.
    change (bytes_left (with_current_data st1 _)) with (bytes_left st1).
    change st1 with (snd (b, st1)); rewrite <- E.
    rewrite read_st_left. destruct a0; simpl; unfold bytes_left; simpl; lia. }
  destruct (contains "GPSF" ls).
  { unfold gpsf_value in Ha. destruct (read_st vs st) as [b st1] eqn:E.
    bind_inv Ha. injection Ha as <-.
    change st1 with (snd (b, st1)); rewrite <- E. apply Hr. }
  destruct (contains "GPSP" ls).
  { unfold gpsp_value in Ha. destruct (read_st vs st) as [b st1] eqn:E.
    bind_inv Ha. injection Ha as <-.
    change st1 with (snd (b, st1)); rewrite <- E. apply Hr. }
  injection Ha as <-. apply Hr.
Qed.

Lemma record_body_left ls ty d1 d2 d3 st st' :
  record_body ls ty d1 d2 d3 st = Next st' -> (bytes_left st' <= bytes_left st)%nat.
Proof.
  apply (@record_body_rel (fun a b => (bytes_left b <= bytes_left a)%nat)
           (fun _ => True)); auto.
  - intros; lia.
  - intros; rewrite read_st_left; lia.
  - intros; eapply value_body_left; eauto.
Qed.

Lemma unpack_cBBB_Ok d v : unpack_cBBB d = Ok v -> List.length d = 4%nat.
Proof.
  destruct d as [|a [|b [|c [|e [|f d]]]]]; simpl; intro H;
    try discriminate; reflexivity.
Qed.

Lemma unpack_cBBB_Raise d e : unpack_cBBB d = Raise e -> List.length d <> 4%nat.
Proof.
  destruct d as [|a [|b [|c [|e' [|f d]]]]]; simpl; intro H;
    try discriminate; lia.
Qed.

(** A pass that comes back to the head of the loop has read a full header. *)
Lemma iteration_left st st' :
  iteration st = Next st' -> (bytes_left st' + 8 <= bytes_left st)%nat.
Proof.
  unfold iteration. intro H.
  destruct (read_st 4 st) as [label st1] eqn:E1.
  destruct (read_st 4 st1) as [d st2] eqn:E2.
  assert (L1 : bytes_left st1 = (bytes_left st - 4)%nat).
  { change st1 with (snd (label, st1)); rewrite <- E1. apply read_st_left. }
  assert (L2 : bytes_left st2 = (bytes_left st1 - 4)%nat).
  { change st2 with (snd (d, st2)); rewrite <- E2. apply read_st_left. }
  assert (Ld : List.length d = Nat.min 4 (bytes_left st1)).
  { change d with (fst (d, st2)); rewrite <- E2. apply read_st_fst_length. }
  destruct (unpack_cBBB d) as [[[[ty d1] d2] d3]|] eqn:U; [|discriminate].
  apply unpack_cBBB_Ok in U. apply record_body_left in H. lia.
Qed.

(** The loop is left through [break] exactly when fewer than eight bytes
    are left for the header. *)
Lemma iteration_Break st :
  iteration st = Break <-> (bytes_left st < 8)%nat.
Proof.
  unfold iteration.
  destruct (read_st 4 st) as [label st1] eqn:E1.
  destruct (read_st 4 st1) as [d st2] eqn:E2.
  assert (L1 : bytes_left st1 = (bytes_left st - 4)%nat).
  { change st1 with (snd (label, st1)); rewrite <- E1. apply read_st_left. }
  assert (Ld : List.length d = Nat.min 4 (bytes_left st1)).
  { change d with (fst (d, st2)); rewrite <- E2. apply read_st_fst_length. }
  destruct (unpack_cBBB d) as [[[[ty d1] d2] d3]|] eqn:U.
  - apply unpack_cBBB_Ok in U. split; [|lia].
    unfold record_body.
    destruct (byte_val ty =? 0); [discriminate|].
    destruct (contains "EMPT" _); [discriminate|].
    destruct (if contains "SCAL" _ then _ else _); discriminate.
  - apply unpack_cBBB_Raise in U. split; [lia | reflexivity].
Qed.

(** ** The loop terminates *)

Lemma while_loop_fuel : forall fuel st,
    (bytes_left st < fuel)%nat -> exists r, while_loop fuel st = Some r.
Proof.
  induction fuel as [|fuel IH]; intros st Hf; [lia|].
  simpl. destruct (iteration st) as [|st'|e] eqn:E.
  - eexists; reflexivity.
  - apply IH. apply iteration_left in E. lia.
  - eexists; reflexivity.
Qed.

Lemma while_loop_more_fuel : forall fuel st r,
    while_loop fuel st = Some r ->
    forall fuel', (fuel <= fuel')%nat -> while_loop fuel' st = Some r.
Proof.
  induction fuel as [|fuel IH]; simpl; intros st r H fuel' Hle; [discriminate|].
  destruct fuel' as [|fuel']; [lia|]. simpl.
  destruct (iteration st) as [|st'|e]; auto.
  apply IH; [exact H | lia].
Qed.

Lemma parse_terminates io : exists r, parse io = Some r.
Proof.
  unfold parse, enough_fuel. apply while_loop_fuel. unfold bytes_left. lia.
Qed.

(** The function returns or raises on every source. *)
Lemma gopro_binary_to_csv_terminates io : exists r, gopro_binary_to_csv io = Some r.
Proof.
  unfold gopro_binary_to_csv. destruct (parse_terminates io) as [[st|e] ->];
    eexists; reflexivity.
Qed.

(** A run that reaches a state where the loop breaks is the run of
    [while_loop]. *)
Lemma steps_break st st' :
  steps st st' -> iteration st' = Break ->
  while_loop (enough_fuel st) st = Some (Ok st').
Proof.
  induction 1 as [st|st st1 st2 Hit Hsteps IH]; intro Hb.
  - unfold enough_fuel. simpl. now rewrite Hb.
  - unfold enough_fuel. simpl. rewrite Hit.
    apply while_loop_more_fuel with (fuel := enough_fuel st1); [auto|].
    apply iteration_left in Hit. unfold enough_fuel, bytes_left in *. lia.
Qed.

Lemma steps_trans a b c : steps a b -> steps b c -> steps a c.
Proof.
  induction 1; intro; [assumption | eapply steps_next; eauto].
Qed.

Lemma steps_no_gpsu_steps a b : steps_no_gpsu a b -> steps a b.
Proof.
  induction 1; [apply steps_refl | eapply steps_next; eauto].
Qed.

Lemma while_loop_steps : forall fuel st st',
    while_loop fuel st = Some (Ok st') -> steps st st' /\ iteration st' = Break.
Proof.
  induction fuel as [|fuel IH]; simpl; intros st st' H; [discriminate|].
  destruct (iteration st) as [|st1|e] eqn:E.
  - injection H as <-. split; [apply steps_refl | exact E].
  - destruct (IH _ _ H) as [Hs Hb]. split; [eapply steps_next; eauto | exact Hb].
  - discriminate.
Qed.

Lemma steps_rel (R : parser -> parser -> Prop) :
  (forall st, R st st) ->
  (forall a b c, R a b -> R b c -> R a c) ->
  (forall st st', iteration st = Next st' -> R st st') ->
  forall st st', steps st st' -> R st st'.
Proof.
  intros Hrefl Htrans Hit st st' H.
  induction H; [apply Hrefl | eapply Htrans; eauto].
Qed.

Lemma passes_steps : forall n st st', passes n st = Some st' -> steps st st'.
Proof.
  induction n as [|n IH]; simpl; intros st st' H.
  - injection H as <-. apply steps_refl.
  - destruct (iteration st) as [|st1|e] eqn:E; try discriminate.
    eapply steps_next; eauto.
Qed.

(** ** Only sessions with samples are finalized *)

Lemma value_body_sessions_ok ls vs dl st st' :
  value_body ls vs dl st = Ok st' -> sessions_ok st -> sessions_ok st'.
Proof.
  unfold value_body. intros H [Hd Hc]. bind_inv H. injection H as <-.
  change (sessions_ok (with_okay_to_record a (gate (gps_fix a) (gps_accuracy a))))
    with (sessions_ok a).
  destruct (contains "GPS5" ls).
  { unfold gps5_value in Ha. destruct (negb _); [discriminate|].
    unfold read_st, read in Ha; simpl in Ha.
    bind_inv Ha. destruct a0 as [[[[lat lon] alt] speed] speed3d].
    destruct (okay_to_record st); simpl in Ha.
    - repeat bind_inv Ha. injection Ha as <-. split; [exact Hd|].
      simpl. destruct Hc as [Hc | [t [gd Hc]]]; rewrite Hc in *; simpl in *.
      + discriminate.
      + right. eauto.
    - injection Ha as <-. split; assumption. }
  destruct (contains "GPSU" ls).
  { unfold gpsu_value in Ha. bind_inv Ha.
    unfold read_st, read in Ha; simpl in Ha.
    bind_inv Ha. injection Ha as <-. split; [|right; simpl; eauto].
    destruct a0; simpl; [|exact Hd].
    apply Forall_app. split; [exact Hd|]. constructor; [|constructor].
    destruct Hc as [Hc | [t [gd Hc]]]; rewrite Hc in *; simpl in *.
    + discriminate.
    + injection Ha0 as Hg. destruct gd as [|g gd]; [discriminate|].
      exists t, g, gd. auto. }
  destruct (contains "GPSF" ls).
  { unfold gpsf_value, read_st, read in Ha; simpl in Ha.
    bind_inv Ha. injection Ha as <-. split; assumption. }
  destruct (contains "GPSP" ls).
  { unfold gpsp_value, read_st, read in Ha; simpl in Ha.
    bind_inv Ha. injection Ha as <-. split; assumption. }
  injection Ha as <-. split; assumption.
Qed.

Lemma iteration_sessions_ok st st' :
  iteration st = Next st' -> sessions_ok st -> sessions_ok st'.
Proof.
  apply (@iteration_rel (fun a b => sessions_ok a -> sessions_ok b)
           (fun _ => True)); auto.
  intros; eapply value_body_sessions_ok; eauto.
Qed.

Lemma steps_sessions_ok st st' :
  steps st st' -> sessions_ok st -> sessions_ok st'.
Proof.
  apply (@steps_rel (fun a b => sessions_ok a -> sessions_ok b)); auto.
  intros; eapply iteration_sessions_ok; eauto.
Qed.

Lemma initial_sessions_ok io : sessions_ok (initial io).
Proof. split; [constructor | left; reflexivity]. Qed.

Lemma stamp_not_zero_div start step_ : forall l j,
    stamp start step_ j l <> Raise ZeroDivisionError.
Proof.
  induction l as [|g l IH]; simpl; intros j H; [discriminate|].
  unfold dt_add in H. destruct (dt_validb _); simpl in H; [|discriminate].
  destruct (stamp start step_ (j + 1) l) as [rest|e] eqn:E; simpl in H.
  - discriminate.
  - injection H as ->. eapply IH; eauto.
Qed.

Lemma stamp_row_not_zero_div data index r :
  row_ok r -> stamp_row data index r <> Raise ZeroDivisionError.
Proof.
  intros [t [g [gd [Ht Hg]]]] H. unfold stamp_row in H.
  unfold start_time_of in H. rewrite Ht in H. simpl in H.
  destruct (end_time_of data index t) as [e|x] eqn:E; simpl in H.
  - rewrite Hg in H. simpl in H. unfold td_div in H.
    destruct (Z.of_nat (List.length (g :: gd)) =? 0) eqn:Z0.
    + apply Z.eqb_eq in Z0. simpl in Z0. lia.
    + eapply (@stamp_not_zero_div _ _ (g :: gd) 0). exact H.
  - injection H as ->. unfold end_time_of in E.
    destruct (Nat.eqb _ _).
    + unfold dt_add in E. destruct (dt_validb _); discriminate.
    + unfold list_index in E. destruct (nth_error _ _) as [nxt|]; simpl in E;
        [|discriminate].
      destruct (timestamp nxt); discriminate.
Qed.

Lemma stamp_rows_not_zero_div data : forall rows index,
    Forall row_ok rows -> stamp_rows data index rows <> Raise ZeroDivisionError.
Proof.
  induction rows as [|r rows IH]; simpl; intros index Hf H; [discriminate|].
  inversion Hf as [|? ? Hr Hrs]; subst.
  destruct (stamp_row data index r) as [pts|e] eqn:E; simpl in H.
  - destruct (stamp_rows data (S index) rows) as [rest|e] eqn:E2; simpl in H.
    + discriminate.
    + injection H as ->. eapply IH; eauto.
  - injection H as ->. eapply stamp_row_not_zero_div; eauto.
Qed.

(** C6. A session that gets no sample before the next GPSU value is not
    appended to [data]; every session of the list the loop hands to the
    interpolation has a timestamp and at least one sample; and the division
    by the number of samples never raises [ZeroDivisionError]. *)
Theorem C6_finalized_sessions_have_samples (io : bytesio) (st : parser) :
  parse io = Some (Ok st) ->
  (forall s t dl s',
      current_data s = mk_row (Some t) (Some []) ->
      gpsu_value dl s = Ok s' -> data s' = data s)
  /\ Forall (fun r => exists t g gd,
                timestamp r = Some t /\ gps_data r = Some (g :: gd)) (data st)
  /\ interpolate (data st) <> Raise ZeroDivisionError.
Proof.
  intro H. split; [|].
  - intros s t dl s' Hc Hu. unfold gpsu_value in Hu. rewrite Hc in Hu.
    simpl in Hu. unfold read_st, read in Hu; simpl in Hu.
    bind_inv Hu. injection Hu as <-. reflexivity.
  - unfold parse in H. apply while_loop_steps in H. destruct H as [Hs _].
    apply steps_sessions_ok in Hs; [|apply initial_sessions_ok].
    destruct Hs as [Hd _]. split; [exact Hd|].
    apply stamp_rows_not_zero_div. exact Hd.
Qed.

Lemma C6_witness :
  parse (BytesIO round_trip_stream) = Some (Ok round_trip_final)
  /\ ((forall s t dl s',
         current_data s = mk_row (Some t) (Some []) ->
         gpsu_value dl s = Ok s' -> data s' = data s)
      /\ Forall (fun r => exists t g gd,
                    timestamp r = Some t /\ gps_data r = Some (g :: gd))
                (data round_trip_final)
      /\ interpolate (data round_trip_final) <> Raise ZeroDivisionError).
Proof.
  split; [vm_compute; reflexivity|].
  apply (@C6_finalized_sessions_have_samples (BytesIO round_trip_stream)).
  vm_compute; reflexivity.
Defined.

(** ** The round-trip scenario *)

(** C1 (as stated). The stream does not give the points (1.0, 2.0) at
    12:00:00 and (1.0001, 2.0001) at 12:00:01.  The floats 1.0001 and 2.0001
    are written as the quotients 10001/10000 and 20001/10000, which round to
    them. *)
Lemma C1_as_stated_fails :
  ~ (exists p1 p2 t1 t2,
        gopro_binary_to_csv (BytesIO round_trip_stream) = Some (Ok [p1; p2])
        /\ latitude p1 = 1%float /\ longitude p1 = 2%float
        /\ point_timestamp p1 = Some t1
        /\ strftime_iso t1 = "2021-06-15T12:00:00Z"%string
        /\ latitude p2 = PrimFloat.div 10001 10000
        /\ longitude p2 = PrimFloat.div 20001 10000
        /\ point_timestamp p2 = Some t2
        /\ strftime_iso t2 = "2021-06-15T12:00:01Z"%string).
Proof.
  intros (p1 & p2 & t1 & t2 & H & Hlat & _).
  assert (E : gopro_binary_to_csv (BytesIO round_trip_stream)
              = Some (Ok [mk_datum 100000 200000 500 (Some 63759441600000000);
                          mk_datum 100010 200010 520 (Some 63759441600500000)]))
    by (vm_compute; reflexivity).
  rewrite E in H. clear E. injection H as <- _.
  apply (f_equal (fun v => PrimFloat.eqb v 1)) in Hlat.
  vm_compute in Hlat. discriminate Hlat.
Qed.

(** C1 (amended). With scales of 1 the raw values are kept: the stream gives
    exactly two points, (100000.0, 200000.0) at 12:00:00 and
    (100010.0, 200010.0) at 12:00:00.5 -- the only finalized session is the
    last of the list and spans one second -- and both times are written
    [2021-06-15T12:00:00Z].  In the GPX text the [lat] attribute holds the
    longitude and the [lon] attribute the latitude. *)
Theorem C1_round_trip :
  let t0 := mk_datetime 2021 6 15 12 0 0 0 in
  let p1 := mk_datum 100000 200000 500 (Some t0) in
  let p2 := mk_datum 100010 200010 520 (Some (t0 + 500000)) in
  gopro_binary_to_csv (BytesIO round_trip_stream) = Some (Ok [p1; p2])
  /\ strftime_iso t0 = "2021-06-15T12:00:00Z"%string
  /\ strftime_iso (t0 + 500000) = "2021-06-15T12:00:00Z"%string
  /\ forall float_str,
      make_gpx float_str [p1; p2]
      = ([gpx_header;
          trkpt_text (float_str 200000%float) (float_str 100000%float)
                     "2021-06-15T12:00:00Z";
          trkpt_text (float_str 200010%float) (float_str 100010%float)
                     "2021-06-15T12:00:00Z";
          gpx_footer], None).
Proof.
  intros t0 p1 p2.
  split; [vm_compute; reflexivity|].
  split; [vm_compute; reflexivity|].
  split; [vm_compute; reflexivity|].
  intro float_str. vm_compute. reflexivity.
Qed.

(** ** Truncation *)


Lemma iteration_unfold st :
  iteration st =
  match header_at st with
  | Raise _ => Break
  | Ok (ty, d1, d2, d3) =>
      record_body (next_label st) ty d1 d2 d3 (snd (read_st 4 (snd (read_st 4 st))))
  end.
Proof.
  unfold iteration, header_at, next_label.
  destruct (read_st 4 st) as [label st1]. simpl.
  destruct (read_st 4 st1) as [d st2]. simpl. reflexivity.
Qed.

Lemma byte_val_range b : 0 <= byte_val b < 256.
Proof.
  unfold byte_val. pose proof (Byte.to_N_bounded b). lia.
Qed.

Lemma header_at_range st ty d1 d2 d3 :
  header_at st = Ok (ty, d1, d2, d3) ->
  0 <= d1 < 256 /\ 0 <= d2 < 256 /\ 0 <= d3 < 256.
Proof.
  unfold header_at, unpack_cBBB.
  destruct (fst _) as [|a [|b [|c [|e [|f d]]]]]; intro H; try discriminate.
  injection H as <- <- <- <-. repeat split; apply byte_val_range.
Qed.

Lemma num_values_nonneg d2 d3 : 0 <= d2 -> 0 <= d3 -> 0 <= Z.lor (Z.shiftl d2 8) d3.
Proof.
  intros H2 H3. apply Z.lor_nonneg. split; [apply Z.shiftl_nonneg; lia | lia].
Qed.


Lemma gopro_binary_to_csv_break io st :
  steps (initial io) st -> iteration st = Break ->
  gopro_binary_to_csv io = Some (interpolate (data st)).
Proof.
  intros Hs Hb. unfold gopro_binary_to_csv, parse.
  now rewrite (steps_break Hs Hb).
Qed.






(** ** The session in progress when the stream ends *)

Lemma value_body_data ls vs dl st st' :
  contains "GPSU" ls = false ->
  value_body ls vs dl st = Ok st' -> data st' = data st.
Proof.
  unfold value_body. intros HU H. bind_inv H. injection H as <-.
  change (data (with_okay_to_record a (gate (gps_fix a) (gps_accuracy a))))
    with (data a).
  rewrite HU in Ha.
  destruct (contains "GPS5" ls).
  { unfold gps5_value in Ha. destruct (negb _); [discriminate|].
    unfold read_st, read in Ha; simpl in Ha.
    bind_inv Ha. destruct a0 as [[[[lat lon] alt] speed] speed3d].
    destruct (okay_to_record st); simpl in Ha.
    - repeat bind_inv Ha. injection Ha as <-. reflexivity.
    - injection Ha as <-. reflexivity. }
  destruct (contains "GPSF" ls).
  { unfold gpsf_value, read_st, read in Ha; simpl in Ha.
    bind_inv Ha. injection Ha as <-. reflexivity. }
  destruct (contains "GPSP" ls).
  { unfold gpsp_value, read_st, read in Ha; simpl in Ha.
    bind_inv Ha. injection Ha as <-. reflexivity. }
  injection Ha as <-. reflexivity.
Qed.

Lemma iteration_data st st' :
  contains "GPSU" (next_label st) = false ->
  iteration st = Next st' -> data st' = data st.
Proof.
  apply (@iteration_rel (fun a b => data b = data a)
           (fun ls => contains "GPSU" ls = false)); auto.
  - intros a b c H1 H2. congruence.
  - intros; eapply value_body_data; eauto.
Qed.

Lemma steps_no_gpsu_data st st' : steps_no_gpsu st st' -> data st' = data st.
Proof.
  induction 1 as [|st st1 st2 Hit HU _ IH]; [reflexivity|].
  rewrite IH. eapply iteration_data; eauto.
Qed.

(** C10. Whatever the loop reads after the last record with a GPSU label
    leaves [data] as it was: the session that record opened is still
    [current_data] when the loop is left, it is not appended, and the
    function returns the interpolation of the sessions finalized before. *)
Theorem C10_open_session_is_dropped (io : bytesio) (st_u st_end : parser) :
  steps (initial io) st_u ->
  steps_no_gpsu st_u st_end ->
  iteration st_end = Break ->
  parse io = Some (Ok st_end)
  /\ data st_end = data st_u
  /\ gopro_binary_to_csv io = Some (interpolate (data st_u)).
Proof.
  intros Hs Hn Hb.
  assert (Hs' : steps (initial io) st_end)
    by (eapply steps_trans; [exact Hs | apply steps_no_gpsu_steps; exact Hn]).
  pose proof (steps_no_gpsu_data Hn) as Hd.
  split; [exact (steps_break Hs' Hb)|]. split; [exact Hd|].
  rewrite <- Hd. apply gopro_binary_to_csv_break; assumption.
Qed.

Lemma C10_witness :
  (exists t g, current_data open_session_final = mk_row (Some t) (Some [g]))
  /\ gopro_binary_to_csv (BytesIO open_session_stream)
     = gopro_binary_to_csv (BytesIO round_trip_stream)
  /\ (parse (BytesIO open_session_stream) = Some (Ok open_session_final)
      /\ data open_session_final = data open_session_mid
      /\ gopro_binary_to_csv (BytesIO open_session_stream)
         = Some (interpolate (data open_session_mid))).
Proof.
  split; [do 2 eexists; vm_compute; reflexivity|].
  split; [vm_compute; reflexivity|].
  apply (@C10_open_session_is_dropped (BytesIO open_session_stream)
           open_session_mid open_session_final).
  - apply (@passes_steps 6). vm_compute. reflexivity.
  - apply no_gpsu_next with (st' := open_session_final).
    + vm_compute. reflexivity.
    + vm_compute. reflexivity.
    + apply no_gpsu_refl.
  - vm_compute. reflexivity.
Defined.

(** ** GPS5 values before the first GPSU record *)

(** With [current_data] still [{}] and the gate open, no GPS5 value is
    processed without an exception. *)
Lemma gps5_value_without_session vs st :
  current_data st = empty_dict -> okay_to_record st = true ->
  exists e, gps5_value vs st = Raise e.
Proof.
  intros Hc Ho. unfold gps5_value.
  destruct (negb (vs =? 20)); [eexists; reflexivity|].
  unfold read_st, read; simpl.
  destruct (unpack_iiiii _) as [[[[[lat lon] alt] speed] speed3d]|e];
    [|eexists; reflexivity].
  simpl. rewrite Ho.
  destruct (scaled lat (scales st) 0); [|eexists; reflexivity].
  destruct (scaled lon (scales st) 1); [|eexists; reflexivity].
  destruct (scaled speed (scales st) 3); [|eexists; reflexivity].
  simpl. rewrite Hc. simpl. eexists; reflexivity.
Qed.

(** C3. A GPS5 record met before any GPSU record while the gate is open:
    [current_data] is still [{}], the lookup of its [gps_data] key raises
    [KeyError] and the function returns nothing.  With the gate closed the
    same record is read and passed over. *)
Theorem C3_gps5_before_gpsu_raises :
  gopro_binary_to_csv (BytesIO gps5_before_gpsu_stream) = Some (Raise KeyError)
  /\ gopro_binary_to_csv (BytesIO gps5_gate_closed_stream) = Some (Ok []).
Proof.
  split; vm_compute; reflexivity.
Qed.

(** ** Alignment *)

Lemma value_body_reads ls vs dl st st' :
  0 <= vs -> 0 <= dl ->
  value_body ls vs dl st = Ok st' ->
  bytes_left st' = (bytes_left st - Z.to_nat (per_value ls vs dl))%nat
  /\ (tell (gopro_binary st') + bytes_left st'
      = tell (gopro_binary st) + bytes_left st)%nat.
Proof.
  unfold value_body, per_value. intros Hvs Hdl H. bind_inv H. injection H as <-.
  change (bytes_left (with_okay_to_record a (gate (gps_fix a) (gps_accuracy a))))
    with (bytes_left a).
  change (gopro_binary (with_okay_to_record a (gate (gps_fix a) (gps_accuracy a))))
    with (gopro_binary a).
  assert (Hr : forall n,
             bytes_left (snd (read_st n st)) = (bytes_left st - Z.to_nat n)%nat
             /\ (tell (gopro_binary (snd (read_st n st)))
                 + bytes_left (snd (read_st n st))
                 = tell (gopro_binary st) + bytes_left st)%nat).
  { intro n. rewrite read_st_tell, read_st_left. lia. }
  destruct (contains "GPS5" ls).
  { unfold gps5_value in Ha. destruct (negb _); [discriminate Ha|].
    destruct (read_st vs st) as [b st1] eqn:E.
    assert (E1 : st1 = snd (read_st vs st)) by (rewrite E; reflexivity).
    bind_inv Ha. destruct a0 as [[[[lat lon] alt] speed] speed3d].
    destruct (okay_to_record st1).
    - repeat bind_inv Ha. injection Ha as <-.
      change (bytes_left (with_current_data st1 ?r)) with (bytes_left st1).
      change (gopro_binary (with_current_data st1 ?r)) with (gopro_binary st1).
      rewrite E1. apply Hr.
    - injection Ha as <-. rewrite E1. apply Hr. }
  destruct (contains "GPSU" ls).
  { unfold gpsu_value in Ha. bind_inv Ha.
    destruct (read_st dl _) as [b st1] eqn:E.
    bind_inv Ha. injection Ha as <-.
    change (bytes_left (with_current_data st1 ?r)) with (bytes_left st1).
    change (gopro_binary (with_current_data st1 ?r)) with (gopro_binary st1).
    assert (E1 : st1 = snd (read_st dl (if a0 then with_data st (data st ++ [current_data st]) else st)))
      by (rewrite E; reflexivity).
    rewrite E1, read_st_tell, read_st_left.
    destruct a0; unfold bytes_left; simpl; lia. }
  destruct (contains "GPSF" ls).
  { unfold gpsf_value in Ha. destruct (read_st vs st) as [b st1] eqn:E.
    assert (E1 : st1 = snd (read_st vs st)) by (rewrite E; reflexivity).
    bind_inv Ha. injection Ha as <-.
    change (bytes_left (with_gps_fix st1 ?r)) with (bytes_left st1).
    change (gopro_binary (with_gps_fix st1 ?r)) with (gopro_binary st1).
    rewrite E1. apply Hr. }
  destruct (contains "GPSP" ls).
  { unfold gpsp_value in Ha. destruct (read_st vs st) as [b st1] eqn:E.
    assert (E1 : st1 = snd (read_st vs st)) by (rewrite E; reflexivity).
    bind_inv Ha. injection Ha as <-.
    change (bytes_left (with_gps_accuracy st1 ?r)) with (bytes_left st1).
    change (gopro_binary (with_gps_accuracy st1 ?r)) with (gopro_binary st1).
    rewrite E1. apply Hr. }
  injection Ha as <-. apply Hr.
Qed.

Lemma values_loop_reads ls vs dl : forall n st st',
    0 <= vs -> 0 <= dl ->
    values_loop n ls vs dl st = Ok st' ->
    bytes_left st'
    = (bytes_left st - n * Z.to_nat (per_value ls vs dl))%nat
    /\ (tell (gopro_binary st') + bytes_left st'
        = tell (gopro_binary st) + bytes_left st)%nat.
Proof.
  induction n as [|n IH]; simpl; intros st st' Hvs Hdl H.
  - injection H as <-. lia.
  - bind_inv H. destruct (@value_body_reads ls vs dl st a Hvs Hdl Ha) as [H1 H2].
    destruct (IH _ _ Hvs Hdl H) as [H3 H4]. lia.
Qed.

Lemma scal_loop_reads vs : forall n st st',
    0 <= vs ->
    scal_loop n vs st = Ok st' ->
    bytes_left st' = (bytes_left st - n * Z.to_nat vs)%nat
    /\ (tell (gopro_binary st') + bytes_left st'
        = tell (gopro_binary st) + bytes_left st)%nat.
Proof.
  induction n as [|n IH]; simpl; intros st st' Hvs H.
  - injection H as <-. lia.
  - bind_inv H. destruct (IH _ _ Hvs H) as [H3 H4].
    assert (H12 : bytes_left a = (bytes_left st - Z.to_nat vs)%nat
                  /\ (tell (gopro_binary a) + bytes_left a
                      = tell (gopro_binary st) + bytes_left st)%nat).
    { unfold scal_body in Ha.
      destruct (vs =? 2) eqn:E2.
      - apply Z.eqb_eq in E2. subst vs.
        destruct (read_st 2 st) as [b st1] eqn:E.
        assert (E1 : st1 = snd (read_st 2 st)) by (rewrite E; reflexivity).
        bind_inv Ha. injection Ha as <-.
        change (bytes_left (with_scales st1 ?r)) with (bytes_left st1).
        change (gopro_binary (with_scales st1 ?r)) with (gopro_binary st1).
        rewrite E1, read_st_tell, read_st_left. lia.
      - destruct (vs =? 4) eqn:E4; [|discriminate Ha].
        apply Z.eqb_eq in E4. subst vs.
        destruct (read_st 4 st) as [b st1] eqn:E.
        assert (E1 : st1 = snd (read_st 4 st)) by (rewrite E; reflexivity).
        bind_inv Ha. injection Ha as <-.
        change (bytes_left (with_scales st1 ?r)) with (bytes_left st1).
        change (gopro_binary (with_scales st1 ?r)) with (gopro_binary st1).
        rewrite E1, read_st_tell, read_st_left. lia. }
    lia.
Qed.

Lemma padding_range dl : 0 <= padding dl < 4.
Proof.
  unfold padding. pose proof (Z.mod_pos_bound dl 4 ltac:(lia)).
  destruct (dl mod 4 =? 0) eqn:E; [lia|]. apply Z.eqb_neq in E. lia.
Qed.

Lemma padding_aligns dl : (dl + padding dl) mod 4 = 0.
Proof.
  unfold padding. pose proof (Z.mod_pos_bound dl 4 ltac:(lia)) as Hm.
  pose proof (Z.div_mod dl 4 ltac:(lia)) as Hd.
  destruct (dl mod 4 =? 0) eqn:E.
  - apply Z.eqb_eq in E. now rewrite Z.add_0_r.
  - replace (dl + (4 - dl mod 4)) with ((dl / 4 + 1) * 4) by lia.
    apply Z.mod_mul. lia.
Qed.

(** A pass that ends normally has read the header and what [asked] says,
    or all there was. *)
Lemma iteration_reads st st' ty d1 d2 d3 :
  header_at st = Ok (ty, d1, d2, d3) ->
  iteration st = Next st' ->
  bytes_left st'
  = (bytes_left st - 8 - Z.to_nat (asked (next_label st) ty d1 d2 d3))%nat
  /\ (tell (gopro_binary st') + bytes_left st'
      = tell (gopro_binary st) + bytes_left st)%nat.
Proof.
  intros Hh Hit. destruct (header_at_range _ Hh) as (R1 & R2 & R3).
  pose proof (@num_values_nonneg d2 d3 ltac:(lia) ltac:(lia)) as Hn.
  rewrite iteration_unfold, Hh in Hit. unfold record_body, asked in *.
  remember (snd (read_st 4 (snd (read_st 4 st)))) as st2 eqn:Est2.
  assert (L2 : bytes_left st2 = (bytes_left st - 8)%nat
               /\ (tell (gopro_binary st2) + bytes_left st2
                   = tell (gopro_binary st) + bytes_left st)%nat).
  { rewrite Est2, !read_st_tell, !read_st_left. simpl Z.to_nat. lia. }
  clear Est2.
  pose proof (read_st_tell 4 st2) as T4. pose proof (read_st_left 4 st2) as L4.
  remember (snd (read_st 4 st2)) as st4 eqn:E4. clear E4.
  simpl Z.to_nat in T4, L4.
  destruct (byte_val ty =? 0).
  { injection Hit as <-. simpl Z.to_nat. lia. }
  destruct (contains "EMPT" (next_label st)).
  { injection Hit as <-. simpl Z.to_nat. lia. }
  cbv zeta in *.
  set (n := Z.lor (Z.shiftl d2 8) d3) in *.
  pose proof (padding_range (d1 * n)) as Hp.
  assert (Hpad : forall s,
             bytes_left (skip_padding (d1 * n) s)
             = (bytes_left s - Z.to_nat (padding (d1 * n)))%nat
             /\ (tell (gopro_binary (skip_padding (d1 * n) s))
                 + bytes_left (skip_padding (d1 * n) s)
                 = tell (gopro_binary s) + bytes_left s)%nat).
  { intro s. unfold skip_padding, padding. cbv zeta.
    destruct ((d1 * n) mod 4 =? 0); [simpl; lia|].
    rewrite read_st_tell, read_st_left. lia. }
  destruct (contains "SCAL" (next_label st)).
  - destruct (scal_loop _ _ _) as [st3|] eqn:E3; [|discriminate Hit].
    injection Hit as <-.
    apply scal_loop_reads in E3; [|lia].
    change (bytes_left (with_scales st2 [])) with (bytes_left st2) in E3.
    change (gopro_binary (with_scales st2 [])) with (gopro_binary st2) in E3.
    destruct (Hpad st3) as [P1 P2].
    rewrite Z2Nat.inj_add, Z2Nat.inj_mul by nia. lia.
  - destruct (values_loop _ _ _ _ _) as [st3|] eqn:E3; [|discriminate Hit].
    injection Hit as <-.
    apply values_loop_reads in E3; [|lia|nia].
    destruct (Hpad st3) as [P1 P2].
    assert (0 <= per_value (next_label st) d1 (d1 * n))
      by (unfold per_value; destruct (contains _ _); [lia|];
          destruct (contains _ _); nia).
    rewrite Z2Nat.inj_add, Z2Nat.inj_mul by nia. lia.
Qed.

(** X13. Every pass that finds in the source what it asks for ends at a multiple
    of four from where it started, unless it is through the GPSU branch with
    more than one value. *)
Lemma iteration_aligned st st' ty d1 d2 d3 :
  header_at st = Ok (ty, d1, d2, d3) ->
  iteration st = Next st' ->
  (8 + Z.to_nat (asked (next_label st) ty d1 d2 d3) <= bytes_left st)%nat ->
  contains "GPS5" (next_label st) = true
  \/ contains "GPSU" (next_label st) = false
  \/ Z.lor (Z.shiftl d2 8) d3 <= 1 ->
  exists q, tell (gopro_binary st') = (tell (gopro_binary st) + 4 * q)%nat.
Proof.
  intros Hh Hit Hlen Hlab.
  destruct (@iteration_reads st st' ty d1 d2 d3 Hh Hit) as [H1 H2].
  destruct (header_at_range _ Hh) as (R1 & R2 & R3).
  pose proof (@num_values_nonneg d2 d3 ltac:(lia) ltac:(lia)) as Hn.
  assert (Hmod : asked (next_label st) ty d1 d2 d3 mod 4 = 0
                 /\ 0 <= asked (next_label st) ty d1 d2 d3).
  { unfold asked. destruct (byte_val ty =? 0); [split; [reflexivity|lia]|].
    destruct (contains "EMPT" _); [split; [reflexivity|lia]|].
    cbv zeta. set (n := Z.lor (Z.shiftl d2 8) d3) in *.
    pose proof (padding_range (d1 * n)) as Hp.
    pose proof (padding_aligns (d1 * n)) as Ha.
    destruct (contains "SCAL" _).
    { rewrite (Z.mul_comm n d1). split; [exact Ha | nia]. }
    unfold per_value.
    destruct (contains "GPS5" (next_label st)).
    { rewrite (Z.mul_comm n d1). split; [exact Ha | nia]. }
    destruct (contains "GPSU" (next_label st)).
    - destruct Hlab as [Hl|[Hl|Hl]]; try discriminate Hl.
      assert (Hn01 : n = 0 \/ n = 1) by lia.
      destruct Hn01 as [-> | ->].
      + rewrite Z.mul_0_l. rewrite Z.mul_0_r in *. split; [exact Ha | lia].
      + rewrite Z.mul_1_l. split; [exact Ha | lia].
    - rewrite (Z.mul_comm n d1). split; [exact Ha | nia]. }
  destruct Hmod as [Hmod Hpos].
  apply Z.mod_divide in Hmod; [|lia]. destruct Hmod as [q Hq].
  exists (Z.to_nat (2 + q)).
  assert (Z.to_nat (asked (next_label st) ty d1 d2 d3) = (4 * Z.to_nat q)%nat)
    by (rewrite Hq; lia).
  lia.
Qed.

(** C4. On a GPSU record with a repeat count of 2 each value reads
    [data_length] bytes, the payload of the whole record: the pass reads
    8 + 2 * 38 + 2 = 86 bytes and ends at a position that is not a multiple
    of four. *)
Theorem C4_gpsu_repeat_breaks_alignment :
  exists st,
    iteration (initial (BytesIO gpsu_twice_stream)) = Next st
    /\ tell (gopro_binary st) = 86%nat
    /\ (tell (gopro_binary st) mod 4 = 2)%nat
    /\ timestamp (current_data st) = Some (mk_datetime 2021 6 15 12 0 1 0).
Proof.
  eexists. split; [vm_compute; reflexivity|].
  repeat split; vm_compute; reflexivity.
Qed.

(** ** GPSF and GPSP records *)

Lemma read_st_remaining n st :
  remaining (gopro_binary (snd (read_st n st)))
  = skipn (Z.to_nat n) (remaining (gopro_binary st)).
Proof. reflexivity. Qed.

Lemma read_st_bytes n st :
  fst (read_st n st) = firstn (Z.to_nat n) (remaining (gopro_binary st)).
Proof. reflexivity. Qed.

Lemma skipn_read_read st :
  remaining (gopro_binary (snd (read_st 4 (snd (read_st 4 st)))))
  = skipn 8 (remaining (gopro_binary st)).
Proof.
  rewrite !read_st_remaining, skipn_skipn. reflexivity.
Qed.

Lemma gpsf_record st ty :
  next_label st = "b'GPSF'"%string ->
  header_at st = Ok (ty, 4, 0, 1) ->
  byte_val ty <> 0 ->
  (12 <= bytes_left st)%nat ->
  let payload := firstn 4 (skipn 8 (remaining (gopro_binary st))) in
  exists st',
    iteration st = Next st'
    /\ gps_fix st' = be_uint payload
    /\ gps_accuracy st' = gps_accuracy st
    /\ okay_to_record st' = gate (be_uint payload) (gps_accuracy st)
    /\ scales st' = scales st /\ data st' = data st
    /\ current_data st' = current_data st
    /\ remaining (gopro_binary st') = skipn 12 (remaining (gopro_binary st)).
Proof.
  intros Hl Hh Hty Hlen payload.
  assert (Hty' : (byte_val ty =? 0) = false) by (apply Z.eqb_neq; exact Hty).
  rewrite iteration_unfold, Hh, Hl. unfold record_body. rewrite Hty'.
  change (contains "EMPT" "b'GPSF'") with false.
  change (contains "SCAL" "b'GPSF'") with false.
  cbv iota. change (Z.to_nat (Z.lor (Z.shiftl 0 8) 1)) with 1%nat.
  set (st2 := snd (read_st 4 (snd (read_st 4 st)))).
  assert (Hr2 : remaining (gopro_binary st2) = skipn 8 (remaining (gopro_binary st)))
    by apply skipn_read_read.
  unfold values_loop, value_body.
  change (contains "GPS5" "b'GPSF'") with false.
  change (contains "GPSU" "b'GPSF'") with false.
  change (contains "GPSF" "b'GPSF'") with true.
  cbv iota. unfold gpsf_value.
  assert (Hb : fst (read_st 4 st2) = payload).
  { rewrite read_st_bytes, Hr2. reflexivity. }
  assert (Hlen4 : List.length payload = 4%nat).
  { unfold payload. rewrite length_firstn, length_skipn.
    unfold bytes_left in Hlen. lia. }
  destruct (read_st 4 st2) as [b st3] eqn:E. simpl in Hb. subst b.
  unfold unpack_I. rewrite Hlen4. simpl Nat.eqb. cbv iota.
  cbv beta iota delta [bind].
  eexists. split; [reflexivity|].
  assert (E3 : st3 = snd (read_st 4 st2)) by (rewrite E; reflexivity).
  repeat split; try (rewrite E3; reflexivity).
  change (skip_padding (4 * Z.lor (Z.shiftl 0 8) 1) ?x) with x.
  cbv beta. rewrite E3.
  change (remaining (gopro_binary (snd (read_st 4 st2))) = skipn 12 (remaining (gopro_binary st))).
  rewrite read_st_remaining, Hr2, skipn_skipn. reflexivity.
Qed.

Lemma gpsp_record st ty :
  next_label st = "b'GPSP'"%string ->
  header_at st = Ok (ty, 2, 0, 1) ->
  byte_val ty <> 0 ->
  (10 <= bytes_left st)%nat ->
  let payload := firstn 2 (skipn 8 (remaining (gopro_binary st))) in
  exists st',
    iteration st = Next st'
    /\ gps_accuracy st' = be_uint payload
    /\ gps_fix st' = gps_fix st
    /\ okay_to_record st' = gate (gps_fix st) (be_uint payload)
    /\ scales st' = scales st /\ data st' = data st
    /\ current_data st' = current_data st
    /\ remaining (gopro_binary st') = skipn 12 (remaining (gopro_binary st)).
Proof.
  intros Hl Hh Hty Hlen payload.
  assert (Hty' : (byte_val ty =? 0) = false) by (apply Z.eqb_neq; exact Hty).
  rewrite iteration_unfold, Hh, Hl. unfold record_body. rewrite Hty'.
  change (contains "EMPT" "b'GPSP'") with false.
  change (contains "SCAL" "b'GPSP'") with false.
  cbv iota. change (Z.to_nat (Z.lor (Z.shiftl 0 8) 1)) with 1%nat.
  set (st2 := snd (read_st 4 (snd (read_st 4 st)))).
  assert (Hr2 : remaining (gopro_binary st2) = skipn 8 (remaining (gopro_binary st)))
    by apply skipn_read_read.
  unfold values_loop, value_body.
  change (contains "GPS5" "b'GPSP'") with false.
  change (contains "GPSU" "b'GPSP'") with false.
  change (contains "GPSF" "b'GPSP'") with false.
  change (contains "GPSP" "b'GPSP'") with true.
  cbv iota. unfold gpsp_value.
  assert (Hb : fst (read_st 2 st2) = payload).
  { rewrite read_st_bytes, Hr2. reflexivity. }
  assert (Hlen2 : List.length payload = 2%nat).
  { unfold payload. rewrite length_firstn, length_skipn.
    unfold bytes_left in Hlen. lia. }
  destruct (read_st 2 st2) as [b st3] eqn:E. simpl in Hb. subst b.
  unfold unpack_H. rewrite Hlen2. simpl Nat.eqb. cbv iota.
  cbv beta iota delta [bind].
  eexists. split; [reflexivity|].
  assert (E3 : st3 = snd (read_st 2 st2)) by (rewrite E; reflexivity).
  repeat split; try (rewrite E3; reflexivity).
  change (skip_padding (2 * Z.lor (Z.shiftl 0 8) 1) ?x) with (snd (read_st 2 x)).
  cbv beta. rewrite E3.
  change (remaining (gopro_binary (snd (read_st 2 (snd (read_st 2 st2)))))
          = skipn 12 (remaining (gopro_binary st))).
  rewrite !read_st_remaining. fold st2. rewrite Hr2, !skipn_skipn. reflexivity.
Qed.




(** ** The quality gate *)

Lemma unpack_I_Ok b v : unpack_I b = Ok v -> v = be_uint b.
Proof.
  unfold unpack_I. destruct (Nat.eqb _ _); intro H; [|discriminate H].
  now injection H as <-.
Qed.

Lemma unpack_H_Ok b v : unpack_H b = Ok v -> v = be_uint b.
Proof.
  unfold unpack_H. destruct (Nat.eqb _ _); intro H; [|discriminate H].
  now injection H as <-.
Qed.

(** What a value body does to [gps_fix] and [gps_accuracy]. *)
Lemma value_body_fix_accuracy ls vs dl st st' :
  value_body ls vs dl st = Ok st' ->
  gps_fix st' = fix_after ls vs st (gps_fix st)
  /\ gps_accuracy st' = accuracy_after ls vs st (gps_accuracy st)
  /\ okay_to_record st' = gate (gps_fix st') (gps_accuracy st').
Proof.
  unfold value_body, fix_after, accuracy_after. intro H.
  bind_inv H. injection H as <-.
  change (gps_fix (with_okay_to_record a (gate (gps_fix a) (gps_accuracy a))))
    with (gps_fix a).
  change (gps_accuracy (with_okay_to_record a (gate (gps_fix a) (gps_accuracy a))))
    with (gps_accuracy a).
  split; [|split; [|reflexivity]].
  - destruct (contains "GPS5" ls); simpl.
    { unfold gps5_value in Ha. destruct (negb _); [discriminate Ha|].
      unfold read_st, read in Ha; simpl in Ha.
      bind_inv Ha. destruct a0 as [[[[lat lon] alt] speed] speed3d].
      destruct (okay_to_record st); simpl in Ha.
      - repeat bind_inv Ha. injection Ha as <-. reflexivity.
      - injection Ha as <-. reflexivity. }
    destruct (contains "GPSU" ls); simpl.
    { unfold gpsu_value in Ha. bind_inv Ha.
      unfold read_st, read in Ha; simpl in Ha.
      bind_inv Ha. injection Ha as <-. destruct a0; reflexivity. }
    destruct (contains "GPSF" ls).
    { unfold gpsf_value in Ha. destruct (read_st vs st) as [b st1] eqn:E.
      bind_inv Ha. injection Ha as <-. apply unpack_I_Ok in Ha0. subst a0.
      apply (f_equal fst) in E. simpl in E. subst b. reflexivity. }
    destruct (contains "GPSP" ls).
    { unfold gpsp_value, read_st, read in Ha; simpl in Ha.
      bind_inv Ha. injection Ha as <-. reflexivity. }
    injection Ha as <-. reflexivity.
  - destruct (contains "GPS5" ls); simpl.
    { unfold gps5_value in Ha. destruct (negb _); [discriminate Ha|].
      unfold read_st, read in Ha; simpl in Ha.
      bind_inv Ha. destruct a0 as [[[[lat lon] alt] speed] speed3d].
      destruct (okay_to_record st); simpl in Ha.
      - repeat bind_inv Ha. injection Ha as <-. reflexivity.
      - injection Ha as <-. reflexivity. }
    destruct (contains "GPSU" ls); simpl.
    { unfold gpsu_value in Ha. bind_inv Ha.
      unfold read_st, read in Ha; simpl in Ha.
      bind_inv Ha. injection Ha as <-. destruct a0; reflexivity. }
    destruct (contains "GPSF" ls); simpl.
    { unfold gpsf_value, read_st, read in Ha; simpl in Ha.
      bind_inv Ha. injection Ha as <-. reflexivity. }
    destruct (contains "GPSP" ls).
    { unfold gpsp_value in Ha. destruct (read_st vs st) as [b st1] eqn:E.
      bind_inv Ha. injection Ha as <-. apply unpack_H_Ok in Ha0. subst a0.
      apply (f_equal fst) in E. simpl in E. subst b. reflexivity. }
    injection Ha as <-. reflexivity.
Qed.

(** In every state the loop can be in, [gps_fix] and [gps_accuracy] hold the
    latest values read and [okay_to_record] is the gate on them. *)
Lemma seen_registers st f a :
  seen st f a ->
  gps_fix st = f /\ gps_accuracy st = a /\ okay_to_record st = gate f a.
Proof.
  induction 1 as [io | st f a n _ IH | st f a sc _ IH
                  | st f a ls vs dl st' _ IH Hv].
  - repeat split.
  - exact IH.
  - exact IH.
  - destruct IH as (Hf & Hacc & _).
    destruct (value_body_fix_accuracy _ _ _ _ Hv) as (Hf' & Ha' & Hg').
    rewrite Hf in Hf'. rewrite Hacc in Ha'.
    rewrite Hg', Hf', Ha'. repeat split; assumption.
Qed.

Lemma seen_iteration st st' :
  iteration st = Next st' ->
  (exists f a, seen st f a) -> exists f a, seen st' f a.
Proof.
  apply (@iteration_rel (fun x y => (exists f a, seen x f a) -> exists f a, seen y f a)
           (fun _ => True)); auto.
  - intros n s (f & a & H). do 2 eexists. apply seen_read. exact H.
  - intros s sc (f & a & H). do 2 eexists. apply seen_scales. exact H.
  - intros ls vs dl s s' _ Hv (f & a & H). do 2 eexists.
    eapply seen_value; eauto.
Qed.

(** The states at the head of the loop are among those of [seen]... *)
Lemma seen_steps io st :
  steps (initial io) st -> seen st (gps_fix st) (gps_accuracy st).
Proof.
  intro Hs.
  assert (H : exists f a, seen st f a).
  { refine (@steps_rel
                (fun x y => (exists f a, seen x f a) -> exists f a, seen y f a)
                _ _ _ _ _ Hs _); auto.
    - intros; eapply seen_iteration; eauto.
    - do 2 eexists. apply seen_initial. }
  destruct H as (f & a & H).
  destruct (seen_registers H) as (<- & <- & _). exact H.
Qed.

(** ... and so are the states between the values of a record. *)
Lemma seen_values_loop n ls vs dl st st' :
  values_loop n ls vs dl st = Ok st' ->
  seen st (gps_fix st) (gps_accuracy st) ->
  seen st' (gps_fix st') (gps_accuracy st').
Proof.
  intros Hl Hs.
  assert (H : exists f a, seen st' f a).
  { refine (@values_loop_rel
                (fun x y => (exists f a, seen x f a) -> exists f a, seen y f a)
                (fun _ => True) _ _ _ n ls vs dl st st' I Hl _); eauto.
    intros l v d s s' _ Hv (f & a & H). do 2 eexists.
    eapply seen_value; eauto. }
  destruct H as (f & a & H).
  destruct (seen_registers H) as (<- & <- & _). exact H.
Qed.



(** ** Interpolation *)

Lemma dt_add_Ok t d x : dt_add t d = Ok x -> x = t + d.
Proof.
  unfold dt_add. destruct (dt_validb _); intro H; [|discriminate H].
  now injection H as <-.
Qed.

Lemma stamp_spec start step_ : forall l j0 out,
    stamp start step_ j0 l = Ok out ->
    List.length out = List.length l
    /\ forall j g, nth_error l j = Some g ->
         nth_error out j
         = Some (with_timestamp g (start + (j0 + Z.of_nat j) * step_)).
Proof.
  induction l as [|g0 l IH]; simpl; intros j0 out H.
  - injection H as <-. split; [reflexivity|]. intros [|j] g Hn; discriminate Hn.
  - bind_inv H. bind_inv H. injection H as <-.
    apply dt_add_Ok in Ha. unfold td_mul in Ha. subst a.
    destruct (IH _ _ Ha0) as [Hlen Hnth]. split; [simpl; now rewrite Hlen|].
    intros [|j] g Hn; simpl in Hn |- *.
    + injection Hn as <-. do 2 f_equal. lia.
    + rewrite (Hnth _ _ Hn). do 2 f_equal. lia.
Qed.

Lemma end_time_of_Ok data i start e :
  end_time_of data i start = Ok e -> session_end data i start e.
Proof.
  unfold end_time_of, session_end. intro H.
  destruct (Nat.eqb i (List.length data - 1)) eqn:E.
  - apply Nat.eqb_eq in E. apply dt_add_Ok in H.
    assert (Hnone : nth_error data (S i) = None)
      by (apply nth_error_None; lia).
    now rewrite Hnone.
  - bind_inv H. unfold list_index in Ha.
    replace (i + 1)%nat with (S i) in Ha by lia.
    destruct (nth_error data (S i)) as [nxt|]; [|discriminate Ha].
    injection Ha as <-. destruct (timestamp nxt); [|discriminate H].
    now injection H as <-.
Qed.

Lemma stamp_row_spec data i r out :
  stamp_row data i r = Ok out ->
  forall start gd, timestamp r = Some start -> gps_data r = Some gd ->
  exists end_,
    session_end data i start end_
    /\ List.length gd <> 0%nat
    /\ List.length out = List.length gd
    /\ forall j g, nth_error gd j = Some g ->
         nth_error out j
         = Some (with_timestamp g
                   (start + Z.of_nat j
                            * divide_and_round (end_ - start)
                                (Z.of_nat (List.length gd)))).
Proof.
  unfold stamp_row, start_time_of. intros H start gd Ht Hg.
  rewrite Ht, Hg in H. simpl in H.
  destruct (end_time_of data i start) as [e|] eqn:Ee; [|discriminate H].
  simpl in H. unfold td_div in H.
  destruct (Z.of_nat (List.length gd) =? 0) eqn:E0; [discriminate H|].
  simpl in H. apply Z.eqb_neq in E0.
  destruct (stamp_spec _ _ _ _ H) as [Hlen Hnth].
  exists e. split; [now apply end_time_of_Ok|]. split; [lia|].
  split; [exact Hlen|]. intros j g Hn. rewrite (Hnth _ _ Hn). reflexivity.
Qed.

Lemma stamp_row_length data i r out :
  stamp_row data i r = Ok out -> List.length out = List.length (samples_of r).
Proof.
  intro H. unfold stamp_row in H. bind_inv H. bind_inv H. bind_inv H.
  bind_inv H. destruct (stamp_spec _ _ _ _ H) as [Hlen _].
  unfold samples_of. destruct (gps_data r); [|discriminate Ha1].
  injection Ha1 as <-. exact Hlen.
Qed.

Lemma stamp_rows_spec data : forall rows index pts,
    stamp_rows data index rows = Ok pts ->
    forall k r, nth_error rows k = Some r ->
    exists out,
      stamp_row data (index + k) r = Ok out
      /\ forall j, (j < List.length out)%nat ->
           nth_error pts (points_before rows k + j) = nth_error out j.
Proof.
  induction rows as [|r0 rows IH]; simpl; intros index pts H k r Hk.
  - destruct k; discriminate Hk.
  - bind_inv H. bind_inv H. injection H as <-.
    destruct k as [|k]; simpl in Hk.
    + injection Hk as <-. exists a. rewrite Nat.add_0_r. split; [exact Ha|].
      intros j Hj. unfold points_before. simpl.
      now rewrite nth_error_app1.
    + destruct (IH _ _ Ha0 _ _ Hk) as (out & Ho & Hn).
      exists out. replace (index + S k)%nat with (S index + k)%nat by lia.
      split; [exact Ho|]. intros j Hj.
      unfold points_before in *. simpl.
      rewrite <- (stamp_row_length _ _ _ Ha).
      rewrite nth_error_app2 by lia.
      replace (List.length a + _ + j - List.length a)%nat
        with (list_sum (map (fun r1 => List.length (samples_of r1)) (firstn k rows)) + j)%nat
        by lia.
      apply Hn. exact Hj.
Qed.

(** Rounding to the nearest microsecond keeps the last sample inside the
    span as long as the span is not short for the number of samples. *)
Lemma last_step_inside (d k : Z) :
  0 < k -> 0 < d -> k * (k - 1) < 2 * d ->
  (k - 1) * divide_and_round d k < d.
Proof.
  intros Hk Hd Hsmall. unfold divide_and_round.
  pose proof (Z.div_mod d k ltac:(lia)) as Hdm.
  pose proof (Z.mod_pos_bound d k Hk) as Hm.
  assert (Hq : 0 <= d / k) by (apply Z.div_pos; lia).
  set (q := d / k) in *. set (m := d mod k) in *.
  assert (Hdown : (k - 1) * q < d) by nia.
  destruct (0 <? k) eqn:Ek; [|apply Z.ltb_ge in Ek; lia].
  destruct ((k <? 2 * m) || ((2 * m =? k) && (q mod 2 =? 1))) eqn:Eup;
    [|exact Hdown].
  assert (Hhalf : k <= 2 * m).
  { apply orb_true_iff in Eup. destruct Eup as [E|E].
    - apply Z.ltb_lt in E. lia.
    - apply andb_true_iff in E. destruct E as [E _]. apply Z.eqb_eq in E. lia. }
  nia.
Qed.

(** C7 (as stated). Five samples between GPSU records three microseconds
    apart: the step is 3/5 of a microsecond rounded to 1, and the fifth
    sample is stamped four microseconds after the start of the span, past
    its end. *)
Lemma C7_last_sample_passes_end :
  let start := mk_datetime 2021 6 15 12 0 0 0 in
  let end_ := mk_datetime 2021 6 15 12 0 0 3 in
  exists st pts,
    parse (BytesIO tight_span_stream) = Some (Ok st)
    /\ map timestamp (data st) = [Some start; Some end_]
    /\ gopro_binary_to_csv (BytesIO tight_span_stream) = Some (Ok pts)
    /\ map point_timestamp pts
       = [Some start; Some (start + 1); Some (start + 2); Some (start + 3);
          Some (start + 4); Some end_]
    /\ start < end_
    /\ ~ (start + 4 < end_).
Proof.
  intros start end_. do 2 eexists.
  split; [vm_compute; reflexivity|].
  split; [vm_compute; reflexivity|].
  split; [vm_compute; reflexivity|].
  split; [vm_compute; reflexivity|].
  split; [vm_compute; reflexivity|].
  vm_compute. intro H. discriminate H.
Qed.

(** C7 (amended). When the interpolation returns, sample [j] of a session
    with [k] samples that starts at [start] is point [points_before + j] of
    the result, stamped [start + j * step], where [step] is
    [(end - start) / k] rounded to the nearest microsecond (ties to even)
    and [end] is the timestamp of the next session or, for the last one, a
    second after [start].  [k] is not zero.  When [end > start] and
    [k * (k - 1) < 2 * (end - start)] in microseconds, the last sample is
    stamped before [end]. *)
Theorem C7_interpolation (data : list row) (pts : list gps_datum) (i : nat)
    (r : row) (start : datetime) (gd : list gps_datum) :
  interpolate data = Ok pts ->
  nth_error data i = Some r ->
  timestamp r = Some start ->
  gps_data r = Some gd ->
  exists end_,
    let k := Z.of_nat (List.length gd) in
    let step_ := divide_and_round (end_ - start) k in
    session_end data i start end_
    /\ 0 < k
    /\ (forall j g, nth_error gd j = Some g ->
          nth_error pts (points_before data i + j)
          = Some (with_timestamp g (start + Z.of_nat j * step_)))
    /\ (start < end_ -> k * (k - 1) < 2 * (end_ - start) ->
        start + (k - 1) * step_ < end_).
Proof.
  intros Hi Hr Ht Hg. unfold interpolate in Hi.
  destruct (stamp_rows_spec _ _ _ Hi _ Hr) as (out & Ho & Hn).
  simpl in Ho.
  destruct (@stamp_row_spec data i r out Ho start gd Ht Hg)
    as (e & He & Hk & Hlen & Hj).
  exists e. cbv zeta.
  split; [exact He|]. split; [lia|]. split.
  - intros j g Hjg. rewrite Hn.
    + apply Hj. exact Hjg.
    + rewrite Hlen. apply nth_error_Some. rewrite Hjg. discriminate.
  - intros Hlt Hsmall.
    pose proof (@last_step_inside (e - start) (Z.of_nat (List.length gd))
                  ltac:(lia) ltac:(lia) Hsmall).
    lia.
Qed.

Lemma C7_witness :
  exists end_,
    session_end (data round_trip_final) 0 (mk_datetime 2021 6 15 12 0 0 0) end_
    /\ 0 < 2
    /\ (forall j g,
          nth_error [mk_datum 100000 200000 500 None;
                     mk_datum 100010 200010 520 None] j = Some g ->
          nth_error [mk_datum 100000 200000 500 (Some 63759441600000000);
                     mk_datum 100010 200010 520 (Some 63759441600500000)]
                    (points_before (data round_trip_final) 0 + j)
          = Some (with_timestamp g
                    (mk_datetime 2021 6 15 12 0 0 0
                     + Z.of_nat j
                       * divide_and_round
                           (end_ - mk_datetime 2021 6 15 12 0 0 0) 2)))
    /\ (mk_datetime 2021 6 15 12 0 0 0 < end_ ->
        2 * (2 - 1) < 2 * (end_ - mk_datetime 2021 6 15 12 0 0 0) ->
        mk_datetime 2021 6 15 12 0 0 0
        + (2 - 1) * divide_and_round (end_ - mk_datetime 2021 6 15 12 0 0 0) 2
        < end_).
Proof.
  exact (@C7_interpolation (data round_trip_final)
           [mk_datum 100000 200000 500 (Some 63759441600000000);
            mk_datum 100010 200010 520 (Some 63759441600500000)]
           0
           (mk_row (Some (mk_datetime 2021 6 15 12 0 0 0))
                   (Some [mk_datum 100000 200000 500 None;
                          mk_datum 100010 200010 520 None]))
           (mk_datetime 2021 6 15 12 0 0 0)
           [mk_datum 100000 200000 500 None; mk_datum 100010 200010 520 None]
           ltac:(vm_compute; reflexivity) ltac:(vm_compute; reflexivity)
           ltac:(reflexivity) ltac:(reflexivity)).
Defined.

(** ** The serializer *)



Lemma day_of_seconds t : t / us_per_day = t / us_per_second / 86400.
Proof.
  unfold us_per_day. rewrite Z.mul_comm.
  rewrite Z.div_div by (unfold us_per_second; lia). reflexivity.
Qed.

Lemma second_of_day t :
  t mod us_per_day / us_per_second = (t / us_per_second) mod 86400.
Proof.
  unfold us_per_day. rewrite Z.mul_comm.
  rewrite Z.rem_mul_r by (unfold us_per_second; lia).
  rewrite Z.mul_comm, Z.div_add by (unfold us_per_second; lia).
  rewrite Z.div_small by (apply Z.mod_pos_bound; unfold us_per_second; lia).
  reflexivity.
Qed.


Lemma print_points_spec float_str : forall points,
    Forall (fun p => point_timestamp p <> None) points ->
    print_points float_str points
    = (map (fun p => trkpt_text (float_str (longitude p)) (float_str (latitude p))
                       (match point_timestamp p with
                        | Some t => strftime_iso t
                        | None => EmptyString
                        end)) points, None).
Proof.
  induction points as [|p points IH]; intro Hf; [reflexivity|].
  inversion Hf as [|? ? Hp Hps]; subst. simpl.
  unfold trkpt at 1. destruct (point_timestamp p) as [t|]; [|congruence].
  simpl. rewrite (IH Hps). reflexivity.
Qed.



(* ================================================================== *)
(** * Further properties of the parser and of the interpolation *)

(** ** Progress of the loop *)

Lemma passes_left : forall n st st',
    passes n st = Some st' -> (bytes_left st' + 8 * n <= bytes_left st)%nat.
Proof.
  induction n as [|n IH]; simpl; intros st st' H.
  - injection H as <-. lia.
  - destruct (iteration st) as [|st1|e] eqn:E; try discriminate H.
    apply iteration_left in E. apply IH in H. lia.
Qed.

Lemma passes_exhaust : forall fuel st r,
    while_loop fuel st = Some r ->
    exists n st', passes n st = Some st' /\ forall st'', iteration st' <> Next st''.
Proof.
  induction fuel as [|fuel IH]; simpl; intros st r H; [discriminate H|].
  destruct (iteration st) as [|st1|e] eqn:E.
  - exists 0%nat, st. split; [reflexivity|]. intros st'' H'. congruence.
  - destruct (IH _ _ H) as (n & st' & Hp & Hn).
    exists (S n), st'. split; [simpl; now rewrite E | exact Hn].
  - exists 0%nat, st. split; [reflexivity|]. intros st'' H'. congruence.
Qed.

(** X1. Every pass that comes back to the head of [while True] has read eight
    bytes or more, so on a source of [len] bytes the loop is left, by
    [break] or by an exception, after at most [len / 8] such passes. *)
Theorem loop_leaves_within_len_over_8 (io : bytesio) :
  exists n st,
    passes n (initial io) = Some st
    /\ (8 * n <= List.length (remaining io))%nat
    /\ forall st', iteration st <> Next st'.
Proof.
  destruct (parse_terminates io) as [r Hr]. unfold parse in Hr.
  destruct (passes_exhaust _ _ Hr) as (n & st & Hp & Hn).
  exists n, st. split; [exact Hp|]. split; [|exact Hn].
  apply passes_left in Hp. unfold bytes_left in Hp. simpl in Hp. lia.
Qed.

(** ** Finalized sessions are kept *)

Lemma value_body_data_grows ls vs dl st st' :
  value_body ls vs dl st = Ok st' -> exists l, data st' = data st ++ l.
Proof.
  destruct (contains "GPSU" ls) eqn:HU.
  - unfold value_body. intro H. bind_inv H. injection H as <-.
    change (data (with_okay_to_record a (gate (gps_fix a) (gps_accuracy a))))
      with (data a).
    destruct (contains "GPS5" ls).
    { unfold gps5_value in Ha. destruct (negb _); [discriminate Ha|].
      unfold read_st, read in Ha; simpl in Ha.
      bind_inv Ha. destruct a0 as [[[[lat lon] alt] speed] speed3d].
      destruct (okay_to_record st); simpl in Ha.
      - repeat bind_inv Ha. injection Ha as <-. exists []. now rewrite app_nil_r.
      - injection Ha as <-. exists []. now rewrite app_nil_r. }
    rewrite HU in Ha. unfold gpsu_value in Ha. bind_inv Ha.
    unfold read_st, read in Ha; simpl in Ha.
    bind_inv Ha. injection Ha as <-.
    destruct a0; simpl.
    + exists [current_data st]. reflexivity.
    + exists []. now rewrite app_nil_r.
  - intro H. rewrite (value_body_data _ _ _ _ HU H).
    exists []. now rewrite app_nil_r.
Qed.

(** X2. The list of finalized sessions only grows at its end: no pass of the
    loop removes, reorders or changes a session that is already in [data]. *)
Theorem data_only_grows (st st' : parser) :
  steps st st' -> exists l, data st' = data st ++ l.
Proof.
  apply (@steps_rel (fun a b => exists l, data b = data a ++ l)).
  - intro a. exists []. now rewrite app_nil_r.
  - intros a b c [l1 H1] [l2 H2]. exists (l1 ++ l2).
    rewrite H2, H1. now rewrite app_assoc.
  - intros a b Hit. revert Hit.
    apply (@iteration_rel (fun a b => exists l, data b = data a ++ l)
             (fun _ => True)); auto.
    + intro x. exists []. now rewrite app_nil_r.
    + intros x y z [l1 H1] [l2 H2]. exists (l1 ++ l2).
      rewrite H2, H1. now rewrite app_assoc.
    + intros n x. exists []. now rewrite app_nil_r.
    + intros x sc. exists []. now rewrite app_nil_r.
    + intros ls vs dl x y _ Hv. eapply value_body_data_grows; eauto.
Qed.

Lemma data_only_grows_witness :
  steps (initial (BytesIO round_trip_stream)) round_trip_final
  /\ exists l, data round_trip_final
               = data (initial (BytesIO round_trip_stream)) ++ l.
Proof.
  assert (H : steps (initial (BytesIO round_trip_stream)) round_trip_final)
    by (apply (@passes_steps 6); vm_compute; reflexivity).
  split; [exact H|]. exact (data_only_grows H).
Defined.

(** ** Registers persist across unrelated records *)

Lemma value_body_scales_current ls vs dl st st' :
  value_body ls vs dl st = Ok st' ->
  scales st' = scales st
  /\ (contains "GPS5" ls = false -> contains "GPSU" ls = false ->
      current_data st' = current_data st).
Proof.
  unfold value_body. intro H. bind_inv H. injection H as <-.
  change (scales (with_okay_to_record a (gate (gps_fix a) (gps_accuracy a))))
    with (scales a).
  change (current_data (with_okay_to_record a (gate (gps_fix a) (gps_accuracy a))))
    with (current_data a).
  destruct (contains "GPS5" ls).
  { unfold gps5_value in Ha. destruct (negb _); [discriminate Ha|].
    unfold read_st, read in Ha; simpl in Ha.
    bind_inv Ha. destruct a0 as [[[[lat lon] alt] speed] speed3d].
    destruct (okay_to_record st); simpl in Ha.
    - repeat bind_inv Ha. injection Ha as <-. split; [reflexivity|].
      intro H'; discriminate H'.
    - injection Ha as <-. split; [reflexivity|]. intro H'; discriminate H'. }
  destruct (contains "GPSU" ls).
  { unfold gpsu_value in Ha. bind_inv Ha.
    unfold read_st, read in Ha; simpl in Ha.
    bind_inv Ha. injection Ha as <-. split; [destruct a0; reflexivity|].
    intros _ H'; discriminate H'. }
  destruct (contains "GPSF" ls).
  { unfold gpsf_value, read_st, read in Ha; simpl in Ha.
    bind_inv Ha. injection Ha as <-. split; reflexivity. }
  destruct (contains "GPSP" ls).
  { unfold gpsp_value, read_st, read in Ha; simpl in Ha.
    bind_inv Ha. injection Ha as <-. split; reflexivity. }
  injection Ha as <-. split; reflexivity.
Qed.

Lemma fix_after_other ls vs st f :
  contains "GPSF" ls = false -> fix_after ls vs st f = f.
Proof.
  unfold fix_after. intros ->. now destruct (_ || _).
Qed.

Lemma accuracy_after_other ls vs st a :
  contains "GPSP" ls = false -> accuracy_after ls vs st a = a.
Proof.
  unfold accuracy_after. intros ->. now destruct (_ || _).
Qed.

(** X3. A pass of the loop assigns [scales] only for a label holding [SCAL],
    [gps_fix] only for one holding [GPSF], [gps_accuracy] only for one
    holding [GPSP], and [current_data] only for one holding [GPS5] or
    [GPSU]: the scale table, the fix state and the open session live on
    through every other record. *)
Theorem registers_persist (st st' : parser) :
  iteration st = Next st' ->
  (contains "SCAL" (next_label st) = false -> scales st' = scales st)
  /\ (contains "GPSF" (next_label st) = false -> gps_fix st' = gps_fix st)
  /\ (contains "GPSP" (next_label st) = false ->
      gps_accuracy st' = gps_accuracy st)
  /\ (contains "GPS5" (next_label st) = false ->
      contains "GPSU" (next_label st) = false ->
      current_data st' = current_data st).
Proof.
  intro Hit. split; [|split; [|split]].
  - intro HS. rewrite iteration_unfold in Hit.
    destruct (header_at st) as [[[[ty d1] d2] d3]|]; [|discriminate Hit].
    unfold record_body in Hit. rewrite HS in Hit.
    destruct (byte_val ty =? 0); [injection Hit as <-; reflexivity|].
    destruct (contains "EMPT" _); [injection Hit as <-; reflexivity|].
    destruct (values_loop _ _ _ _ _) as [st3|] eqn:E3; [|discriminate Hit].
    injection Hit as <-.
    assert (H3 : scales st3 = scales st).
    { refine (@values_loop_rel (fun a b => scales b = scales a) (fun _ => True)
                _ _ _ _ _ _ _ _ _ I E3); auto.
      - intros a b c H1 H2. congruence.
      - intros ls vs dl a b _ Hv.
        apply (proj1 (value_body_scales_current _ _ _ _ Hv)). }
    unfold skip_padding. cbv zeta. destruct (_ mod 4 =? 0); exact H3.
  - intro HF. revert Hit.
    apply (@iteration_rel (fun a b => gps_fix b = gps_fix a)
             (fun ls => contains "GPSF" ls = false)); auto.
    + intros a b c H1 H2. congruence.
    + intros ls vs dl a b Hq Hv.
      destruct (value_body_fix_accuracy _ _ _ _ Hv) as (H1 & _).
      rewrite H1. now apply fix_after_other.
  - intro HP. revert Hit.
    apply (@iteration_rel (fun a b => gps_accuracy b = gps_accuracy a)
             (fun ls => contains "GPSP" ls = false)); auto.
    + intros a b c H1 H2. congruence.
    + intros ls vs dl a b Hq Hv.
      destruct (value_body_fix_accuracy _ _ _ _ Hv) as (_ & H1 & _).
      rewrite H1. now apply accuracy_after_other.
  - intros H5 HU. revert Hit.
    apply (@iteration_rel (fun a b => current_data b = current_data a)
             (fun ls => contains "GPS5" ls = false /\ contains "GPSU" ls = false));
      auto.
    + intros a b c H1 H2. congruence.
    + intros ls vs dl a b [Hq5 HqU] Hv.
      apply (proj2 (value_body_scales_current _ _ _ _ Hv)); assumption.
Qed.

Lemma registers_persist_witness :
  iteration fix_accuracy_mid = Next fix_accuracy_final
  /\ scales fix_accuracy_final = [1; 1; 1; 1]
  /\ gps_fix fix_accuracy_final = 3.
Proof.
  assert (Hit : iteration fix_accuracy_mid = Next fix_accuracy_final)
    by (vm_compute; reflexivity).
  split; [exact Hit|].
  destruct (@registers_persist fix_accuracy_mid fix_accuracy_final Hit)
    as (HS & HF & _).
  split.
  - rewrite (HS ltac:(vm_compute; reflexivity)). reflexivity.
  - rewrite (HF ltac:(vm_compute; reflexivity)). reflexivity.
Defined.

(** ** The interpolation keeps the samples *)

Lemma stamp_points start step_ : forall l j out,
    stamp start step_ j l = Ok out ->
    map drop_timestamp out = map drop_timestamp l
    /\ Forall (fun p => point_timestamp p <> None) out.
Proof.
  induction l as [|g l IH]; simpl; intros j out H.
  - injection H as <-. split; [reflexivity | constructor].
  - bind_inv H. bind_inv H. injection H as <-.
    destruct (IH _ _ Ha0) as [Hm Hf]. split.
    + simpl. rewrite Hm. reflexivity.
    + constructor; [discriminate | exact Hf].
Qed.

Lemma stamp_row_points data i r out :
  stamp_row data i r = Ok out ->
  map drop_timestamp out = map drop_timestamp (samples_of r)
  /\ Forall (fun p => point_timestamp p <> None) out.
Proof.
  intro H. unfold stamp_row in H. bind_inv H. bind_inv H. bind_inv H.
  bind_inv H. unfold samples_of. destruct (gps_data r); [|discriminate Ha1].
  injection Ha1 as <-. eapply stamp_points; eauto.
Qed.

Lemma stamp_rows_points data : forall rows index pts,
    stamp_rows data index rows = Ok pts ->
    map drop_timestamp pts = map drop_timestamp (all_samples rows)
    /\ Forall (fun p => point_timestamp p <> None) pts.
Proof.
  induction rows as [|r rows IH]; simpl; intros index pts H.
  - injection H as <-. split; [reflexivity | constructor].
  - bind_inv H. bind_inv H. injection H as <-.
    destruct (stamp_row_points _ _ _ Ha) as [Hm1 Hf1].
    destruct (IH _ _ Ha0) as [Hm2 Hf2]. split.
    + unfold all_samples in *. simpl. rewrite !map_app, Hm1, Hm2. reflexivity.
    + apply Forall_app. split; assumption.
Qed.

(** X4. When the timestamps loop returns, its points are the samples of the
    sessions, all of them, in session-then-sample order, with the latitude,
    longitude and speed they had; each has received a timestamp. *)
Theorem interpolation_keeps_samples (data : list row) (pts : list gps_datum) :
  interpolate data = Ok pts ->
  map drop_timestamp pts = map drop_timestamp (all_samples data)
  /\ List.length pts = List.length (all_samples data)
  /\ Forall (fun p => point_timestamp p <> None) pts.
Proof.
  intro H. destruct (stamp_rows_points _ _ _ H) as [Hm Hf].
  split; [exact Hm|]. split; [|exact Hf].
  apply (f_equal (@List.length _)) in Hm. now rewrite !length_map in Hm.
Qed.

Lemma interpolation_keeps_samples_witness :
  interpolate (data round_trip_final)
  = Ok [mk_datum 100000 200000 500 (Some 63759441600000000);
        mk_datum 100010 200010 520 (Some 63759441600500000)]
  /\ map drop_timestamp
       [mk_datum 100000 200000 500 (Some 63759441600000000);
        mk_datum 100010 200010 520 (Some 63759441600500000)]
     = map drop_timestamp (all_samples (data round_trip_final)).
Proof.
  assert (H : interpolate (data round_trip_final)
              = Ok [mk_datum 100000 200000 500 (Some 63759441600000000);
                    mk_datum 100010 200010 520 (Some 63759441600500000)])
    by (vm_compute; reflexivity).
  split; [exact H|].
  exact (proj1 (@interpolation_keeps_samples _ _ H)).
Defined.

(** ** The points of the parser go through the serializer *)

(** X5. Whatever [gopro_binary_to_csv] returns, [make_gpx] prints in full: the
    header, one text per point and the footer, without an exception. *)
Theorem output_serializes (io : bytesio) (pts : list gps_datum)
    (float_str : float -> string) :
  gopro_binary_to_csv io = Some (Ok pts) ->
  make_gpx float_str pts
  = (gpx_header :: map (trkpt_line float_str) pts ++ [gpx_footer], None).
Proof.
  unfold gopro_binary_to_csv. intro H.
  destruct (parse io) as [[st|e]|]; try discriminate H.
  injection H as H. apply stamp_rows_points in H.
  destruct H as (_ & Hf).
  unfold make_gpx. rewrite (print_points_spec float_str Hf). reflexivity.
Qed.

Lemma output_serializes_witness :
  make_gpx (fun _ => "x"%string)
    [mk_datum 100000 200000 500 (Some 63759441600000000);
     mk_datum 100010 200010 520 (Some 63759441600500000)]
  = (gpx_header
       :: map (trkpt_line (fun _ => "x"%string))
            [mk_datum 100000 200000 500 (Some 63759441600000000);
             mk_datum 100010 200010 520 (Some 63759441600500000)]
       ++ [gpx_footer], None).
Proof.
  apply (@output_serializes (BytesIO round_trip_stream)).
  vm_compute. reflexivity.
Defined.

(** ** A point without a timestamp stops the serializer *)

(** X6. [make_gpx] on a list whose first point without a [timestamp] key comes
    after the points [good]: the header and the texts of [good] are printed,
    then [KeyError] is raised; the footer is not printed. *)
Theorem make_gpx_missing_timestamp (float_str : float -> string)
    (good rest : list gps_datum) (p : gps_datum) :
  Forall (fun q => point_timestamp q <> None) good ->
  point_timestamp p = None ->
  make_gpx float_str (good ++ p :: rest)
  = (gpx_header :: map (trkpt_line float_str) good, Some KeyError).
Proof.
  intros Hg Hp. unfold make_gpx.
  assert (H : print_points float_str (good ++ p :: rest)
              = (map (trkpt_line float_str) good, Some KeyError)).
  { induction Hg as [|q good Hq Hgood IH]; simpl.
    - unfold trkpt. rewrite Hp. reflexivity.
    - unfold trkpt at 1. destruct (point_timestamp q) as [t|] eqn:Et;
        [|congruence].
      simpl. rewrite IH. unfold trkpt_line at 2. rewrite Et. reflexivity. }
  rewrite H. reflexivity.
Qed.

Lemma make_gpx_missing_timestamp_witness :
  make_gpx (fun _ => "x"%string)
    ([mk_datum 1 2 3 (Some 63759441600000000)] ++ mk_datum 4 5 6 None :: [])
  = (gpx_header
       :: map (trkpt_line (fun _ => "x"%string))
            [mk_datum 1 2 3 (Some 63759441600000000)], Some KeyError).
Proof.
  apply make_gpx_missing_timestamp.
  - repeat constructor. discriminate.
  - reflexivity.
Defined.

(** ** Scale records *)

Lemma scal_loop_spec vs : forall n st,
    vs = 2 \/ vs = 4 ->
    (n * Z.to_nat vs <= bytes_left st)%nat ->
    exists st',
      scal_loop n vs st = Ok st'
      /\ scales st'
         = scales st ++ scale_values n (Z.to_nat vs) (remaining (gopro_binary st))
      /\ remaining (gopro_binary st')
         = skipn (n * Z.to_nat vs) (remaining (gopro_binary st))
      /\ gps_fix st' = gps_fix st /\ gps_accuracy st' = gps_accuracy st
      /\ okay_to_record st' = okay_to_record st
      /\ data st' = data st /\ current_data st' = current_data st.
Proof.
  intros n st Hvs. revert st. induction n as [|n IH]; intros st Hlen.
  - exists st. simpl. rewrite app_nil_r. repeat split; reflexivity.
  - simpl scal_loop.
    assert (Hb : scal_body vs st
                 = Ok (with_scales (snd (read_st vs st))
                         (scales st ++ [be_uint (fst (read_st vs st))]))).
    { unfold scal_body.
      assert (Hl : List.length (fst (read_st vs st)) = Z.to_nat vs).
      { rewrite read_st_fst_length. simpl in Hlen. lia. }
      destruct Hvs as [-> | ->].
      - change (2 =? 2) with true. cbv iota.
        unfold read_st at 1, read at 1. cbv beta iota. unfold unpack_H.
        assert (Hq : Nat.eqb (List.length (firstn (Z.to_nat 2)
                                             (remaining (gopro_binary st)))) 2
                     = true)
          by (change (firstn (Z.to_nat 2) (remaining (gopro_binary st)))
                with (fst (read_st 2 st)); rewrite Hl; reflexivity).
        rewrite Hq. reflexivity.
      - change (4 =? 2) with false. change (4 =? 4) with true. cbv iota.
        unfold read_st at 1, read at 1. cbv beta iota. unfold unpack_I.
        assert (Hq : Nat.eqb (List.length (firstn (Z.to_nat 4)
                                             (remaining (gopro_binary st)))) 4
                     = true)
          by (change (firstn (Z.to_nat 4) (remaining (gopro_binary st)))
                with (fst (read_st 4 st)); rewrite Hl; reflexivity).
        rewrite Hq. reflexivity. }
    rewrite Hb. cbv beta iota delta [bind].
    set (st1 := with_scales (snd (read_st vs st))
                  (scales st ++ [be_uint (fst (read_st vs st))])).
    assert (L1 : bytes_left st1 = (bytes_left st - Z.to_nat vs)%nat)
      by apply read_st_left.
    destruct (IH st1 ltac:(simpl in Hlen; lia))
      as (st' & E & Hs & Hr & Hf & Ha & Ho & Hd & Hc).
    exists st'. split; [exact E|].
    split.
    { rewrite Hs. unfold st1. simpl scales. rewrite <- app_assoc. reflexivity. }
    split.
    { rewrite Hr. unfold st1.
      change (remaining (gopro_binary (with_scales ?x ?y)))
        with (remaining (gopro_binary x)).
      rewrite read_st_remaining, skipn_skipn. f_equal. simpl. lia. }
    repeat split; assumption.
Qed.

(** X7. A SCAL record with a value size of 2 or 4 whose payload is in the
    source replaces the scale table by the values of the payload, as many
    as its count says, in order; the fix state and the sessions are left as
    they were. *)
Theorem scal_record_replaces_scales (st : parser) (ty : byte) (d1 d2 d3 : Z) :
  header_at st = Ok (ty, d1, d2, d3) ->
  byte_val ty <> 0 ->
  contains "EMPT" (next_label st) = false ->
  contains "SCAL" (next_label st) = true ->
  d1 = 2 \/ d1 = 4 ->
  8 + d1 * Z.lor (Z.shiftl d2 8) d3 <= Z.of_nat (bytes_left st) ->
  exists st',
    iteration st = Next st'
    /\ scales st'
       = scale_values (Z.to_nat (Z.lor (Z.shiftl d2 8) d3)) (Z.to_nat d1)
           (skipn 8 (remaining (gopro_binary st)))
    /\ gps_fix st' = gps_fix st /\ gps_accuracy st' = gps_accuracy st
    /\ okay_to_record st' = okay_to_record st
    /\ data st' = data st /\ current_data st' = current_data st.
Proof.
  intros Hh Hty HE HS Hvs Hlen.
  destruct (header_at_range _ Hh) as (R1 & R2 & R3).
  pose proof (@num_values_nonneg d2 d3 ltac:(lia) ltac:(lia)) as Hn.
  assert (Hty' : (byte_val ty =? 0) = false) by (apply Z.eqb_neq; exact Hty).
  rewrite iteration_unfold, Hh. unfold record_body. rewrite Hty', HE, HS.
  set (n := Z.lor (Z.shiftl d2 8) d3) in *.
  set (st2 := snd (read_st 4 (snd (read_st 4 st)))).
  assert (L2 : bytes_left st2 = (bytes_left st - 8)%nat).
  { unfold st2. rewrite !read_st_left. simpl. lia. }
  destruct (@scal_loop_spec d1 (Z.to_nat n) (with_scales st2 []) Hvs)
    as (st3 & E & Hs & _ & Hf & Ha & Ho & Hd & Hc).
  { change (bytes_left (with_scales st2 [])) with (bytes_left st2).
    rewrite L2, <- Z2Nat.inj_mul by lia. lia. }
  rewrite E. eexists. split; [reflexivity|].
  assert (Hp : forall x, scales (skip_padding (d1 * n) x) = scales x
                         /\ gps_fix (skip_padding (d1 * n) x) = gps_fix x
                         /\ gps_accuracy (skip_padding (d1 * n) x) = gps_accuracy x
                         /\ okay_to_record (skip_padding (d1 * n) x) = okay_to_record x
                         /\ data (skip_padding (d1 * n) x) = data x
                         /\ current_data (skip_padding (d1 * n) x) = current_data x).
  { intro x. unfold skip_padding. cbv zeta.
    destruct (_ mod 4 =? 0); repeat split; reflexivity. }
  destruct (Hp st3) as (P1 & P2 & P3 & P4 & P5 & P6).
  change (scales (with_scales st2 [])) with (@nil Z) in Hs.
  change (remaining (gopro_binary (with_scales st2 [])))
    with (remaining (gopro_binary (snd (read_st 4 (snd (read_st 4 st)))))) in Hs.
  rewrite skipn_read_read in Hs.
  rewrite P1, P2, P3, P4, P5, P6, Hs, Hf, Ha, Ho, Hd, Hc.
  split; [reflexivity|]. repeat split; reflexivity.
Qed.

Lemma scal_record_replaces_scales_witness :
  exists st',
    iteration (initial (BytesIO three_scales_stream)) = Next st'
    /\ scales st' = [9; 9; 9].
Proof.
  destruct (@scal_record_replaces_scales (initial (BytesIO three_scales_stream))
              "s"%byte 2 0 3
              ltac:(vm_compute; reflexivity) ltac:(vm_compute; discriminate)
              ltac:(vm_compute; reflexivity) ltac:(vm_compute; reflexivity)
              ltac:(left; reflexivity) ltac:(vm_compute; discriminate))
    as (st' & Hit & Hs & _).
  exists st'. split; [exact Hit|]. rewrite Hs. vm_compute. reflexivity.
Defined.

(** ** Malformed value sizes *)

(** X8. A SCAL record with one value or more whose value size is neither 2 nor
    4, and a GPS5 record with one value or more whose value size is not 20,
    end the function with the exception of lines 74 and 80, whether the gate
    is open or not and whatever the payload. *)
Theorem malformed_value_sizes_are_fatal (st : parser) (ty : byte) (d1 d2 d3 : Z) :
  header_at st = Ok (ty, d1, d2, d3) ->
  byte_val ty <> 0 ->
  contains "EMPT" (next_label st) = false ->
  1 <= Z.lor (Z.shiftl d2 8) d3 ->
  (contains "SCAL" (next_label st) = true -> d1 <> 2 -> d1 <> 4 ->
   iteration st = Fatal PyException)
  /\ (contains "SCAL" (next_label st) = false ->
      contains "GPS5" (next_label st) = true -> d1 <> 20 ->
      iteration st = Fatal PyException).
Proof.
  intros Hh Hty HE Hn.
  assert (Hty' : (byte_val ty =? 0) = false) by (apply Z.eqb_neq; exact Hty).
  destruct (Z.to_nat (Z.lor (Z.shiftl d2 8) d3)) as [|m] eqn:Em; [lia|].
  split.
  - intros HS H2 H4. rewrite iteration_unfold, Hh. unfold record_body.
    rewrite Hty', HE, HS, Em. simpl scal_loop. unfold scal_body.
    apply Z.eqb_neq in H2, H4. rewrite H2, H4. reflexivity.
  - intros HS H5 H20. rewrite iteration_unfold, Hh. unfold record_body.
    rewrite Hty', HE, HS, Em. simpl values_loop. unfold value_body.
    rewrite H5. unfold gps5_value.
    apply Z.eqb_neq in H20. rewrite H20. reflexivity.
Qed.

Lemma malformed_value_sizes_are_fatal_witness :
  iteration (initial (BytesIO (header "SCAL" "b" 1 4 ++ be 4 1)))
  = Fatal PyException
  /\ iteration (initial (BytesIO (header "GPS5" "l" 16 1 ++ spaces 16)))
     = Fatal PyException.
Proof.
  split.
  - apply (proj1 (@malformed_value_sizes_are_fatal
                    (initial (BytesIO (header "SCAL" "b" 1 4 ++ be 4 1)))
                    "b"%byte 1 0 4
                    ltac:(vm_compute; reflexivity) ltac:(vm_compute; discriminate)
                    ltac:(vm_compute; reflexivity) ltac:(vm_compute; discriminate)));
      [vm_compute; reflexivity | lia | lia].
  - apply (proj2 (@malformed_value_sizes_are_fatal
                    (initial (BytesIO (header "GPS5" "l" 16 1 ++ spaces 16)))
                    "l"%byte 16 0 1
                    ltac:(vm_compute; reflexivity) ltac:(vm_compute; discriminate)
                    ltac:(vm_compute; reflexivity) ltac:(vm_compute; discriminate)));
      [vm_compute; reflexivity | vm_compute; reflexivity | lia].
Defined.

(** ** A scale table that does not fit the GPS5 values *)

Lemma scaled_nonzero raw sc i :
  Forall (fun z => z <> 0) sc ->
  (i < List.length sc)%nat -> exists x, scaled raw sc i = Ok x.
Proof.
  intros Hf Hi. unfold scaled, list_index.
  destruct (nth_error sc i) as [z|] eqn:E.
  - simpl. assert (Hz : z <> 0).
    { rewrite Forall_forall in Hf. apply Hf. eapply nth_error_In; eauto. }
    apply Z.eqb_neq in Hz. rewrite Hz. eexists; reflexivity.
  - apply nth_error_None in E. lia.
Qed.

Lemma scaled_out_of_range raw sc i :
  (List.length sc <= i)%nat -> scaled raw sc i = Raise IndexError.
Proof.
  intro Hi. unfold scaled, list_index.
  apply nth_error_None in Hi. rewrite Hi. reflexivity.
Qed.

(** X9. A GPS5 value read in full while the gate is open uses [scales[0]],
    [scales[1]] and [scales[3]]: with a scale table of fewer than four
    values, none of them zero -- as a SCAL record with a count of 1 or 3
    leaves it -- the value body raises [IndexError]. *)
Theorem short_scale_table_is_fatal (st : parser) (ls : string) (dl : Z) :
  contains "GPS5" ls = true ->
  okay_to_record st = true ->
  (20 <= bytes_left st)%nat ->
  (List.length (scales st) < 4)%nat ->
  Forall (fun z => z <> 0) (scales st) ->
  value_body ls 20 dl st = Raise IndexError.
Proof.
  intros H5 Ho Hlen Hsc Hnz. unfold value_body. rewrite H5.
  unfold gps5_value. change (negb (20 =? 20)) with false. cbv iota.
  unfold read_st at 1, read at 1. cbv beta iota.
  unfold unpack_iiiii.
  assert (Hq : Nat.eqb (List.length (firstn (Z.to_nat 20)
                                       (remaining (gopro_binary st)))) 20 = true).
  { rewrite length_firstn. unfold bytes_left in Hlen.
    apply Nat.eqb_eq. change (Z.to_nat 20) with 20%nat. lia. }
  rewrite Hq. cbv beta iota delta [bind].
  change (okay_to_record (with_io st ?x)) with (okay_to_record st).
  change (scales (with_io st ?x)) with (scales st).
  rewrite Ho.
  set (b := firstn (Z.to_nat 20) (remaining (gopro_binary st))).
  destruct (Nat.le_gt_cases (List.length (scales st)) 0) as [L0|L0].
  { rewrite (@scaled_out_of_range _ (scales st) 0 L0). reflexivity. }
  destruct (@scaled_nonzero (be_int32 (firstn 4 b)) (scales st) 0 Hnz L0)
    as [x0 ->].
  destruct (Nat.le_gt_cases (List.length (scales st)) 1) as [L1|L1].
  { rewrite (@scaled_out_of_range _ (scales st) 1 L1). reflexivity. }
  destruct (@scaled_nonzero (be_int32 (firstn 4 (skipn 4 b))) (scales st) 1 Hnz L1)
    as [x1 ->].
  rewrite (@scaled_out_of_range _ (scales st) 3 ltac:(lia)). reflexivity.
Qed.

Lemma short_scale_table_is_fatal_witness :
  scales three_scales_at_gps5 = [9; 9; 9]
  /\ value_body "b'GPS5'" 20 20 three_scales_at_gps5 = Raise IndexError
  /\ gopro_binary_to_csv (BytesIO three_scales_stream) = Some (Raise IndexError).
Proof.
  split; [reflexivity|]. split; [|vm_compute; reflexivity].
  apply short_scale_table_is_fatal.
  - vm_compute. reflexivity.
  - vm_compute. reflexivity.
  - vm_compute. lia.
  - vm_compute. lia.
  - vm_compute. repeat constructor; discriminate.
Defined.

Lemma scaled_zero raw sc i :
  nth_error sc i = Some 0 -> scaled raw sc i = Raise ZeroDivisionError.
Proof.
  intro H. unfold scaled, list_index. rewrite H. reflexivity.
Qed.

Lemma scaled_some raw sc i z :
  nth_error sc i = Some z -> z <> 0 -> exists x, scaled raw sc i = Ok x.
Proof.
  intros H Hz. unfold scaled, list_index. rewrite H. simpl.
  apply Z.eqb_neq in Hz. rewrite Hz. eexists; reflexivity.
Qed.

(** X10. With four scales or more, one of which among [scales[0]], [scales[1]]
    and [scales[3]] is zero, a GPS5 value read in full while the gate is
    open raises [ZeroDivisionError]. *)
Theorem zero_scale_is_fatal (st : parser) (ls : string) (dl : Z) (s0 s1 s3 : Z) :
  contains "GPS5" ls = true ->
  okay_to_record st = true ->
  (20 <= bytes_left st)%nat ->
  nth_error (scales st) 0 = Some s0 ->
  nth_error (scales st) 1 = Some s1 ->
  nth_error (scales st) 3 = Some s3 ->
  s0 = 0 \/ s1 = 0 \/ s3 = 0 ->
  value_body ls 20 dl st = Raise ZeroDivisionError.
Proof.
  intros H5 Ho Hlen H0 H1 H3 Hz. unfold value_body. rewrite H5.
  unfold gps5_value. change (negb (20 =? 20)) with false. cbv iota.
  unfold read_st at 1, read at 1. cbv beta iota.
  unfold unpack_iiiii.
  assert (Hq : Nat.eqb (List.length (firstn (Z.to_nat 20)
                                       (remaining (gopro_binary st)))) 20 = true).
  { rewrite length_firstn. unfold bytes_left in Hlen.
    apply Nat.eqb_eq. change (Z.to_nat 20) with 20%nat. lia. }
  rewrite Hq. cbv beta iota delta [bind].
  change (okay_to_record (with_io st ?x)) with (okay_to_record st).
  change (scales (with_io st ?x)) with (scales st).
  rewrite Ho.
  set (b := firstn (Z.to_nat 20) (remaining (gopro_binary st))).
  destruct (Z.eq_dec s0 0) as [E0|E0].
  { subst s0. rewrite (@scaled_zero _ (scales st) 0 H0). reflexivity. }
  destruct (@scaled_some (be_int32 (firstn 4 b)) (scales st) 0 s0 H0 E0) as [x0 ->].
  destruct (Z.eq_dec s1 0) as [E1|E1].
  { subst s1. rewrite (@scaled_zero _ (scales st) 1 H1). reflexivity. }
  destruct (@scaled_some (be_int32 (firstn 4 (skipn 4 b))) (scales st) 1 s1 H1 E1)
    as [x1 ->].
  assert (s3 = 0) by (destruct Hz as [?|[?|?]]; congruence). subst s3.
  rewrite (@scaled_zero _ (scales st) 3 H3). reflexivity.
Qed.

Lemma zero_scale_is_fatal_witness :
  value_body "b'GPS5'" 20 20
    (with_scales round_trip_at_gps5 [100; 100; 1; 0])
  = Raise ZeroDivisionError.
Proof.
  apply (@zero_scale_is_fatal (with_scales round_trip_at_gps5 [100; 100; 1; 0])
           "b'GPS5'" 20 100 100 0).
  - vm_compute. reflexivity.
  - vm_compute. reflexivity.
  - vm_compute. lia.
  - reflexivity.
  - reflexivity.
  - reflexivity.
  - right. right. reflexivity.
Defined.

(** ** The script *)

(** X11. With two command-line arguments or more after the script name, the
    script prints that it processes the first video and ends in [NameError]
    on the name [VIDEO] (line 175): no video is read and no output file is
    opened.  With fewer it prints the usage line and exits with status 1. *)
Theorem script_never_writes (float_str : float -> string) (argv : list string) :
  ((3 <= List.length argv)%nat ->
   main float_str argv
   = ([("Processing " ++ nth 1 argv EmptyString)%string], NameError "VIDEO"))
  /\ ((0 < List.length argv < 3)%nat ->
      main float_str argv
      = ([("Usage: " ++ nth 0 argv EmptyString
           ++ " <video> [video...] output.gpx")%string], SystemExit 1))
  /\ forall path out, snd (main float_str argv) <> Written path out.
Proof.
  assert (H3 : (3 <= List.length argv)%nat ->
               main float_str argv
               = ([("Processing " ++ nth 1 argv EmptyString)%string],
                  NameError "VIDEO")).
  { intro H. unfold main.
    destruct (Nat.ltb_spec (List.length argv) 3) as [L|L]; [lia|].
    destruct argv as [|a0 [|a1 [|a2 argv]]]; simpl in H; try lia.
    reflexivity. }
  assert (H2 : (0 < List.length argv < 3)%nat ->
               main float_str argv
               = ([("Usage: " ++ nth 0 argv EmptyString
                    ++ " <video> [video...] output.gpx")%string], SystemExit 1)).
  { intro H. unfold main.
    destruct (Nat.ltb_spec (List.length argv) 3) as [L|L]; [|lia].
    destruct argv as [|a0 argv]; simpl in H; [lia|]. reflexivity. }
  split; [exact H3|]. split; [exact H2|].
  intros path out.
  destruct (Nat.le_gt_cases 3 (List.length argv)) as [L|L].
  - rewrite (H3 L). discriminate.
  - destruct argv as [|a0 argv].
    + discriminate.
    + rewrite H2 by (simpl in *; lia). discriminate.
Qed.

Lemma script_never_writes_witness :
  main (fun _ => "x"%string) ["gopro2gpx.py"; "a.mp4"; "b.mp4"; "out.gpx"]%string
  = (["Processing a.mp4"%string], NameError "VIDEO")
  /\ main (fun _ => "x"%string) ["gopro2gpx.py"; "a.mp4"]%string
     = (["Usage: gopro2gpx.py <video> [video...] output.gpx"%string], SystemExit 1).
Proof.
  split.
  - apply (proj1 (script_never_writes (fun _ => "x"%string)
                    ["gopro2gpx.py"; "a.mp4"; "b.mp4"; "out.gpx"]%string)).
    simpl. lia.
  - apply (proj1 (proj2 (script_never_writes (fun _ => "x"%string)
                           ["gopro2gpx.py"; "a.mp4"]%string))).
    simpl. lia.
Defined.

(** ** White space around a timestamp *)

Lemma lstrip_spaces ws l :
  forallb is_space ws = true -> lstrip (ws ++ l) = lstrip l.
Proof.
  induction ws as [|w ws IH]; simpl; intro H; [reflexivity|].
  apply andb_true_iff in H. destruct H as [Hw Hws]. rewrite Hw. auto.
Qed.

Lemma lstrip_all_spaces ws : forallb is_space ws = true -> lstrip ws = [].
Proof.
  intro H. rewrite <- (app_nil_r ws). now rewrite lstrip_spaces.
Qed.

Lemma lstrip_app l ws :
  lstrip l <> [] -> lstrip (l ++ ws) = lstrip l ++ ws.
Proof.
  induction l as [|b l IH]; simpl; intro H; [congruence|].
  destruct (is_space b); [auto | reflexivity].
Qed.

Lemma lstrip_nil_spaces l : lstrip l = [] -> forallb is_space l = true.
Proof.
  induction l as [|b l IH]; simpl; intro H; [reflexivity|].
  destruct (is_space b); [auto | discriminate H].
Qed.

Lemma strip_spaces ws1 ws2 l :
  forallb is_space ws1 = true -> forallb is_space ws2 = true ->
  strip (ws1 ++ l ++ ws2) = strip l.
Proof.
  intros H1 H2. unfold strip. rewrite (@lstrip_spaces ws1 (l ++ ws2) H1).
  destruct (lstrip l) as [|c q] eqn:E.
  - rewrite (@lstrip_all_spaces (l ++ ws2)); [reflexivity|].
    apply lstrip_nil_spaces in E. rewrite forallb_app, E, H2. reflexivity.
  - rewrite lstrip_app by (rewrite E; discriminate).
    rewrite E, rev_app_distr, (@lstrip_spaces (rev ws2)); [reflexivity|].
    rewrite forallb_forall in *. intros x Hx. apply H2. now apply in_rev.
Qed.

(** X12. The text of a GPSU payload may have spaces, tabs, line feeds, vertical
    tabs, form feeds and carriage returns before and after it: they do not
    change the timestamp read, or the exception raised. *)
Theorem timestamp_ignores_surrounding_space (ws1 ws2 payload : list byte) :
  forallb is_space ws1 = true -> forallb is_space ws2 = true ->
  parse_timestamp (ws1 ++ payload ++ ws2) = parse_timestamp payload.
Proof.
  intros H1 H2. unfold parse_timestamp. now rewrite strip_spaces.
Qed.

Lemma timestamp_ignores_surrounding_space_witness :
  parse_timestamp (spaces 2 ++ ascii_bytes "210615120001.000000" ++ spaces 17)
  = Ok (mk_datetime 2021 6 15 12 0 1 0).
Proof.
  rewrite timestamp_ignores_surrounding_space by reflexivity.
  vm_compute. reflexivity.
Defined.

(** ** Alignment of the passes *)

Lemma iteration_aligned_witness :
  exists q, tell (gopro_binary fix_accuracy_final)
            = (tell (gopro_binary fix_accuracy_mid) + 4 * q)%nat.
Proof.
  apply (@iteration_aligned fix_accuracy_mid fix_accuracy_final "S"%byte 2 0 1).
  - vm_compute. reflexivity.
  - vm_compute. reflexivity.
  - vm_compute. lia.
  - right. left. vm_compute. reflexivity.
Defined.

(** ** The timestamps a payload can give *)

Lemma digit_in_bounds lo hi b d : digit_in lo hi b = Some d -> lo <= d <= hi.
Proof.
  unfold digit_in. destruct (_ && _) eqn:E; intro H; [|discriminate H].
  injection H as <-. apply andb_true_iff in E. destruct E as [E1 E2].
  apply Z.leb_le in E1, E2. lia.
Qed.

Lemma one_bounds lo hi s d r : In (d, r) (one lo hi s) -> lo <= d <= hi.
Proof.
  unfold one. destruct s as [|b s]; [intros []|].
  destruct (digit_in lo hi b) as [d'|] eqn:E; [|intros []].
  intros [H|[]]. injection H as <- _. eapply digit_in_bounds; eauto.
Qed.

Lemma two_bounds lo1 hi1 lo2 hi2 s v r :
  In (v, r) (two lo1 hi1 lo2 hi2 s) ->
  10 * lo1 + lo2 <= v <= 10 * hi1 + hi2.
Proof.
  unfold two. intro H. apply in_flat_map in H.
  destruct H as [[d1 s1] [H1 H]]. apply in_map_iff in H.
  destruct H as [[d2 s2] [E H2]].
  assert (Hv : v = 10 * d1 + d2) by congruence.
  apply one_bounds in H1, H2. lia.
Qed.

Lemma space_one_bounds s d r : In (d, r) (space_one s) -> 1 <= d <= 9.
Proof.
  unfold space_one. destruct s as [|b s]; [intros []|].
  destruct (byte_val b =? 32); [|intros []]. apply one_bounds.
Qed.

Lemma digits_upto_bounds : forall n s ds r,
    In (ds, r) (digits_upto n s) ->
    (List.length ds <= n)%nat /\ Forall (fun d => 0 <= d <= 9) ds.
Proof.
  induction n as [|n IH]; simpl; intros s ds r H.
  - destruct H as [H|[]]. injection H as <- _. split; [simpl; lia | constructor].
  - assert (Hnil : ([], s) = (ds, r) \/ False ->
                   (List.length ds <= S n)%nat /\ Forall (fun d => 0 <= d <= 9) ds).
    { intros [E|[]]. injection E as <- _. split; [simpl; lia | constructor]. }
    destruct s as [|b s]; [now apply Hnil; destruct H as [H|[]]; auto|].
    destruct (digit_in 0 9 b) as [d|] eqn:E;
      [|now apply Hnil; destruct H as [H|[]]; auto].
    apply in_app_or in H. destruct H as [H|H]; [|now apply Hnil].
    apply in_map_iff in H. destruct H as [[ds' r'] [E' H]].
    injection E' as <- _. destruct (IH _ _ _ H) as [Hl Hf].
    split; [simpl; lia|]. constructor; [eapply digit_in_bounds; eauto | exact Hf].
Qed.

Lemma digits_value_bounds : forall l acc,
    Forall (fun d => 0 <= d <= 9) l -> 0 <= acc ->
    0 <= fold_left (fun a d => a * 10 + d) l acc
    < (acc + 1) * 10 ^ Z.of_nat (List.length l).
Proof.
  induction l as [|d l IH]; intros acc Hf Hacc.
  - simpl. lia.
  - inversion Hf as [|? ? Hd Hl]; subst.
    simpl fold_left. destruct (IH (acc * 10 + d) Hl ltac:(lia)) as [H1 H2].
    split; [exact H1|].
    replace (Z.of_nat (List.length (d :: l)))
      with (Z.succ (Z.of_nat (List.length l))) by (simpl List.length; lia).
    rewrite Z.pow_succ_r by lia.
    assert (0 < 10 ^ Z.of_nat (List.length l)) by (apply Z.pow_pos_nonneg; lia).
    nia.
Qed.

Lemma re_f_bounds s v r : In (v, r) (re_f s) -> 0 <= v <= 999999.
Proof.
  unfold re_f. intro H. apply in_flat_map in H.
  destruct H as [[ds r'] [H1 H]].
  destruct ds as [|d ds]; [destruct H|].
  destruct H as [H|[]]. injection H as <- _.
  destruct (digits_upto_bounds _ _ _ _ H1) as [Hl Hf].
  unfold fraction_of.
  assert (Hf' : Forall (fun x => 0 <= x <= 9)
                  ((d :: ds) ++ repeat 0 (6 - List.length (d :: ds)))).
  { apply Forall_app. split; [exact Hf|].
    apply Forall_forall. intros x Hx. apply repeat_spec in Hx. lia. }
  pose proof (@digits_value_bounds _ 0 Hf' ltac:(lia)) as Hb.
  rewrite length_app, repeat_length in Hb.
  replace (List.length (d :: ds) + (6 - List.length (d :: ds)))%nat
    with 6%nat in Hb by lia.
  change (10 ^ Z.of_nat 6) with 1000000 in Hb. lia.
Qed.

Lemma re_timestamp_bounds s f r :
  In (f, r) (re_timestamp s) ->
  0 <= f_y f <= 99 /\ 1 <= f_m f <= 12 /\ 1 <= f_d f <= 31
  /\ 0 <= f_H f <= 23 /\ 0 <= f_M f <= 59 /\ 0 <= f_S f <= 61
  /\ 0 <= f_f f <= 999999.
Proof.
  unfold re_timestamp. intro H.
  apply in_flat_map in H. destruct H as [[y s1] [Hy H]].
  apply in_flat_map in H. destruct H as [[m s2] [Hm H]].
  apply in_flat_map in H. destruct H as [[d s3] [Hd H]].
  apply in_flat_map in H. destruct H as [[hh s4] [HH H]].
  apply in_flat_map in H. destruct H as [[mm s5] [HM H]].
  apply in_flat_map in H. destruct H as [[ss s6] [HS H]].
  apply in_flat_map in H. destruct H as [s7 [_ H]].
  apply in_map_iff in H. destruct H as [[fr s8] [E Hf]].
  injection E as <- _. simpl.
  apply two_bounds in Hy.
  unfold re_m in Hm. rewrite !in_app_iff in Hm.
  unfold re_d in Hd. rewrite !in_app_iff in Hd.
  unfold re_H in HH. rewrite !in_app_iff in HH.
  unfold re_M in HM. rewrite !in_app_iff in HM.
  unfold re_S in HS. rewrite !in_app_iff in HS.
  apply re_f_bounds in Hf.
  repeat match goal with
         | H : _ \/ _ |- _ => destruct H as [H|H]
         | H : In _ (two _ _ _ _ _) |- _ => apply two_bounds in H
         | H : In _ (one _ _ _) |- _ => apply one_bounds in H
         | H : In _ (space_one _) |- _ => apply space_one_bounds in H
         end; lia.
Qed.

Lemma days_before_year_bounds y :
  1969 <= y <= 2068 ->
  days_before_year 1969 <= days_before_year y <= days_before_year 2068.
Proof.
  intro Hy.
  change (days_before_year 1969) with 718797.
  change (days_before_year 2068) with 754956.
  unfold days_before_year. Z.div_mod_to_equations. lia.
Qed.

Lemma day_of_year_bounds y m d :
  1 <= m <= 12 -> 1 <= d <= days_in_month y m ->
  1 <= days_before_month y m + d <= 366.
Proof.
  intros Hm Hd.
  assert (C : m = 1 \/ m = 2 \/ m = 3 \/ m = 4 \/ m = 5 \/ m = 6 \/ m = 7
              \/ m = 8 \/ m = 9 \/ m = 10 \/ m = 11 \/ m = 12) by lia.
  unfold days_in_month, days_before_month in *.
  repeat (destruct C as [C|C];
          [subst m;
           cbv [nth Z.to_nat Pos.to_nat Pos.iter_op Nat.add days_in_month_table
                days_before_month_table Z.eqb Z.ltb Z.compare Pos.compare
                Pos.compare_cont Pos.eqb andb] in *;
           destruct (is_leap y); lia|]).
  subst m.
  cbv [nth Z.to_nat Pos.to_nat Pos.iter_op Nat.add days_in_month_table
       days_before_month_table Z.eqb Z.ltb Z.compare Pos.compare
       Pos.compare_cont Pos.eqb andb] in *.
  destruct (is_leap y); lia.
Qed.

Lemma strptime_in_parsed_years text t :
  strptime text = Ok t -> in_parsed_years t.
Proof.
  unfold strptime. destruct (re_timestamp text) as [|[f rest] l] eqn:E;
    [intro H; discriminate H|].
  destruct rest; [|intro H; discriminate H].
  assert (Hin : In (f, []) (re_timestamp text)) by (rewrite E; left; reflexivity).
  apply re_timestamp_bounds in Hin.
  destruct Hin as (By & Bm & Bd & BH & BM & BS & Bf).
  set (year := if f_y f <=? 68 then f_y f + 2000 else f_y f + 1900).
  assert (Hyear : 1969 <= year <= 2068).
  { unfold year. destruct (Z.leb_spec (f_y f) 68); lia. }
  destruct (_ && _) eqn:Ev; intro H; [|discriminate H].
  injection H as <-. apply andb_true_iff in Ev. destruct Ev as [Ed Es].
  apply Z.leb_le in Ed, Es.
  pose proof (days_before_year_bounds Hyear) as Hdby.
  pose proof (@day_of_year_bounds year (f_m f) (f_d f) Bm ltac:(lia)) as Hdoy.
  change (days_before_year 1969) with 718797 in Hdby.
  change (days_before_year 2068) with 754956 in Hdby.
  unfold in_parsed_years.
  change first_parsed with 62104147200000000.
  change last_parsed with 65259907199999999.
  unfold mk_datetime, ymd2ord, us_per_second. lia.
Qed.

Lemma parse_timestamp_in_parsed_years payload t :
  parse_timestamp payload = Ok t -> in_parsed_years t.
Proof.
  unfold parse_timestamp. destruct (forallb _ _); intro H; [|discriminate H].
  eapply strptime_in_parsed_years; eauto.
Qed.

(** ** The timestamps loop returns on what the parser hands to it *)

Lemma value_body_timestamps_ok ls vs dl st st' :
  value_body ls vs dl st = Ok st' -> timestamps_ok st -> timestamps_ok st'.
Proof.
  unfold value_body. intros H [Hd Hc]. bind_inv H. injection H as <-.
  change (timestamps_ok (with_okay_to_record a (gate (gps_fix a) (gps_accuracy a))))
    with (timestamps_ok a).
  destruct (contains "GPS5" ls).
  { unfold gps5_value in Ha. destruct (negb _); [discriminate Ha|].
    unfold read_st, read in Ha; simpl in Ha.
    bind_inv Ha. destruct a0 as [[[[lat lon] alt] speed] speed3d].
    destruct (okay_to_record st); simpl in Ha.
    - repeat bind_inv Ha. injection Ha as <-. split; [exact Hd | exact Hc].
    - injection Ha as <-. split; assumption. }
  destruct (contains "GPSU" ls).
  { unfold gpsu_value in Ha. bind_inv Ha.
    unfold read_st, read in Ha; simpl in Ha.
    bind_inv Ha. injection Ha as <-. split.
    - destruct a0; simpl; [|exact Hd].
      apply Forall_app. split; [exact Hd|]. constructor; [exact Hc | constructor].
    - simpl. intros t Ht. injection Ht as <-.
      eapply parse_timestamp_in_parsed_years; eauto. }
  destruct (contains "GPSF" ls).
  { unfold gpsf_value, read_st, read in Ha; simpl in Ha.
    bind_inv Ha. injection Ha as <-. split; assumption. }
  destruct (contains "GPSP" ls).
  { unfold gpsp_value, read_st, read in Ha; simpl in Ha.
    bind_inv Ha. injection Ha as <-. split; assumption. }
  injection Ha as <-. split; assumption.
Qed.

Lemma steps_timestamps_ok st st' :
  steps st st' -> timestamps_ok st -> timestamps_ok st'.
Proof.
  apply (@steps_rel (fun a b => timestamps_ok a -> timestamps_ok b)); auto.
  intros a b. apply (@iteration_rel (fun a b => timestamps_ok a -> timestamps_ok b)
                       (fun _ => True)); auto.
  intros; eapply value_body_timestamps_ok; eauto.
Qed.

Lemma initial_timestamps_ok io : timestamps_ok (initial io).
Proof. split; [constructor | intros t H; discriminate H]. Qed.

Lemma unpack_iiiii_length b v : unpack_iiiii b = Ok v -> List.length b = 20%nat.
Proof.
  unfold unpack_iiiii. destruct (Nat.eqb (List.length b) 20) eqn:E;
    intro H; [|discriminate H].
  apply Nat.eqb_eq. exact E.
Qed.

Lemma all_samples_snoc data r :
  all_samples (data ++ [r]) = all_samples data ++ samples_of r.
Proof.
  unfold all_samples. rewrite map_app, concat_app. simpl.
  now rewrite app_nil_r.
Qed.

Lemma value_body_samples ls vs dl st st' :
  value_body ls vs dl st = Ok st' ->
  (20 * samples_held st' + bytes_left st'
   <= 20 * samples_held st + bytes_left st)%nat.
Proof.
  unfold value_body. intro H. bind_inv H. injection H as <-.
  change (bytes_left (with_okay_to_record a (gate (gps_fix a) (gps_accuracy a))))
    with (bytes_left a).
  change (samples_held (with_okay_to_record a (gate (gps_fix a) (gps_accuracy a))))
    with (samples_held a).
  assert (Hr : forall n,
             (20 * samples_held (snd (read_st n st))
              + bytes_left (snd (read_st n st))
              <= 20 * samples_held st + bytes_left st)%nat).
  { intro n. rewrite read_st_left.
    change (samples_held (snd (read_st n st))) with (samples_held st). lia. }
  destruct (contains "GPS5" ls).
  { unfold gps5_value in Ha. destruct (vs =? 20) eqn:Evs; [|discriminate Ha].
    apply Z.eqb_eq in Evs. subst vs. cbv [negb] in Ha.
    pose proof (read_st_fst_length 20 st) as Hlen.
    pose proof (read_st_left 20 st) as Hleft.
    assert (Hsame : samples_held (snd (read_st 20 st)) = samples_held st
                    /\ current_data (snd (read_st 20 st)) = current_data st
                    /\ data (snd (read_st 20 st)) = data st)
      by (repeat split; reflexivity).
    destruct (read_st 20 st) as [b st1].
    cbv [fst] in Hlen. cbv [snd] in Hleft, Hsame.
    destruct Hsame as (Hs & Hc & Hd).
    bind_inv Ha. destruct a0 as [[[[lat lon] alt] speed] speed3d].
    apply unpack_iiiii_length in Ha0.
    destruct (okay_to_record st1).
    - repeat bind_inv Ha. injection Ha as <-.
      unfold samples_held in *. cbn [data current_data with_current_data].
      unfold bytes_left in *. cbn [gopro_binary with_current_data].
      unfold samples_of in *. cbn [gps_data].
      clear Hr. destruct (gps_data (current_data st1)) as [gd|]; [|discriminate Ha4].
      injection Ha4 as <-. rewrite length_app. cbn [List.length].
      change (Z.to_nat 20) with 20%nat in *. lia.
    - injection Ha as <-. change (Z.to_nat 20) with 20%nat in *. lia. }
  destruct (contains "GPSU" ls).
  { unfold gpsu_value in Ha. bind_inv Ha.
    set (st2 := if a0 then with_data st (data st ++ [current_data st]) else st) in *.
    assert (H2 : (List.length (all_samples (data st2)) <= samples_held st
                  /\ bytes_left st2 = bytes_left st)%nat).
    { unfold st2, samples_held. destruct a0.
      - cbn [data with_data]. rewrite all_samples_snoc, length_app.
        split; [lia | reflexivity].
      - split; [lia | reflexivity]. }
    pose proof (read_st_left dl st2) as Hleft.
    assert (Hsame : data (snd (read_st dl st2)) = data st2) by reflexivity.
    destruct (read_st dl st2) as [b st3]. cbv [snd] in Hleft, Hsame.
    bind_inv Ha. injection Ha as <-.
    unfold samples_held at 1. cbn [data current_data with_current_data].
    unfold samples_of at 1. cbn [gps_data List.length].
    change (bytes_left (with_current_data st3 (mk_row (Some a1) (Some []))))
      with (bytes_left st3).
    rewrite Hsame. lia. }
  destruct (contains "GPSF" ls).
  { unfold gpsf_value in Ha.
    pose proof (Hr vs) as Hv. destruct (read_st vs st) as [b st1].
    cbv [snd] in Hv. bind_inv Ha. injection Ha as <-. exact Hv. }
  destruct (contains "GPSP" ls).
  { unfold gpsp_value in Ha.
    pose proof (Hr vs) as Hv. destruct (read_st vs st) as [b st1].
    cbv [snd] in Hv. bind_inv Ha. injection Ha as <-. exact Hv. }
  injection Ha as <-. apply Hr.
Qed.

Lemma steps_samples st st' :
  steps st st' ->
  (20 * samples_held st' + bytes_left st'
   <= 20 * samples_held st + bytes_left st)%nat.
Proof.
  apply (@steps_rel (fun a b => (20 * samples_held b + bytes_left b
                                 <= 20 * samples_held a + bytes_left a)%nat)).
  - intros; lia.
  - intros; lia.
  - intros a b.
    apply (@iteration_rel (fun a b => (20 * samples_held b + bytes_left b
                                       <= 20 * samples_held a + bytes_left a)%nat)
             (fun _ => True)); auto.
    + intros; lia.
    + intros n x. rewrite read_st_left.
      change (samples_held (snd (read_st n x))) with (samples_held x). lia.
    + intros; eapply value_body_samples; eauto.
Qed.

(** The product of a sample index and a rounded step stays within the span
    and the number of samples. *)
Lemma step_product_bounds (d k j : Z) :
  0 < k -> 0 <= j < k ->
  - Z.abs d - k <= j * divide_and_round d k <= Z.abs d + k.
Proof.
  intros Hk Hj. unfold divide_and_round.
  pose proof (Z.div_mod d k ltac:(lia)) as Hdm.
  pose proof (Z.mod_pos_bound d k Hk) as Hm.
  set (q := d / k) in *. set (m := d mod k) in *.
  assert (Hq : - Z.abs d - k <= j * q <= Z.abs d).
  { destruct (Z.le_gt_cases 0 q) as [Hq|Hq]; nia. }
  destruct (_ || _); [|lia].
  destruct (Z.le_gt_cases 0 q) as [Hq'|Hq']; nia.
Qed.

Lemma stamp_returns start step_ : forall l j0,
    (forall j, j0 <= j < j0 + Z.of_nat (List.length l) ->
               dt_validb (start + j * step_) = true) ->
    exists out, stamp start step_ j0 l = Ok out.
Proof.
  induction l as [|g l IH]; intros j0 Hv.
  - exists []. reflexivity.
  - cbn [stamp]. unfold dt_add, td_mul.
    rewrite (Hv j0) by (cbn [List.length]; lia).
    destruct (IH (j0 + 1)) as [rest Hrest].
    { intros j Hj. apply Hv. cbn [List.length]. lia. }
    rewrite Hrest. eexists. reflexivity.
Qed.

Lemma in_parsed_years_bounds t :
  in_parsed_years t -> 62104147200000000 <= t <= 65259907199999999.
Proof. intro H. exact H. Qed.

Lemma dt_validb_bounds t :
  86400000000 <= t < 315537984000000000 -> dt_validb t = true.
Proof.
  intro H. unfold dt_validb.
  change us_per_day with 86400000000.
  change ((MAXORDINAL + 1) * 86400000000) with 315537984000000000.
  apply andb_true_iff. split; [apply Z.leb_le | apply Z.ltb_lt]; lia.
Qed.

Lemma skipn_cons_nth {A : Type} : forall (i : nat) (l : list A) r rows,
    skipn i l = r :: rows ->
    nth_error l i = Some r /\ skipn (S i) l = rows /\ (i < List.length l)%nat.
Proof.
  induction i as [|i IH]; intros [|x l] r rows H; try discriminate H.
  - injection H as <- <-. repeat split. cbn [List.length]. lia.
  - cbn [skipn] in H. destruct (IH _ _ _ H) as (H1 & H2 & H3).
    repeat split; [exact H1 | exact H2 | cbn [List.length]; lia].
Qed.

Lemma stamp_row_returns data index r :
  nth_error data index = Some r ->
  Forall row_ok data ->
  Forall (fun r => forall t, timestamp r = Some t -> in_parsed_years t) data ->
  Z.of_nat (List.length (samples_of r)) * 20 <= max_source_bytes ->
  exists out, stamp_row data index r = Ok out.
Proof.
  intros Hn Hok Hts Hk.
  assert (Hin : In r data) by (eapply nth_error_In; eauto).
  destruct (proj1 (Forall_forall _ _) Hok _ Hin) as (t & g & gd & Ht & Hg).
  pose proof (in_parsed_years_bounds (proj1 (Forall_forall _ _) Hts _ Hin _ Ht))
    as Bt.
  unfold stamp_row, start_time_of. rewrite Ht. cbn [bind].
  assert (He : exists e, end_time_of data index t = Ok e
                         /\ Z.abs (e - t) <= 3155759999999999).
  { unfold end_time_of. destruct (Nat.eqb index (List.length data - 1)) eqn:E.
    - unfold dt_add, td_seconds. change (1 * us_per_second) with 1000000.
      rewrite dt_validb_bounds by lia. eexists. split; [reflexivity|]. lia.
    - apply Nat.eqb_neq in E.
      assert (Hlt : (index < List.length data)%nat)
        by (apply nth_error_Some; rewrite Hn; discriminate).
      unfold list_index.
      destruct (nth_error data (index + 1)) as [nxt|] eqn:En;
        [|apply nth_error_None in En; lia].
      assert (Hin' : In nxt data) by (eapply nth_error_In; eauto).
      destruct (proj1 (Forall_forall _ _) Hok _ Hin') as (t' & _ & _ & Ht' & _).
      pose proof (in_parsed_years_bounds
                    (proj1 (Forall_forall _ _) Hts _ Hin' _ Ht')) as Bt'.
      cbn [bind]. rewrite Ht'. exists t'. split; [reflexivity|]. lia. }
  destruct He as (e & -> & Be). cbn [bind]. rewrite Hg. cbn [getitem bind].
  unfold samples_of in Hk. rewrite Hg in Hk.
  unfold td_div, dt_sub.
  set (k := Z.of_nat (List.length (g :: gd))) in *.
  assert (Hkpos : 0 < k) by (unfold k; cbn [List.length]; lia).
  destruct (Z.eqb_spec k 0) as [E0|_]; [lia|]. cbn [bind].
  apply stamp_returns. intros j Hj. fold k in Hj.
  pose proof (@step_product_bounds (e - t) k j Hkpos ltac:(lia)) as Hp.
  apply dt_validb_bounds. unfold max_source_bytes in Hk. lia.
Qed.

Lemma samples_of_all_samples data index r :
  nth_error data index = Some r ->
  (List.length (samples_of r) <= List.length (all_samples data))%nat.
Proof.
  intro Hn. apply nth_error_split in Hn. destruct Hn as (l1 & l2 & -> & _).
  unfold all_samples. rewrite map_app, concat_app. cbn [map List.concat].
  rewrite !length_app. lia.
Qed.

Lemma stamp_rows_returns data : forall rows index,
    skipn index data = rows ->
    Forall row_ok data ->
    Forall (fun r => forall t, timestamp r = Some t -> in_parsed_years t) data ->
    Z.of_nat (List.length (all_samples data)) * 20 <= max_source_bytes ->
    exists pts, stamp_rows data index rows = Ok pts.
Proof.
  induction rows as [|r rows IH]; intros index Hs Hok Hts Hk.
  - exists []. reflexivity.
  - destruct (skipn_cons_nth _ _ Hs) as (Hn & Hs' & _).
    cbn [stamp_rows].
    destruct (@stamp_row_returns data index r Hn Hok Hts) as [out ->].
    { pose proof (samples_of_all_samples data index Hn) as Hle. lia. }
    destruct (IH (S index) Hs' Hok Hts Hk) as [rest ->].
    eexists. reflexivity.
Qed.

(** X14. When the parsing loop is left by [break] on a source of at most
    [max_source_bytes] bytes, the timestamps loop raises nothing: every
    session of [data] has a timestamp of the years 1969 to 2068 and a sample
    or more, twenty bytes were read for each sample, and no sum of a start
    time and a multiple of the step leaves the range of [datetime].
    [gopro_binary_to_csv] then returns one point for each sample. *)
Theorem timestamps_loop_returns (io : bytesio) (st : parser) :
  Z.of_nat (List.length (remaining io)) <= max_source_bytes ->
  parse io = Some (Ok st) ->
  exists pts,
    gopro_binary_to_csv io = Some (Ok pts)
    /\ List.length pts = List.length (all_samples (data st)).
Proof.
  intros Hsize H. unfold gopro_binary_to_csv. rewrite H.
  unfold parse in H. apply while_loop_steps in H. destruct H as [Hs _].
  pose proof (steps_sessions_ok Hs (initial_sessions_ok io)) as [Hok _].
  pose proof (steps_timestamps_ok Hs (initial_timestamps_ok io)) as [Hts _].
  pose proof (steps_samples Hs) as Hn.
  change (samples_held (initial io)) with 0%nat in Hn.
  change (bytes_left (initial io)) with (List.length (remaining io)) in Hn.
  unfold samples_held in Hn.
  destruct (@stamp_rows_returns (data st) (data st) 0 eq_refl Hok Hts)
    as [pts Hpts]; [lia|].
  exists pts. split; [unfold interpolate; now rewrite Hpts|].
  destruct (stamp_rows_points _ _ _ Hpts) as [Hm _].
  apply (f_equal (@List.length _)) in Hm. now rewrite !length_map in Hm.
Qed.

Lemma timestamps_loop_returns_witness :
  Z.of_nat (List.length (remaining (BytesIO round_trip_stream)))
  <= max_source_bytes
  /\ exists pts,
       gopro_binary_to_csv (BytesIO round_trip_stream) = Some (Ok pts)
       /\ List.length pts = List.length (all_samples (data round_trip_final)).
Proof.
  assert (Hsize : Z.of_nat (List.length (remaining (BytesIO round_trip_stream)))
                  <= max_source_bytes)
    by (vm_compute; intro H; discriminate H).
  split; [exact Hsize|].
  apply (@timestamps_loop_returns (BytesIO round_trip_stream) round_trip_final
           Hsize).
  vm_compute. reflexivity.
Defined.

(** ** The label tests are tests of equality *)

Lemma repr_shape_squote b : repr_shape squote b = true.
Proof. destruct b; vm_compute; reflexivity. Qed.

Lemma repr_shape_dquote b : repr_shape dquote b = true.
Proof. destruct b; vm_compute; reflexivity. Qed.

Section LabelText.

Variable quote : ascii.
Hypothesis quote_shape : forall b, repr_shape quote b = true.
Hypothesis quote_not_upper : is_upper quote = false.

Lemma repr_byte_cases b :
  repr_byte quote b = String (ascii_of_byte b) EmptyString
  \/ (exists s, repr_byte quote b = String backslash s)
     /\ no_upper (repr_byte quote b) = true.
Proof.
  pose proof (quote_shape b) as H. unfold repr_shape in H.
  apply orb_true_iff in H. destruct H as [H|H].
  - left. apply String.eqb_eq. exact H.
  - right. apply andb_true_iff in H. destruct H as [H1 H2]. split; [|exact H2].
    destruct (repr_byte quote b) as [|c s]; [discriminate H1|].
    cbn [starts_with] in H1. apply andb_true_iff in H1. destruct H1 as [H1 _].
    apply Ascii.eqb_eq in H1. subst c. exists s. reflexivity.
Qed.

Lemma upper_neq c a : is_upper c = true -> is_upper a = false -> Ascii.eqb c a = false.
Proof.
  intros Hc Ha. destruct (Ascii.eqb_spec c a) as [->|]; [congruence | reflexivity].
Qed.

Lemma contains_skip c p e : forall s,
    is_upper c = true -> no_upper e = true ->
    contains (String c p) (append e s) = contains (String c p) s.
Proof.
  induction e as [|a e IH]; intros s Hc He; [reflexivity|].
  cbn [no_upper] in He. apply andb_true_iff in He. destruct He as [Ha He].
  apply negb_true_iff in Ha.
  cbn [append contains starts_with]. rewrite (@upper_neq _ _ Hc Ha). cbn [andb orb].
  apply IH; assumption.
Qed.

Lemma starts_with_cons a p b s :
  starts_with (String a p) (String b s) = Ascii.eqb a b && starts_with p s.
Proof. reflexivity. Qed.

Lemma repr_body_head c p bs :
  c <> backslash -> c <> quote ->
  starts_with (String c p) (repr_body quote bs) = true ->
  exists b bs',
    bs = b :: bs' /\ ascii_of_byte b = c
    /\ starts_with p (repr_body quote bs') = true.
Proof.
  intros Hb Hq H. destruct bs as [|b bs].
  - cbn [repr_body fold_right starts_with] in H.
    apply andb_true_iff in H. destruct H as [H _].
    apply Ascii.eqb_eq in H. contradiction.
  - change (repr_body quote (b :: bs))
      with (append (repr_byte quote b) (repr_body quote bs)) in H.
    destruct (repr_byte_cases b) as [E|[[s E] _]]; rewrite E in H;
      cbn [append starts_with] in H;
      apply andb_true_iff in H; destruct H as [H1 H2];
      apply Ascii.eqb_eq in H1.
    + exists b, bs. repeat split; [now symmetry | exact H2].
    + contradiction.
Qed.

Lemma upper_not_backslash c : is_upper c = true -> c <> backslash.
Proof. intros H ->. vm_compute in H. discriminate H. Qed.

Lemma upper_not_quote c : is_upper c = true -> c <> quote.
Proof. intros H ->. congruence. Qed.

Lemma repr_body_contains c1 c2 c3 c4 : forall bs,
    is_upper c1 = true -> is_upper c2 = true -> is_upper c3 = true ->
    c4 <> backslash -> c4 <> quote ->
    contains (String c1 (String c2 (String c3 (String c4 EmptyString))))
      (repr_body quote bs) = true ->
    exists pre b1 b2 b3 b4 post,
      bs = pre ++ b1 :: b2 :: b3 :: b4 :: post
      /\ ascii_of_byte b1 = c1 /\ ascii_of_byte b2 = c2
      /\ ascii_of_byte b3 = c3 /\ ascii_of_byte b4 = c4.
Proof.
  intros bs U1 U2 U3 N4 Q4. induction bs as [|b bs IH]; intro H.
  - cbn [repr_body fold_right contains starts_with] in H.
    rewrite (@upper_neq _ _ U1 quote_not_upper) in H. discriminate H.
  - change (repr_body quote (b :: bs))
      with (append (repr_byte quote b) (repr_body quote bs)) in H.
    assert (Hrec : contains (String c1 (String c2 (String c3 (String c4 EmptyString))))
                     (repr_body quote bs) = true ->
                   exists pre b1 b2 b3 b4 post,
                     b :: bs = pre ++ b1 :: b2 :: b3 :: b4 :: post
                     /\ ascii_of_byte b1 = c1 /\ ascii_of_byte b2 = c2
                     /\ ascii_of_byte b3 = c3 /\ ascii_of_byte b4 = c4).
    { intro H'. destruct (IH H') as (pre & b1 & b2 & b3 & b4 & post & E & R).
      exists (b :: pre), b1, b2, b3, b4, post. split; [now rewrite E | exact R]. }
    destruct (repr_byte_cases b) as [E|[_ E]].
    + rewrite E in H. cbn [append] in H.
      change (contains ?p (String ?a ?s))
        with (starts_with p (String a s) || contains p s) in H.
      apply orb_true_iff in H. destruct H as [H|H]; [|exact (Hrec H)].
      rewrite starts_with_cons in H. apply andb_true_iff in H.
      destruct H as [H1 H]. apply Ascii.eqb_eq in H1.
      destruct (@repr_body_head _ _ _ (@upper_not_backslash _ U2) (@upper_not_quote _ U2) H)
        as (b2 & bs2 & -> & E2 & H2).
      destruct (@repr_body_head _ _ _ (@upper_not_backslash _ U3) (@upper_not_quote _ U3) H2)
        as (b3 & bs3 & -> & E3 & H3).
      destruct (@repr_body_head _ _ _ N4 Q4 H3) as (b4 & bs4 & -> & E4 & _).
      exists [], b, b2, b3, b4, bs4. repeat split; auto.
    + rewrite (@contains_skip _ _ _ _ U1 E) in H. exact (Hrec H).
Qed.

Lemma repr_contains c1 c2 c3 c4 bs :
  is_upper c1 = true -> is_upper c2 = true -> is_upper c3 = true ->
  c4 <> backslash -> c4 <> quote ->
  (List.length bs <= 4)%nat ->
  contains (String c1 (String c2 (String c3 (String c4 EmptyString))))
    (String "b" (String quote (repr_body quote bs))) = true ->
  bs = map byte_of_ascii [c1; c2; c3; c4].
Proof.
  intros U1 U2 U3 N4 Q4 Hlen H.
  change (String "b" (String quote (repr_body quote bs)))
    with (append (String "b" (String quote EmptyString)) (repr_body quote bs)) in H.
  rewrite contains_skip in H;
    [|exact U1 | cbn [no_upper]; rewrite quote_not_upper; reflexivity].
  destruct (@repr_body_contains _ _ _ _ _ U1 U2 U3 N4 Q4 H)
    as (pre & b1 & b2 & b3 & b4 & post & -> & E1 & E2 & E3 & E4).
  rewrite length_app in Hlen. cbn [List.length] in Hlen.
  destruct pre; [|cbn [List.length] in Hlen; lia].
  destruct post; [|cbn [List.length] in Hlen; lia].
  cbn [app map]. rewrite <- E1, <- E2, <- E3, <- E4.
  now rewrite !byte_of_ascii_of_byte.
Qed.

End LabelText.

Lemma label_exact tag l :
  In tag tags -> (List.length l <= 4)%nat ->
  (contains tag (str_of_bytes l) = true <-> l = ascii_bytes tag).
Proof.
  intros Hin Hlen. split.
  - intro H. unfold str_of_bytes in H. cbv zeta in H.
    change (fold_right (fun b acc => append (repr_byte ?q b) acc)
              (String ?q EmptyString) l) with (repr_body q l) in H.
    assert (Hq : forall q, q = squote \/ q = dquote ->
                 contains tag (String "b" (String q (repr_body q l))) = true ->
                 l = ascii_bytes tag).
    { clear H. intros q Hq H.
      assert (S1 : forall b, repr_shape q b = true)
        by (destruct Hq as [-> | ->];
            [exact repr_shape_squote | exact repr_shape_dquote]).
      assert (S2 : is_upper q = false) by (destruct Hq as [-> | ->]; reflexivity).
      assert (S3 : forall c, is_upper c = true \/ c = "5"%char ->
                             c <> backslash /\ c <> q).
      { intros c [Hc | ->].
        - split; [now apply upper_not_backslash | now apply upper_not_quote].
        - destruct Hq as [-> | ->]; split; discriminate. }
      unfold tags in Hin. cbn [In] in Hin.
      repeat (destruct Hin as [<- | Hin];
              [apply (@repr_contains q S1 S2) in H;
               [exact H | reflexivity | reflexivity | reflexivity
                | apply S3; auto | apply S3; auto | exact Hlen]|]).
      contradiction. }
    destruct (has_byte 39 l && negb (has_byte 34 l)); apply Hq in H; auto.
  - intros ->. unfold tags in Hin. cbn [In] in Hin.
    repeat (destruct Hin as [<- | Hin]; [vm_compute; reflexivity|]).
    contradiction.
Qed.

Lemma next_label_length st : (List.length (fst (read_st 4 st)) <= 4)%nat.
Proof.
  rewrite read_st_fst_length. change (Z.to_nat 4) with 4%nat. lia.
Qed.

(** X16. The tests [tag in label_string] of the loop body are made on the text of
    [str(label)], the [repr] of the four bytes read; for each of the six
    tags the text holds the tag exactly when the bytes read are the tag:
    neither the [b'] and the quote around the text nor the escapes for the
    bytes that are not printable can make up a tag or a part of one. *)
Theorem label_tests_are_exact (st : parser) (tag : string) :
  In tag tags ->
  (contains tag (next_label st) = true <-> fst (read_st 4 st) = ascii_bytes tag).
Proof.
  intro Hin. unfold next_label. apply label_exact; [exact Hin|].
  apply next_label_length.
Qed.

Lemma label_tests_are_exact_witness :
  In "SCAL"%string tags
  /\ (contains "SCAL" (next_label (initial (BytesIO round_trip_stream))) = true
      <-> fst (read_st 4 (initial (BytesIO round_trip_stream)))
          = ascii_bytes "SCAL").
Proof.
  assert (Hin : In "SCAL"%string tags) by (right; left; reflexivity).
  split; [exact Hin|].
  exact (@label_tests_are_exact (initial (BytesIO round_trip_stream)) "SCAL" Hin).
Defined.

(** X17. At most one of the six tests holds for a label, so the order of the
    tests in the loop body decides nothing. *)
Theorem label_tests_exclude_each_other (st : parser) (t1 t2 : string) :
  In t1 tags -> In t2 tags -> t1 <> t2 ->
  contains t1 (next_label st) = true -> contains t2 (next_label st) = false.
Proof.
  intros I1 I2 Hne H1.
  destruct (contains t2 (next_label st)) eqn:H2; [|reflexivity].
  exfalso. apply Hne. unfold next_label in H1, H2.
  apply (proj1 (label_exact _ I1 (next_label_length st))) in H1.
  apply (proj1 (label_exact _ I2 (next_label_length st))) in H2.
  rewrite H1 in H2. clear H1 Hne.
  unfold tags in I1, I2. cbn [In] in I1, I2.
  repeat (destruct I1 as [<- | I1];
          [repeat (destruct I2 as [<- | I2];
                   [first [reflexivity | vm_compute in H2; discriminate H2]|]);
           contradiction|]).
  contradiction.
Qed.

Lemma label_tests_exclude_each_other_witness :
  contains "SCAL" (next_label (initial (BytesIO round_trip_stream))) = true
  /\ contains "GPS5" (next_label (initial (BytesIO round_trip_stream))) = false.
Proof.
  assert (H1 : contains "SCAL" (next_label (initial (BytesIO round_trip_stream)))
               = true) by (vm_compute; reflexivity).
  split; [exact H1|].
  apply (@label_tests_exclude_each_other
           (initial (BytesIO round_trip_stream)) "SCAL" "GPS5").
  - right; left; reflexivity.
  - right; right; left; reflexivity.
  - discriminate.
  - exact H1.
Defined.

(** X15. [%y] reads two digits and [strptime] places 00-68 in 2000-2068 and 69-99
    in 1969-1999: whatever the source holds, every session handed to the
    timestamps loop starts between 1969-01-01 00:00:00 and
    2068-12-31 23:59:59.999999. *)
Theorem session_starts_in_pivot_years (io : bytesio) (st : parser) :
  parse io = Some (Ok st) ->
  Forall (fun r => exists t, timestamp r = Some t /\ in_parsed_years t) (data st).
Proof.
  intro H. unfold parse in H. apply while_loop_steps in H. destruct H as [Hs _].
  pose proof (steps_sessions_ok Hs (initial_sessions_ok io)) as [Hok _].
  pose proof (steps_timestamps_ok Hs (initial_timestamps_ok io)) as [Hts _].
  rewrite Forall_forall in *. intros r Hr.
  destruct (Hok r Hr) as (t & _ & _ & Ht & _).
  exists t. split; [exact Ht | exact (Hts r Hr t Ht)].
Qed.

Lemma session_starts_in_pivot_years_witness :
  parse (BytesIO round_trip_stream) = Some (Ok round_trip_final)
  /\ Forall (fun r => exists t, timestamp r = Some t /\ in_parsed_years t)
       (data round_trip_final).
Proof.
  assert (H : parse (BytesIO round_trip_stream) = Some (Ok round_trip_final))
    by (vm_compute; reflexivity).
  split; [exact H|]. exact (@session_starts_in_pivot_years _ _ H).
Defined.

(** ** Direction of the timestamps of a session *)

Lemma divide_and_round_sign (d k : Z) :
  0 < k ->
  (0 <= d -> 0 <= divide_and_round d k)
  /\ (d <= 0 -> divide_and_round d k <= 0).
Proof.
  intro Hk. unfold divide_and_round.
  pose proof (Z.div_mod d k ltac:(lia)) as Hdm.
  pose proof (Z.mod_pos_bound d k Hk) as Hm.
  set (q := d / k) in *. set (m := d mod k) in *.
  destruct (0 <? k) eqn:Ek; [|apply Z.ltb_ge in Ek; lia].
  destruct ((k <? 2 * m) || ((2 * m =? k) && (q mod 2 =? 1))) eqn:Eup.
  - assert (Hhalf : 0 < m).
    { apply orb_true_iff in Eup. destruct Eup as [E|E].
      - apply Z.ltb_lt in E. lia.
      - apply andb_true_iff in E. destruct E as [E _]. apply Z.eqb_eq in E. lia. }
    split; intro Hd; nia.
  - split; intro Hd; nia.
Qed.

Lemma session_end_unique data i start e1 e2 :
  session_end data i start e1 -> session_end data i start e2 -> e1 = e2.
Proof.
  unfold session_end. destruct (nth_error data (S i)) as [nxt|]; intros H1 H2;
    congruence.
Qed.

(** X18. The points of a session follow the clock of its two ends: they start at
    the timestamp of the session and, taken in order, never go back in time
    when the session ends at or after its start; when the next session has
    an earlier timestamp than this one they never go forward. *)
Theorem session_points_follow_the_clock (data : list row) (pts : list gps_datum)
    (i : nat) (r : row) (start end_ : datetime) (gd : list gps_datum) :
  interpolate data = Ok pts ->
  nth_error data i = Some r ->
  timestamp r = Some start ->
  gps_data r = Some gd ->
  session_end data i start end_ ->
  forall j j' g g',
    (j <= j')%nat -> nth_error gd j = Some g -> nth_error gd j' = Some g' ->
    exists t t',
      nth_error pts (points_before data i + j) = Some (with_timestamp g t)
      /\ nth_error pts (points_before data i + j') = Some (with_timestamp g' t')
      /\ (j = 0%nat -> t = start)
      /\ (start <= end_ -> start <= t <= t')
      /\ (end_ <= start -> t' <= t <= start).
Proof.
  intros Hi Hr Ht Hg He j j' g g' Hjj Hj Hj'. unfold interpolate in Hi.
  destruct (stamp_rows_spec _ _ _ Hi _ Hr) as (out & Ho & Hn).
  cbn [Nat.add] in Ho.
  destruct (@stamp_row_spec data i r out Ho start gd Ht Hg)
    as (e & He' & Hk & Hlen & Hout).
  rewrite (@session_end_unique _ _ _ _ _ He' He) in Hout. clear e He'.
  set (k := Z.of_nat (List.length gd)) in *.
  set (step_ := divide_and_round (end_ - start) k) in *.
  assert (Hlt : forall n x, nth_error gd n = Some x -> (n < List.length out)%nat)
    by (intros n x Hx; rewrite Hlen; apply nth_error_Some; rewrite Hx; discriminate).
  exists (start + Z.of_nat j * step_), (start + Z.of_nat j' * step_).
  split; [rewrite (Hn _ (Hlt _ _ Hj)); apply Hout; exact Hj|].
  split; [rewrite (Hn _ (Hlt _ _ Hj')); apply Hout; exact Hj'|].
  destruct (@divide_and_round_sign (end_ - start) k ltac:(lia)) as [Hpos Hneg].
  fold step_ in Hpos, Hneg.
  split; [intros ->; lia|]. split; intro Hd; nia.
Qed.

Lemma session_points_follow_the_clock_witness :
  exists t t',
    nth_error [mk_datum 100000 200000 500 (Some 63759441600000000);
               mk_datum 100010 200010 520 (Some 63759441600500000)] 0
    = Some (with_timestamp (mk_datum 100000 200000 500 None) t)
    /\ nth_error [mk_datum 100000 200000 500 (Some 63759441600000000);
                  mk_datum 100010 200010 520 (Some 63759441600500000)] 1
       = Some (with_timestamp (mk_datum 100010 200010 520 None) t')
    /\ t = 63759441600000000 /\ t <= t'.
Proof.
  destruct (@session_points_follow_the_clock
              (data round_trip_final)
              [mk_datum 100000 200000 500 (Some 63759441600000000);
               mk_datum 100010 200010 520 (Some 63759441600500000)]
              0 (mk_row (Some 63759441600000000)
                   (Some [mk_datum 100000 200000 500 None;
                          mk_datum 100010 200010 520 None]))
              63759441600000000 63759441601000000
              [mk_datum 100000 200000 500 None; mk_datum 100010 200010 520 None]
              ltac:(vm_compute; reflexivity) ltac:(vm_compute; reflexivity)
              eq_refl eq_refl ltac:(vm_compute; reflexivity)
              0%nat 1%nat (mk_datum 100000 200000 500 None)
              (mk_datum 100010 200010 520 None)
              ltac:(lia) eq_refl eq_refl)
    as (t & t' & H1 & H2 & H0 & Hup & _).
  exists t, t'. split; [exact H1|]. split; [exact H2|].
  split; [exact (H0 eq_refl)|]. apply Hup. lia.
Defined.

(** ** A timestamp text at full width is read back *)

Ltac digit_cases a :=
  let C := fresh "C" in
  assert (C : a = 0 \/ a = 1 \/ a = 2 \/ a = 3 \/ a = 4 \/ a = 5 \/ a = 6
              \/ a = 7 \/ a = 8 \/ a = 9) by lia;
  decompose [or] C; clear C; subst a.

Ltac digit_cases_12 a :=
  let C := fresh "C" in
  assert (C : a = 1 \/ a = 2 \/ a = 3 \/ a = 4 \/ a = 5 \/ a = 6 \/ a = 7
              \/ a = 8 \/ a = 9 \/ a = 10 \/ a = 11 \/ a = 12) by lia;
  decompose [or] C; clear C; subst a.

Ltac field_head a b :=
  digit_cases a; digit_cases b;
  first [lia | vm_compute; eexists; reflexivity].

Lemma re_y_head a b rest :
  0 <= a <= 9 -> 0 <= b <= 9 ->
  exists l, re_y (digit_byte a :: digit_byte b :: rest) = (10 * a + b, rest) :: l.
Proof. intros Ha Hb. field_head a b. Qed.

Lemma re_m_head a b rest :
  0 <= a <= 9 -> 0 <= b <= 9 -> 1 <= 10 * a + b <= 12 ->
  exists l, re_m (digit_byte a :: digit_byte b :: rest) = (10 * a + b, rest) :: l.
Proof. intros Ha Hb Hv. field_head a b. Qed.

Lemma re_d_head a b rest :
  0 <= a <= 9 -> 0 <= b <= 9 -> 1 <= 10 * a + b <= 31 ->
  exists l, re_d (digit_byte a :: digit_byte b :: rest) = (10 * a + b, rest) :: l.
Proof. intros Ha Hb Hv. field_head a b. Qed.

Lemma re_H_head a b rest :
  0 <= a <= 9 -> 0 <= b <= 9 -> 10 * a + b <= 23 ->
  exists l, re_H (digit_byte a :: digit_byte b :: rest) = (10 * a + b, rest) :: l.
Proof. intros Ha Hb Hv. field_head a b. Qed.

Lemma re_M_head a b rest :
  0 <= a <= 9 -> 0 <= b <= 9 -> 10 * a + b <= 59 ->
  exists l, re_M (digit_byte a :: digit_byte b :: rest) = (10 * a + b, rest) :: l.
Proof. intros Ha Hb Hv. field_head a b. Qed.

Lemma re_S_head a b rest :
  0 <= a <= 9 -> 0 <= b <= 9 -> 10 * a + b <= 61 ->
  exists l, re_S (digit_byte a :: digit_byte b :: rest) = (10 * a + b, rest) :: l.
Proof. intros Ha Hb Hv. field_head a b. Qed.

Lemma digit_in_digit_byte d :
  0 <= d <= 9 -> digit_in 0 9 (digit_byte d) = Some d.
Proof. intro H. digit_cases d; reflexivity. Qed.

Lemma digit_byte_plain d :
  0 <= d <= 9 ->
  is_space (digit_byte d) = false /\ (byte_val (digit_byte d) <? 128) = true.
Proof. intro H. digit_cases d; split; reflexivity. Qed.

Lemma digits_of_range : forall n v, Forall (fun d => 0 <= d <= 9) (digits_of n v).
Proof.
  induction n as [|n IH]; intro v; cbn [digits_of]; [constructor|].
  apply Forall_app. split; [apply IH|].
  constructor; [|constructor].
  pose proof (Z.mod_pos_bound v 10 ltac:(lia)). lia.
Qed.

Lemma digits_of_length : forall n v, List.length (digits_of n v) = n.
Proof.
  induction n as [|n IH]; intro v; cbn [digits_of]; [reflexivity|].
  rewrite length_app, IH. cbn [List.length]. lia.
Qed.

Lemma digits_of_value : forall n v,
    fold_left (fun acc d => acc * 10 + d) (digits_of n v) 0 = v mod 10 ^ Z.of_nat n.
Proof.
  induction n as [|n IH]; intro v.
  - cbn [digits_of fold_left]. change (10 ^ Z.of_nat 0) with 1.
    now rewrite Z.mod_1_r.
  - cbn [digits_of]. rewrite fold_left_app, IH. cbn [fold_left].
    rewrite Nat2Z.inj_succ, Z.pow_succ_r by lia.
    assert (Hp : 0 < 10 ^ Z.of_nat n) by (apply Z.pow_pos_nonneg; lia).
    rewrite Z.rem_mul_r by lia. lia.
Qed.

(** The greedy search of [[0-9]{1,6}] finds a run of six digits first. *)
Lemma digits_upto_head : forall ds rest,
    Forall (fun d => 0 <= d <= 9) ds ->
    exists l, digits_upto (List.length ds) (map digit_byte ds ++ rest)
              = (ds, rest) :: l.
Proof.
  induction ds as [|d ds IH]; intros rest Hf.
  - eexists. reflexivity.
  - inversion Hf as [|? ? Hd Hds]; subst.
    cbn [List.length map app digits_upto].
    rewrite (digit_in_digit_byte Hd).
    destruct (IH rest Hds) as [l ->]. cbn [map app]. eexists. reflexivity.
Qed.

Lemma re_f_head f :
  0 <= f <= 999999 ->
  exists l, re_f (map digit_byte (digits_of 6 f)) = (f, []) :: l.
Proof.
  intro Hf. unfold re_f.
  destruct (@digits_upto_head (digits_of 6 f) [] (digits_of_range 6 f)) as [l E].
  rewrite digits_of_length, app_nil_r in E. rewrite E. cbn [flat_map].
  assert (Hv : fraction_of (digits_of 6 f) = f).
  { unfold fraction_of. rewrite digits_of_length. cbn [Nat.sub repeat].
    rewrite app_nil_r, digits_of_value.
    change (10 ^ Z.of_nat 6) with 1000000. apply Z.mod_small. lia. }
  destruct (digits_of 6 f) as [|d ds] eqn:Ed.
  - apply (f_equal (@List.length _)) in Ed. rewrite digits_of_length in Ed.
    discriminate Ed.
  - rewrite Hv. cbn [app]. eexists. reflexivity.
Qed.

Lemma digits_of_two v :
  0 <= v <= 99 -> digits_of 2 v = [v / 10; v mod 10] /\ 0 <= v / 10 <= 9
                  /\ 0 <= v mod 10 <= 9 /\ 10 * (v / 10) + v mod 10 = v.
Proof.
  intro H. cbn [digits_of app].
  pose proof (Z.mod_pos_bound v 10 ltac:(lia)) as Hr.
  pose proof (Z.div_mod v 10 ltac:(lia)) as Hdm.
  assert (Hq : 0 <= v / 10 <= 9) by lia.
  rewrite (Z.mod_small (v / 10) 10) by lia.
  split; [reflexivity|]. split; [exact Hq|].
  lia.
Qed.

Lemma strip_plain b mid c :
  is_space b = false -> is_space c = false ->
  strip (b :: mid ++ [c]) = b :: mid ++ [c].
Proof.
  intros Hb Hc. unfold strip. cbn [lstrip]. rewrite Hb.
  change (b :: mid ++ [c]) with ((b :: mid) ++ [c]).
  rewrite rev_app_distr. cbn [rev app lstrip]. rewrite Hc.
  change (c :: rev mid ++ [b]) with (rev [c] ++ rev (b :: mid)).
  rewrite <- rev_app_distr, rev_involutive. reflexivity.
Qed.

Lemma re_timestamp_head yy m d hh mm ss f :
  0 <= yy <= 99 -> 1 <= m <= 12 -> 1 <= d <= 31 ->
  0 <= hh <= 23 -> 0 <= mm <= 59 -> 0 <= ss <= 59 -> 0 <= f <= 999999 ->
  exists l, re_timestamp (gpsu_text yy m d hh mm ss f)
            = (mk_fields yy m d hh mm ss f, []) :: l.
Proof.
  intros Hy Hm Hd HH HM HS Hf. unfold gpsu_text.
  destruct (digits_of_two Hy) as (-> & Y1 & Y2 & Yv).
  destruct (@digits_of_two m ltac:(lia)) as (-> & M1 & M2 & Mv).
  destruct (@digits_of_two d ltac:(lia)) as (-> & D1 & D2 & Dv).
  destruct (@digits_of_two hh ltac:(lia)) as (-> & H1 & H2 & Hv).
  destruct (@digits_of_two mm ltac:(lia)) as (-> & N1 & N2 & Nv).
  destruct (@digits_of_two ss ltac:(lia)) as (-> & S1 & S2 & Sv).
  cbn [app map]. unfold re_timestamp.
  destruct (@re_y_head _ _
              (digit_byte (m / 10) :: digit_byte (m mod 10)
               :: digit_byte (d / 10) :: digit_byte (d mod 10)
               :: digit_byte (hh / 10) :: digit_byte (hh mod 10)
               :: digit_byte (mm / 10) :: digit_byte (mm mod 10)
               :: digit_byte (ss / 10) :: digit_byte (ss mod 10)
               :: "."%byte :: map digit_byte (digits_of 6 f)) Y1 Y2) as [l1 ->].
  destruct (@re_m_head _ _
              (digit_byte (d / 10) :: digit_byte (d mod 10)
               :: digit_byte (hh / 10) :: digit_byte (hh mod 10)
               :: digit_byte (mm / 10) :: digit_byte (mm mod 10)
               :: digit_byte (ss / 10) :: digit_byte (ss mod 10)
               :: "."%byte :: map digit_byte (digits_of 6 f)) M1 M2 ltac:(lia))
    as [l2 E2].
  destruct (@re_d_head _ _
              (digit_byte (hh / 10) :: digit_byte (hh mod 10)
               :: digit_byte (mm / 10) :: digit_byte (mm mod 10)
               :: digit_byte (ss / 10) :: digit_byte (ss mod 10)
               :: "."%byte :: map digit_byte (digits_of 6 f)) D1 D2 ltac:(lia))
    as [l3 E3].
  destruct (@re_H_head _ _
              (digit_byte (mm / 10) :: digit_byte (mm mod 10)
               :: digit_byte (ss / 10) :: digit_byte (ss mod 10)
               :: "."%byte :: map digit_byte (digits_of 6 f)) H1 H2 ltac:(lia))
    as [l4 E4].
  destruct (@re_M_head _ _
              (digit_byte (ss / 10) :: digit_byte (ss mod 10)
               :: "."%byte :: map digit_byte (digits_of 6 f)) N1 N2 ltac:(lia))
    as [l5 E5].
  destruct (@re_S_head _ _
              ("."%byte :: map digit_byte (digits_of 6 f)) S1 S2 ltac:(lia))
    as [l6 E6].
  destruct (re_f_head Hf) as [l7 E7].
  cbn [flat_map]. rewrite E2. cbn [flat_map]. rewrite E3. cbn [flat_map].
  rewrite E4. cbn [flat_map]. rewrite E5. cbn [flat_map]. rewrite E6.
  cbn [flat_map]. change (re_dot ("."%byte :: ?s)) with [s]. cbn [flat_map].
  rewrite E7. cbn [map app]. rewrite Yv, Mv, Dv, Hv, Nv, Sv.
  eexists. reflexivity.
Qed.

Lemma days_in_month_le y m : 1 <= m <= 12 -> days_in_month y m <= 31.
Proof.
  intro Hm. unfold days_in_month. digit_cases_12 m;
    destruct (is_leap y); vm_compute; discriminate.
Qed.

Lemma digits_plain ds :
  Forall (fun d => 0 <= d <= 9) ds ->
  forallb (fun b => byte_val b <? 128) (map digit_byte ds) = true.
Proof.
  induction 1 as [|d ds Hd _ IH]; [reflexivity|].
  cbn [map forallb]. rewrite (proj2 (digit_byte_plain Hd)), IH. reflexivity.
Qed.

Lemma gpsu_text_plain yy m d hh mm ss f :
  0 <= yy <= 99 ->
  strip (gpsu_text yy m d hh mm ss f) = gpsu_text yy m d hh mm ss f
  /\ forallb (fun b => byte_val b <? 128) (gpsu_text yy m d hh mm ss f) = true.
Proof.
  intro Hy. split.
  - unfold gpsu_text. destruct (digits_of_two Hy) as (-> & Y1 & _).
    change (digits_of 6 f) with (digits_of 5 (f / 10) ++ [f mod 10]).
    rewrite (map_app digit_byte (digits_of 5 (f / 10))). cbn [app map].
    set (A := map digit_byte (digits_of 2 m ++ _)).
    set (B := map digit_byte (digits_of 5 (f / 10))).
    change (digit_byte (yy / 10) :: digit_byte (yy mod 10)
            :: A ++ "."%byte :: B ++ [digit_byte (f mod 10)])
      with (digit_byte (yy / 10)
            :: (digit_byte (yy mod 10) :: A) ++ ("."%byte :: B)
               ++ [digit_byte (f mod 10)]).
    rewrite app_assoc. apply strip_plain.
    + apply digit_byte_plain. lia.
    + apply digit_byte_plain. pose proof (Z.mod_pos_bound f 10 ltac:(lia)). lia.
  - unfold gpsu_text. rewrite forallb_app. cbn [forallb].
    rewrite !digits_plain; [reflexivity | apply digits_of_range |].
    repeat (apply Forall_app; split; [apply digits_of_range|]).
    apply digits_of_range.
Qed.

Lemma strptime_gpsu_text yy m d hh mm ss f :
  0 <= yy <= 99 -> 1 <= m <= 12 ->
  1 <= d <= days_in_month (if yy <=? 68 then yy + 2000 else yy + 1900) m ->
  0 <= hh <= 23 -> 0 <= mm <= 59 -> 0 <= ss <= 59 -> 0 <= f <= 999999 ->
  strptime (gpsu_text yy m d hh mm ss f)
  = Ok (mk_datetime (if yy <=? 68 then yy + 2000 else yy + 1900) m d hh mm ss f).
Proof.
  intros Hy Hm Hd HH HM HS Hf.
  pose proof (@days_in_month_le (if yy <=? 68 then yy + 2000 else yy + 1900) m Hm)
    as Hd31.
  unfold strptime.
  destruct (@re_timestamp_head yy m d hh mm ss f Hy Hm ltac:(lia) HH HM HS Hf)
    as [l ->].
  cbn [f_y f_m f_d f_H f_M f_S f_f].
  assert (E1 : (d <=? days_in_month (if yy <=? 68 then yy + 2000 else yy + 1900) m)
               = true) by (apply Z.leb_le; lia).
  assert (E2 : (ss <=? 59) = true) by (apply Z.leb_le; lia).
  rewrite E1, E2. reflexivity.
Qed.

(** X19. The text [yymmddHHMMSS.ffffff] of a date and a time of day is read back
    as that date and time, in the year 2000 + yy for yy up to 68 and
    1900 + yy from 69 on: nothing is stripped from the text, it decodes, and
    the first match of the search is the one that gives two digits to each
    of the six leading fields. *)
Theorem gpsu_text_is_read_back (yy m d hh mm ss f : Z) :
  0 <= yy <= 99 -> 1 <= m <= 12 ->
  1 <= d <= days_in_month (if yy <=? 68 then yy + 2000 else yy + 1900) m ->
  0 <= hh <= 23 -> 0 <= mm <= 59 -> 0 <= ss <= 59 -> 0 <= f <= 999999 ->
  parse_timestamp (gpsu_text yy m d hh mm ss f)
  = Ok (mk_datetime (if yy <=? 68 then yy + 2000 else yy + 1900) m d hh mm ss f).
Proof.
  intros Hy Hm Hd HH HM HS Hf. unfold parse_timestamp.
  destruct (@gpsu_text_plain yy m d hh mm ss f Hy) as [Hstrip Hascii].
  rewrite Hstrip, Hascii.
  apply strptime_gpsu_text; assumption.
Qed.

Lemma gpsu_text_is_read_back_witness :
  gpsu_text 21 6 15 12 0 1 0 = ascii_bytes "210615120001.000000"
  /\ parse_timestamp (gpsu_text 21 6 15 12 0 1 0)
     = Ok (mk_datetime 2021 6 15 12 0 1 0).
Proof.
  split; [vm_compute; reflexivity|].
  apply (@gpsu_text_is_read_back 21 6 15 12 0 1 0); vm_compute;
    split; intro H; discriminate H.
Defined.

(** ** GPS5 records *)

Lemma gps5_value_appends st s0 s1 s3 t gd ls dl :
  contains "GPS5" ls = true ->
  okay_to_record st = true ->
  gate (gps_fix st) (gps_accuracy st) = true ->
  current_data st = mk_row t (Some gd) ->
  nth_error (scales st) 0 = Some s0 -> nth_error (scales st) 1 = Some s1 ->
  nth_error (scales st) 3 = Some s3 ->
  s0 <> 0 -> s1 <> 0 -> s3 <> 0 ->
  (20 <= bytes_left st)%nat ->
  value_body ls 20 dl st
  = Ok (with_okay_to_record
          (with_current_data (snd (read_st 20 st))
             (mk_row t (Some (gd ++ [gps5_sample_of s0 s1 s3
                                       (firstn 20 (remaining (gopro_binary st)))]))))
          true).
Proof.
  intros H5 Ho Hg Hc H0 H1 H3 N0 N1 N3 Hlen.
  unfold value_body. rewrite H5.
  unfold gps5_value. change (negb (20 =? 20)) with false. cbv iota.
  unfold read_st at 1, read at 1. cbv beta iota.
  unfold unpack_iiiii.
  assert (Hq : Nat.eqb (List.length (firstn (Z.to_nat 20)
                                       (remaining (gopro_binary st)))) 20 = true).
  { rewrite length_firstn. unfold bytes_left in Hlen.
    apply Nat.eqb_eq. change (Z.to_nat 20) with 20%nat. lia. }
  rewrite Hq. cbv beta iota delta [bind].
  change (okay_to_record (with_io st ?x)) with (okay_to_record st).
  change (scales (with_io st ?x)) with (scales st).
  change (current_data (with_io st ?x)) with (current_data st).
  rewrite Ho. unfold scaled, list_index. rewrite H0, H1, H3.
  cbv beta iota delta [bind].
  apply Z.eqb_neq in N0, N1, N3. rewrite N0, N1, N3. rewrite Hc.
  cbv beta iota delta [bind getitem gps_data timestamp].
  match goal with
  | |- Ok (with_okay_to_record ?X _) = _ =>
      change (gps_fix X) with (gps_fix st);
      change (gps_accuracy X) with (gps_accuracy st)
  end.
  rewrite Hg. reflexivity.
Qed.

Lemma gps5_loop_spec ls dl s0 s1 s3 t : forall n st gd,
    contains "GPS5" ls = true ->
    okay_to_record st = true ->
    gate (gps_fix st) (gps_accuracy st) = true ->
    current_data st = mk_row t (Some gd) ->
    nth_error (scales st) 0 = Some s0 -> nth_error (scales st) 1 = Some s1 ->
    nth_error (scales st) 3 = Some s3 ->
    s0 <> 0 -> s1 <> 0 -> s3 <> 0 ->
    (20 * n <= bytes_left st)%nat ->
    exists st',
      values_loop n ls 20 dl st = Ok st'
      /\ current_data st'
         = mk_row t (Some (gd ++ gps5_samples n s0 s1 s3
                                   (remaining (gopro_binary st))))
      /\ remaining (gopro_binary st')
         = skipn (20 * n) (remaining (gopro_binary st))
      /\ scales st' = scales st /\ gps_fix st' = gps_fix st
      /\ gps_accuracy st' = gps_accuracy st /\ okay_to_record st' = true
      /\ data st' = data st.
Proof.
  induction n as [|n IH]; intros st gd H5 Ho Hg Hc H0 H1 H3 N0 N1 N3 Hlen.
  - exists st. cbn [values_loop gps5_samples]. rewrite app_nil_r.
    repeat split; try assumption; reflexivity.
  - cbn [values_loop].
    rewrite (@gps5_value_appends st s0 s1 s3 t gd ls dl H5 Ho Hg Hc H0 H1 H3
               N0 N1 N3 ltac:(lia)).
    cbv beta iota delta [bind].
    set (x := gps5_sample_of s0 s1 s3 (firstn 20 (remaining (gopro_binary st)))).
    set (st1 := with_okay_to_record
                  (with_current_data (snd (read_st 20 st))
                     (mk_row t (Some (gd ++ [x])))) true).
    assert (L1 : bytes_left st1 = (bytes_left st - 20)%nat)
      by apply (read_st_left 20 st).
    destruct (IH st1 (gd ++ [x]) H5 eq_refl Hg eq_refl H0 H1 H3 N0 N1 N3
                ltac:(lia))
      as (st' & E & Hcur & Hrem & Hs & Hf & Ha & Hok & Hd).
    exists st'. split; [exact E|]. split.
    { rewrite Hcur. cbn [gps5_samples]. rewrite <- app_assoc. reflexivity. }
    split.
    { rewrite Hrem.
      change (remaining (gopro_binary st1))
        with (skipn 20 (remaining (gopro_binary st))).
      rewrite skipn_skipn. f_equal. lia. }
    repeat split; assumption.
Qed.

(** X20. A GPS5 record of [n] values of twenty bytes, all in the source, read
    while the gate is open and a session is open, with [scales[0]],
    [scales[1]] and [scales[3]] present and not zero: the session receives
    [n] samples more, in the order of the payload, each with the first, the
    second and the fourth word of its value divided by those scales (the
    altitude and the 3D speed are read and dropped); nothing else changes
    but the position, which moves past the record. *)
Theorem gps5_record_appends_samples (st : parser) (ty : byte) (d2 d3 : Z)
    (s0 s1 s3 : Z) (t : option datetime) (gd : list gps_datum) :
  header_at st = Ok (ty, 20, d2, d3) ->
  byte_val ty <> 0 ->
  contains "EMPT" (next_label st) = false ->
  contains "SCAL" (next_label st) = false ->
  contains "GPS5" (next_label st) = true ->
  okay_to_record st = true ->
  gate (gps_fix st) (gps_accuracy st) = true ->
  current_data st = mk_row t (Some gd) ->
  nth_error (scales st) 0 = Some s0 -> nth_error (scales st) 1 = Some s1 ->
  nth_error (scales st) 3 = Some s3 ->
  s0 <> 0 -> s1 <> 0 -> s3 <> 0 ->
  8 + 20 * Z.lor (Z.shiftl d2 8) d3 <= Z.of_nat (bytes_left st) ->
  exists st',
    iteration st = Next st'
    /\ current_data st'
       = mk_row t (Some (gd ++ gps5_samples (Z.to_nat (Z.lor (Z.shiftl d2 8) d3))
                                 s0 s1 s3
                                 (skipn 8 (remaining (gopro_binary st)))))
    /\ remaining (gopro_binary st')
       = skipn (8 + 20 * Z.to_nat (Z.lor (Z.shiftl d2 8) d3))
           (remaining (gopro_binary st))
    /\ scales st' = scales st /\ gps_fix st' = gps_fix st
    /\ gps_accuracy st' = gps_accuracy st /\ okay_to_record st' = true
    /\ data st' = data st.
Proof.
  intros Hh Hty HE HS H5 Ho Hg Hc H0 H1 H3 N0 N1 N3 Hlen.
  destruct (header_at_range _ Hh) as (R1 & R2 & R3).
  pose proof (@num_values_nonneg d2 d3 ltac:(lia) ltac:(lia)) as Hn.
  assert (Hty' : (byte_val ty =? 0) = false) by (apply Z.eqb_neq; exact Hty).
  rewrite iteration_unfold, Hh. unfold record_body. rewrite Hty', HE, HS.
  set (n := Z.lor (Z.shiftl d2 8) d3) in *.
  set (st2 := snd (read_st 4 (snd (read_st 4 st)))).
  assert (L2 : bytes_left st2 = (bytes_left st - 8)%nat).
  { unfold st2. rewrite !read_st_left. change (Z.to_nat 4) with 4%nat. lia. }
  destruct (@gps5_loop_spec (next_label st) (20 * n) s0 s1 s3 t (Z.to_nat n)
              st2 gd H5 Ho Hg Hc H0 H1 H3 N0 N1 N3 ltac:(lia))
    as (st3 & E & Hcur & Hrem & Hs & Hf & Ha & Hok & Hd).
  rewrite E.
  assert (Hpad : skip_padding (20 * n) st3 = st3).
  { unfold skip_padding. cbv zeta.
    replace ((20 * n) mod 4) with 0; [reflexivity|].
    symmetry. apply Z.mod_divide; [lia|]. exists (5 * n). lia. }
  rewrite Hpad. exists st3. split; [reflexivity|]. split.
  { rewrite Hcur. unfold st2. rewrite skipn_read_read. reflexivity. }
  split.
  { rewrite Hrem. unfold st2. rewrite skipn_read_read, skipn_skipn.
    f_equal. lia. }
  repeat split; assumption.
Qed.

Lemma gps5_record_appends_samples_witness :
  exists st',
    iteration round_trip_before_gps5 = Next st'
    /\ current_data st'
       = mk_row (Some (mk_datetime 2021 6 15 12 0 0 0))
           (Some [mk_datum 100000 200000 500 None;
                  mk_datum 100010 200010 520 None]).
Proof.
  destruct (@gps5_record_appends_samples round_trip_before_gps5 "l"%byte 0 2
              1 1 1 (Some (mk_datetime 2021 6 15 12 0 0 0)) []
              ltac:(vm_compute; reflexivity) ltac:(vm_compute; discriminate)
              ltac:(vm_compute; reflexivity) ltac:(vm_compute; reflexivity)
              ltac:(vm_compute; reflexivity) ltac:(vm_compute; reflexivity)
              ltac:(vm_compute; reflexivity) ltac:(vm_compute; reflexivity)
              ltac:(vm_compute; reflexivity) ltac:(vm_compute; reflexivity)
              ltac:(vm_compute; reflexivity)
              ltac:(discriminate) ltac:(discriminate) ltac:(discriminate)
              ltac:(vm_compute; discriminate))
    as (st' & Hit & Hc & _).
  exists st'. split; [exact Hit|]. rewrite Hc. vm_compute. reflexivity.
Defined.

(** ** What holds at the head of the loop *)

(** X21. In every state the loop reaches from the initial one, [okay_to_record]
    is the gate on the current [gps_fix] and [gps_accuracy], and
    [current_data] is either [{}] or a dictionary with both keys: line 91
    never raises, and line 88 raises only while no session was opened. *)
Theorem loop_head_invariants (io : bytesio) (st : parser) :
  steps (initial io) st ->
  okay_to_record st = gate (gps_fix st) (gps_accuracy st)
  /\ (current_data st = empty_dict
      \/ exists t gd, current_data st = mk_row (Some t) (Some gd)).
Proof.
  intro Hs. split.
  - exact (proj2 (proj2 (seen_registers (seen_steps Hs)))).
  - exact (proj2 (steps_sessions_ok Hs (initial_sessions_ok io))).
Qed.

Lemma loop_head_invariants_witness :
  steps (initial (BytesIO round_trip_stream)) round_trip_final
  /\ okay_to_record round_trip_final = true
  /\ exists t gd, current_data round_trip_final = mk_row (Some t) (Some gd).
Proof.
  assert (H : steps (initial (BytesIO round_trip_stream)) round_trip_final)
    by (apply (@passes_steps 6); vm_compute; reflexivity).
  split; [exact H|].
  destruct (@loop_head_invariants _ _ H) as [Hg Hc]. split.
  - rewrite Hg. vm_compute. reflexivity.
  - destruct Hc as [Hc|Hc]; [vm_compute in Hc; discriminate Hc | exact Hc].
Defined.

(** ** From the timestamp read to the time written *)

Lemma In_ordinals_from : forall n first z,
    first <= z < first + Z.of_nat n -> In z (ordinals_from n first).
Proof.
  induction n as [|n IH]; intros first z H; [lia|].
  cbn [ordinals_from]. destruct (Z.eq_dec first z) as [E|E]; [left; exact E|].
  right. apply IH. lia.
Qed.

(** Every day of every month of the years 1969 to 2068 is read back. *)
Lemma dates_read_back :
  forallb (fun year =>
    forallb (fun month =>
      forallb (date_read_back year month)
        (ordinals_from (Z.to_nat (days_in_month year month)) 1))
      (ordinals_from 12 1))
    (ordinals_from 100 1969) = true.
Proof. vm_compute. reflexivity. Qed.

Lemma ord2ymd_ymd2ord year month day :
  1969 <= year <= 2068 -> 1 <= month <= 12 ->
  1 <= day <= days_in_month year month ->
  ord2ymd (ymd2ord year month day) = (year, month, day).
Proof.
  intros Hy Hm Hd. pose proof dates_read_back as H.
  rewrite forallb_forall in H.
  specialize (H year (@In_ordinals_from 100 1969 year ltac:(lia))).
  rewrite forallb_forall in H.
  specialize (H month (@In_ordinals_from 12 1 month ltac:(lia))).
  rewrite forallb_forall in H.
  specialize (H day (@In_ordinals_from (Z.to_nat (days_in_month year month)) 1 day ltac:(lia))).
  unfold date_read_back in H.
  destruct (ord2ymd (ymd2ord year month day)) as [[y m] d].
  apply andb_true_iff in H. destruct H as [H H3].
  apply andb_true_iff in H. destruct H as [H1 H2].
  apply Z.eqb_eq in H1, H2, H3. congruence.
Qed.

(** X22. The time that [make_gpx] writes for a timestamp made of a date of the
    years 1969 to 2068 and a time of day is that date and time, the
    microseconds dropped: what [strptime] reads from a GPSU payload,
    [strftime] writes back field by field. *)
Theorem written_time_is_the_time_read (year month day hh mm ss f : Z) :
  1969 <= year <= 2068 -> 1 <= month <= 12 ->
  1 <= day <= days_in_month year month ->
  0 <= hh <= 23 -> 0 <= mm <= 59 -> 0 <= ss <= 59 -> 0 <= f <= 999999 ->
  strftime_iso (mk_datetime year month day hh mm ss f)
  = (pad4 year ++ "-" ++ pad2 month ++ "-" ++ pad2 day ++ "T"
     ++ pad2 hh ++ ":" ++ pad2 mm ++ ":" ++ pad2 ss ++ "Z")%string.
Proof.
  intros Hy Hm Hd HH HM HS Hf. unfold strftime_iso.
  rewrite day_of_seconds, second_of_day.
  set (secs := hh * 3600 + mm * 60 + ss).
  assert (Hs : mk_datetime year month day hh mm ss f / us_per_second
               = ymd2ord year month day * 86400 + secs).
  { unfold mk_datetime, us_per_second, secs.
    symmetry. apply (Z.div_unique _ _ _ f); lia. }
  rewrite Hs.
  assert (Hday : (ymd2ord year month day * 86400 + secs) / 86400
                 = ymd2ord year month day)
    by (symmetry; apply (Z.div_unique _ _ _ secs); unfold secs; lia).
  assert (Hsec : (ymd2ord year month day * 86400 + secs) mod 86400 = secs)
    by (symmetry; apply (Z.mod_unique _ _ (ymd2ord year month day)); unfold secs; lia).
  rewrite Hday, Hsec, (ord2ymd_ymd2ord Hy Hm Hd).
  assert (E1 : secs / 3600 = hh)
    by (symmetry; apply (Z.div_unique _ _ _ (mm * 60 + ss)); unfold secs; lia).
  assert (E2 : secs mod 3600 / 60 = mm).
  { assert (E : secs mod 3600 = mm * 60 + ss)
      by (symmetry; apply (Z.mod_unique _ _ hh); unfold secs; lia).
    rewrite E. symmetry. apply (Z.div_unique _ _ _ ss); lia. }
  assert (E3 : secs mod 60 = ss)
    by (symmetry; apply (Z.mod_unique _ _ (hh * 60 + mm)); unfold secs; lia).
  rewrite E1, E2, E3. reflexivity.
Qed.

Lemma written_time_is_the_time_read_witness :
  strftime_iso (mk_datetime 2021 6 15 12 0 1 500000)
  = "2021-06-15T12:00:01Z"%string.
Proof.
  rewrite written_time_is_the_time_read;
    [reflexivity | lia | lia | vm_compute; split; intro H; discriminate H
     | lia | lia | lia | lia].
Defined.

(** ** From a stream of one session to its points *)

(** ** Big-endian words *)

Lemma byte_val_byte_of_Z z : 0 <= z < 256 -> byte_val (byte_of_Z z) = z.
Proof.
  intro H. unfold byte_val, byte_of_Z.
  destruct (Byte.of_N (Z.to_N z)) as [b|] eqn:E.
  - apply Byte.to_of_N in E. rewrite E. lia.
  - apply Byte.of_N_None_iff in E. lia.
Qed.

Lemma be_uint_be_2 z : 0 <= z < 65536 -> be_uint (be 2 z) = z.
Proof.
  intro H.
  change (be 2 z) with [byte_of_Z (z mod 65536 / 256 mod 256);
                        byte_of_Z (z mod 65536 / 1 mod 256)].
  cbn [be_uint fold_left].
  rewrite !byte_val_byte_of_Z by (apply Z.mod_pos_bound; lia).
  rewrite (Z.mod_small z 65536) by lia. rewrite Z.div_1_r.
  rewrite (Z.mod_small (z / 256) 256)
    by (split; [apply Z.div_pos; lia | apply Z.div_lt_upper_bound; lia]).
  pose proof (Z.div_mod z 256 ltac:(lia)). lia.
Qed.

Lemma be_uint_be_4 z : 0 <= z < 4294967296 -> be_uint (be 4 z) = z.
Proof.
  intro H.
  change (be 4 z) with [byte_of_Z (z mod 4294967296 / 16777216 mod 256);
                        byte_of_Z (z mod 4294967296 / 65536 mod 256);
                        byte_of_Z (z mod 4294967296 / 256 mod 256);
                        byte_of_Z (z mod 4294967296 / 1 mod 256)].
  cbn [be_uint fold_left].
  rewrite !byte_val_byte_of_Z by (apply Z.mod_pos_bound; lia).
  rewrite (Z.mod_small z 4294967296) by lia. rewrite Z.div_1_r.
  change 16777216 with (256 * (256 * 256)). change 65536 with (256 * 256).
  rewrite <- !Z.div_div by lia.
  set (a := z / 256). set (b := a / 256). set (c := b / 256).
  pose proof (Z.div_mod z 256 ltac:(lia)) as E0.
  pose proof (Z.div_mod a 256 ltac:(lia)) as E1.
  pose proof (Z.div_mod b 256 ltac:(lia)) as E2.
  pose proof (Z.mod_pos_bound z 256 ltac:(lia)) as B0.
  pose proof (Z.mod_pos_bound a 256 ltac:(lia)) as B1.
  pose proof (Z.mod_pos_bound b 256 ltac:(lia)) as B2.
  fold a in E0. fold b in E1. fold c in E2.
  assert (Hc : 0 <= c < 256) by lia.
  rewrite (Z.mod_small c 256) by lia. lia.
Qed.

Lemma be_int32_be_4 z : - 2147483648 <= z < 2147483648 -> be_int32 (be 4 z) = z.
Proof.
  intro H. unfold be_int32.
  assert (E : be 4 z = be 4 (z mod 4294967296)).
  { unfold be. apply map_ext. intro i.
    change (2 ^ (8 * Z.of_nat 4)) with 4294967296.
    now rewrite Z.mod_mod by lia. }
  rewrite E, be_uint_be_4 by (apply Z.mod_pos_bound; lia).
  change (2 ^ 31) with 2147483648. change (2 ^ 32) with 4294967296.
  destruct (Z.le_gt_cases 0 z) as [P|N].
  - rewrite Z.mod_small by lia.
    destruct (Z.ltb_spec z 2147483648); lia.
  - assert (Hm : z + 4294967296 = z mod 4294967296)
      by (apply (Z.mod_unique _ _ (-1)); lia).
    rewrite <- Hm. destruct (Z.ltb_spec (z + 4294967296) 2147483648); lia.
Qed.

Lemma count_of_be_2 n :
  0 <= n < 65536 ->
  be 2 n = [byte_of_Z (n / 256); byte_of_Z (n mod 256)]
  /\ Z.lor (Z.shiftl (byte_val (byte_of_Z (n / 256))) 8)
       (byte_val (byte_of_Z (n mod 256))) = n.
Proof.
  intro H.
  assert (Hq : 0 <= n / 256 < 256)
    by (split; [apply Z.div_pos; lia | apply Z.div_lt_upper_bound; lia]).
  pose proof (Z.mod_pos_bound n 256 ltac:(lia)) as Hr.
  split.
  - change (be 2 n) with [byte_of_Z (n mod 65536 / 256 mod 256);
                          byte_of_Z (n mod 65536 / 1 mod 256)].
    rewrite (Z.mod_small n 65536) by lia. rewrite Z.div_1_r.
    now rewrite (Z.mod_small (n / 256) 256) by lia.
  - rewrite !byte_val_byte_of_Z by lia.
    rewrite Z.shiftl_mul_pow2 by lia. change (2 ^ 8) with 256.
    rewrite <- Z.lxor_lor, <- Z.add_nocarry_lxor.
    + pose proof (Z.div_mod n 256 ltac:(lia)). lia.
    + apply Z.bits_inj'. intros i Hi. rewrite Z.land_spec, Z.bits_0.
      change 256 with (2 ^ 8).
      destruct (Z.lt_ge_cases i 8) as [L|G].
      * rewrite Z.mul_pow2_bits_low by lia. reflexivity.
      * rewrite (Z.mod_pow2_bits_high n 8 i) by lia. apply andb_false_r.
    + apply Z.bits_inj'. intros i Hi. rewrite Z.land_spec, Z.bits_0.
      change 256 with (2 ^ 8).
      destruct (Z.lt_ge_cases i 8) as [L|G].
      * rewrite Z.mul_pow2_bits_low by lia. reflexivity.
      * rewrite (Z.mod_pow2_bits_high n 8 i) by lia. apply andb_false_r.
Qed.

(** ** The passes over the records of a stream *)

Lemma at_record st lab b0 b1 b2 b3 rest :
  remaining (gopro_binary st) = lab ++ b0 :: b1 :: b2 :: b3 :: rest ->
  List.length lab = 4%nat ->
  next_label st = str_of_bytes lab
  /\ header_at st = Ok (b0, byte_val b1, byte_val b2, byte_val b3)
  /\ remaining (gopro_binary (snd (read_st 4 (snd (read_st 4 st))))) = rest
  /\ bytes_left st = (8 + List.length rest)%nat.
Proof.
  intros Hrem Hlen.
  destruct lab as [|c0 [|c1 [|c2 [|c3 [|c4 lab]]]]]; try discriminate Hlen.
  unfold next_label, header_at, bytes_left.
  rewrite skipn_read_read, !read_st_bytes, read_st_remaining, Hrem.
  repeat split.
Qed.

Lemma be_2_bytes z :
  0 <= z < 65536 ->
  be 2 z = [byte_of_Z (z / 256); byte_of_Z (z mod 256)]
  /\ be_uint [byte_of_Z (z / 256); byte_of_Z (z mod 256)] = z.
Proof.
  intro H. destruct (count_of_be_2 H) as [E _]. split; [exact E|].
  rewrite <- E. now apply be_uint_be_2.
Qed.

Lemma pass_scal st s0 s1 s2 s3 rest sc fx ac ok dt cur :
  parser_at st (header "SCAL" "s" 2 4 ++ be 2 s0 ++ be 2 s1 ++ be 2 s2
                ++ be 2 s3 ++ rest) sc fx ac ok dt cur ->
  0 <= s0 < 65536 -> 0 <= s1 < 65536 -> 0 <= s2 < 65536 -> 0 <= s3 < 65536 ->
  exists st',
    iteration st = Next st' /\ parser_at st' rest [s0; s1; s2; s3] fx ac ok dt cur.
Proof.
  intros (Hrem & Hsc & Hfx & Hac & Hok & Hdt & Hcur) R0 R1 R2 R3.
  destruct (be_2_bytes R0) as [E0 V0]. destruct (be_2_bytes R1) as [E1 V1].
  destruct (be_2_bytes R2) as [E2 V2]. destruct (be_2_bytes R3) as [E3 V3].
  rewrite E0, E1, E2, E3 in Hrem.
  change (header "SCAL" "s" 2 4)
    with (ascii_bytes "SCAL" ++ ["s"; "002"; "000"; "004"]%byte) in Hrem.
  rewrite <- app_assoc in Hrem. cbn [app] in Hrem.
  destruct (@at_record st _ _ _ _ _ _ Hrem eq_refl) as (Hl & Hh & Hr2 & Hlen).
  rewrite iteration_unfold, Hh, Hl. unfold record_body.
  change (byte_val "s" =? 0) with false.
  change (contains "EMPT" (str_of_bytes (ascii_bytes "SCAL"))) with false.
  change (contains "SCAL" (str_of_bytes (ascii_bytes "SCAL"))) with true.
  cbv beta iota zeta.
  change (Z.lor (Z.shiftl (byte_val "000") 8) (byte_val "004")) with 4.
  change (byte_val "002") with 2.
  set (st2 := snd (read_st 4 (snd (read_st 4 st)))) in *.
  destruct (@scal_loop_spec 2 (Z.to_nat 4) (with_scales st2 []) ltac:(left; reflexivity))
    as (st3 & E & Hs & Hr & Hf & Ha & Ho & Hd & Hc).
  { change (bytes_left (with_scales st2 [])) with (bytes_left st2).
    unfold bytes_left. rewrite Hr2. cbn [List.length]. 
    change (Z.to_nat 4) with 4%nat. change (Z.to_nat 2) with 2%nat. lia. }
  rewrite E. eexists. split; [reflexivity|].
  assert (Hpad : skip_padding (2 * 4) st3 = st3) by reflexivity.
  rewrite Hpad.
  change (remaining (gopro_binary (with_scales st2 [])))
    with (remaining (gopro_binary st2)) in Hs, Hr.
  rewrite Hr2 in Hs, Hr.
  change (Z.to_nat 4) with 4%nat in Hs, Hr. change (Z.to_nat 2) with 2%nat in Hs, Hr.
  cbn [scale_values firstn skipn app Nat.mul Nat.add] in Hs, Hr.
  rewrite V0, V1, V2, V3 in Hs.
  unfold parser_at. rewrite Hs, Hr, Hf, Ha, Ho, Hd, Hc.
  repeat split; assumption.
Qed.

Lemma be_4_bytes z :
  0 <= z < 4294967296 ->
  exists b0 b1 b2 b3, be 4 z = [b0; b1; b2; b3] /\ be_uint [b0; b1; b2; b3] = z.
Proof.
  intro H. do 4 eexists. split; [reflexivity|].
  exact (be_uint_be_4 H).
Qed.

Lemma pass_gpsf st v rest sc fx ac ok dt cur :
  parser_at st (header "GPSF" "L" 4 1 ++ be 4 v ++ rest) sc fx ac ok dt cur ->
  0 <= v < 4294967296 ->
  exists st',
    iteration st = Next st' /\ parser_at st' rest sc v ac (gate v ac) dt cur.
Proof.
  intros (Hrem & Hsc & Hfx & Hac & Hok & Hdt & Hcur) Rv.
  destruct (be_4_bytes Rv) as (b0 & b1 & b2 & b3 & E & V).
  rewrite E in Hrem.
  change (header "GPSF" "L" 4 1)
    with (ascii_bytes "GPSF" ++ ["L"; "004"; "000"; "001"]%byte) in Hrem.
  rewrite <- app_assoc in Hrem. cbn [app] in Hrem.
  destruct (@at_record st _ _ _ _ _ _ Hrem eq_refl) as (Hl & Hh & Hr2 & Hlen).
  destruct (@gpsf_record st "L"%byte Hl Hh ltac:(discriminate)
              ltac:(rewrite Hlen; cbn [List.length]; lia))
    as (st' & Hit & Hf' & Ha' & Ho' & Hs' & Hd' & Hc' & Hr').
  exists st'. split; [exact Hit|].
  change (ascii_bytes "GPSF") with ["G"; "P"; "S"; "F"]%byte in Hrem.
  rewrite Hrem in Hf', Ho', Hr'. cbn [skipn firstn app] in Hf', Ho', Hr'.
  unfold parser_at. rewrite Hr', Hs', Hf', Ha', Ho', Hd', Hc', V, Hac.
  repeat split; assumption.
Qed.

Lemma pass_gpsp st v rest sc fx ac ok dt cur :
  parser_at st (header "GPSP" "S" 2 1 ++ be 2 v ++ be 2 0 ++ rest)
    sc fx ac ok dt cur ->
  0 <= v < 65536 ->
  exists st',
    iteration st = Next st' /\ parser_at st' rest sc fx v (gate fx v) dt cur.
Proof.
  intros (Hrem & Hsc & Hfx & Hac & Hok & Hdt & Hcur) Rv.
  destruct (be_2_bytes Rv) as [E V]. rewrite E in Hrem.
  change (header "GPSP" "S" 2 1)
    with (ascii_bytes "GPSP" ++ ["S"; "002"; "000"; "001"]%byte) in Hrem.
  change (be 2 0) with ["000"; "000"]%byte in Hrem.
  rewrite <- app_assoc in Hrem. cbn [app] in Hrem.
  destruct (@at_record st _ _ _ _ _ _ Hrem eq_refl) as (Hl & Hh & Hr2 & Hlen).
  destruct (@gpsp_record st "S"%byte Hl Hh ltac:(discriminate)
              ltac:(rewrite Hlen; cbn [List.length]; lia))
    as (st' & Hit & Ha' & Hf' & Ho' & Hs' & Hd' & Hc' & Hr').
  exists st'. split; [exact Hit|].
  change (ascii_bytes "GPSP") with ["G"; "P"; "S"; "P"]%byte in Hrem.
  rewrite Hrem in Ha', Ho', Hr'. cbn [skipn firstn app] in Ha', Ho', Hr'.
  unfold parser_at. rewrite Hr', Hs', Hf', Ha', Ho', Hd', Hc', V, Hfx.
  repeat split; assumption.
Qed.

Lemma parse_timestamp_fields (t : ts_fields) :
  fields_ok t ->
  parse_timestamp (gpsu_text (f_y t) (f_m t) (f_d t) (f_H t) (f_M t) (f_S t) (f_f t))
  = Ok (datetime_of t).
Proof.
  intros (Hy & Hm & Hd & HH & HM & HS & Hf). unfold parse_timestamp.
  destruct (@gpsu_text_plain (f_y t) (f_m t) (f_d t) (f_H t) (f_M t) (f_S t)
              (f_f t) Hy) as [Hstrip Hascii].
  rewrite Hstrip, Hascii.
  apply strptime_gpsu_text; assumption.
Qed.

Lemma read_st_app n st p rest :
  remaining (gopro_binary st) = p ++ rest -> List.length p = Z.to_nat n ->
  fst (read_st n st) = p /\ remaining (gopro_binary (snd (read_st n st))) = rest.
Proof.
  intros Hrem Hlen. rewrite read_st_bytes, read_st_remaining, Hrem, <- Hlen.
  split.
  - rewrite firstn_app, Nat.sub_diag, firstn_all. cbn [firstn]. apply app_nil_r.
  - rewrite skipn_app, Nat.sub_diag, skipn_all. reflexivity.
Qed.

Lemma pass_gpsu st t rest sc fx ac ok dt cur :
  parser_at st (gpsu_record t ++ rest) sc fx ac ok dt cur ->
  fields_ok t -> current_ok cur ->
  exists st',
    iteration st = Next st'
    /\ parser_at st' rest sc fx ac (gate fx ac)
         (match samples_of cur with [] => dt | _ :: _ => dt ++ [cur] end)
         (mk_row (Some (datetime_of t)) (Some [])).
Proof.
  intros (Hrem & Hsc & Hfx & Hac & Hok & Hdt & Hcur) Ht Hc.
  pose proof (parse_timestamp_fields Ht) as Hparse.
  unfold gpsu_record in Hrem.
  set (p := gpsu_text (f_y t) (f_m t) (f_d t) (f_H t) (f_M t) (f_S t) (f_f t)) in *.
  assert (Hp : List.length p = 19%nat) by reflexivity.
  clearbody p.
  change (header "GPSU" "U" 19 1)
    with (ascii_bytes "GPSU" ++ ["U"; "019"; "000"; "001"]%byte) in Hrem.
  change (be 1 0) with ["000"%byte] in Hrem.
  rewrite <- !app_assoc in Hrem. cbn [app] in Hrem.
  destruct (@at_record st _ _ _ _ _ _ Hrem eq_refl) as (Hl & Hh & Hr2 & Hlen).
  rewrite iteration_unfold, Hh, Hl. unfold record_body.
  change (byte_val "U" =? 0) with false.
  change (contains "EMPT" (str_of_bytes (ascii_bytes "GPSU"))) with false.
  change (contains "SCAL" (str_of_bytes (ascii_bytes "GPSU"))) with false.
  cbv beta iota zeta.
  change (Z.lor (Z.shiftl (byte_val "000") 8) (byte_val "001")) with 1.
  change (byte_val "019") with 19. change (19 * 1) with 19.
  change (Z.to_nat 1) with 1%nat.
  set (st2 := snd (read_st 4 (snd (read_st 4 st)))) in *.
  cbn [values_loop]. unfold value_body.
  change (contains "GPS5" (str_of_bytes (ascii_bytes "GPSU"))) with false.
  change (contains "GPSU" (str_of_bytes (ascii_bytes "GPSU"))) with true.
  cbv beta iota. unfold gpsu_value.
  change (current_data st2) with (current_data st). rewrite Hcur.
  assert (Hkeep : (if dict_truth cur
                   then gd <- getitem (gps_data cur) ;;
                        Ok (negb (Nat.eqb (List.length gd) 0))
                   else Ok false)
                  = Ok (match samples_of cur with [] => false | _ :: _ => true end)).
  { destruct Hc as [-> | (t0 & gd & ->)]; [reflexivity|].
    destruct gd; reflexivity. }
  rewrite Hkeep. cbv beta iota delta [bind].
  set (st2' := if match samples_of cur with [] => false | _ :: _ => true end
               then with_data st2 (data st2 ++ [cur]) else st2).
  assert (Hr2' : remaining (gopro_binary st2') = p ++ "000"%byte :: rest)
    by (unfold st2'; destruct (samples_of cur); exact Hr2).
  assert (Hd2' : data st2'
                 = match samples_of cur with [] => dt | _ :: _ => dt ++ [cur] end).
  { unfold st2'. destruct (samples_of cur).
    - exact Hdt.
    - cbn [data with_data]. change (data st2) with (data st). now rewrite Hdt. }
  assert (Hf2' : scales st2' = sc /\ gps_fix st2' = fx /\ gps_accuracy st2' = ac)
    by (unfold st2'; destruct (samples_of cur); repeat split; assumption).
  destruct Hf2' as (Hs2' & Hx2' & Ha2').
  clearbody st2'.
  destruct (@read_st_app 19 st2' p ("000"%byte :: rest) Hr2' Hp) as [Hb Hr3].
  rewrite (surjective_pairing (read_st 19 st2')), Hb, Hparse.
  cbv beta iota delta [bind].
  eexists. split; [reflexivity|].
  unfold skip_padding. change (19 mod 4 =? 0) with false. cbv beta iota zeta.
  change (4 - 19 mod 4) with 1.
  unfold parser_at. rewrite read_st_remaining.
  change (remaining (gopro_binary (with_okay_to_record (with_current_data ?x ?r) ?b)))
    with (remaining (gopro_binary x)).
  rewrite Hr3.
  change (scales (snd (read_st 1 (with_okay_to_record
            (with_current_data (snd (read_st 19 st2')) ?r) ?b)))) with (scales st2').
  change (gps_fix (snd (read_st 1 (with_okay_to_record
            (with_current_data (snd (read_st 19 st2')) ?r) ?b)))) with (gps_fix st2').
  change (gps_accuracy (snd (read_st 1 (with_okay_to_record
            (with_current_data (snd (read_st 19 st2')) ?r) ?b))))
    with (gps_accuracy st2').
  change (data (snd (read_st 1 (with_okay_to_record
            (with_current_data (snd (read_st 19 st2')) ?r) ?b)))) with (data st2').
  change (okay_to_record (snd (read_st 1 (with_okay_to_record
            (with_current_data (snd (read_st 19 st2')) ?r) ?b)))) with b.
  change (current_data (snd (read_st 1 (with_okay_to_record
            (with_current_data (snd (read_st 19 st2')) ?r) ?b)))) with r.
  change (gps_fix (with_current_data (snd (read_st 19 st2')) ?r)) with (gps_fix st2').
  change (gps_accuracy (with_current_data (snd (read_st 19 st2')) ?r))
    with (gps_accuracy st2').
  rewrite Hs2', Hx2', Ha2', Hd2'. repeat split.
Qed.

Lemma gps5_sample_length lat lon alt speed speed3d :
  List.length (gps5_sample lat lon alt speed speed3d) = 20%nat.
Proof. reflexivity. Qed.

Lemma gps5_payload_length samples :
  List.length (gps5_payload samples) = (20 * List.length samples)%nat.
Proof.
  unfold gps5_payload. induction samples as [|[[[[lat lon] alt] speed] speed3d] ws IH].
  - reflexivity.
  - cbn [flat_map]. rewrite length_app, IH, gps5_sample_length.
    cbn [List.length]. lia.
Qed.

Lemma gps5_sample_words lat lon alt speed speed3d s0 s1 s3 :
  sample_ok (lat, lon, alt, speed, speed3d) ->
  gps5_sample_of s0 s1 s3 (gps5_sample lat lon alt speed speed3d)
  = sample_datum s0 s1 s3 (lat, lon, alt, speed, speed3d).
Proof.
  intros (Hlat & Hlon & _ & Hsp & _). unfold gps5_sample_of, sample_datum.
  change (firstn 4 (gps5_sample lat lon alt speed speed3d)) with (be 4 lat).
  change (firstn 4 (skipn 4 (gps5_sample lat lon alt speed speed3d)))
    with (be 4 lon).
  change (firstn 4 (skipn 12 (gps5_sample lat lon alt speed speed3d)))
    with (be 4 speed).
  now rewrite !be_int32_be_4.
Qed.

Lemma gps5_samples_payload s0 s1 s3 rest : forall samples,
    Forall sample_ok samples ->
    gps5_samples (List.length samples) s0 s1 s3 (gps5_payload samples ++ rest)
    = map (sample_datum s0 s1 s3) samples.
Proof.
  induction samples as [|[[[[lat lon] alt] speed] speed3d] ws IH]; intro Hf.
  - reflexivity.
  - inversion Hf as [|? ? Hw Hws]; subst.
    cbn [List.length gps5_samples map]. unfold gps5_payload. cbn [flat_map].
    fold (gps5_payload ws). rewrite <- app_assoc.
    rewrite firstn_app, skipn_app, gps5_sample_length, Nat.sub_diag.
    rewrite firstn_all2, skipn_all2 by (rewrite gps5_sample_length; lia).
    cbn [firstn skipn app]. rewrite app_nil_r.
    rewrite (gps5_sample_words s0 s1 s3 Hw), (IH Hws). reflexivity.
Qed.

Lemma pass_gps5 st samples rest s0 s1 s2 s3 fx ac dt t gd :
  parser_at st (header "GPS5" "l" 20 (Z.of_nat (List.length samples))
                ++ gps5_payload samples ++ rest)
    [s0; s1; s2; s3] fx ac true dt (mk_row t (Some gd)) ->
  Z.of_nat (List.length samples) < 65536 ->
  Forall sample_ok samples ->
  gate fx ac = true -> s0 <> 0 -> s1 <> 0 -> s3 <> 0 ->
  exists st',
    iteration st = Next st'
    /\ parser_at st' rest [s0; s1; s2; s3] fx ac true dt
         (mk_row t (Some (gd ++ map (sample_datum s0 s1 s3) samples))).
Proof.
  intros (Hrem & Hsc & Hfx & Hac & Hok & Hdt & Hcur) Hn Hws Hg N0 N1 N3.
  set (n := Z.of_nat (List.length samples)) in *.
  destruct (@count_of_be_2 n ltac:(lia)) as [E V].
  change (header "GPS5" "l" 20 n)
    with (ascii_bytes "GPS5" ++ ["l"; "020"]%byte ++ be 2 n) in Hrem.
  rewrite E in Hrem. rewrite <- !app_assoc in Hrem. cbn [app] in Hrem.
  destruct (@at_record st _ _ _ _ _ _ Hrem eq_refl) as (Hl & Hh & Hr2 & Hlen).
  rewrite iteration_unfold, Hh, Hl. unfold record_body.
  change (byte_val "l" =? 0) with false.
  change (contains "EMPT" (str_of_bytes (ascii_bytes "GPS5"))) with false.
  change (contains "SCAL" (str_of_bytes (ascii_bytes "GPS5"))) with false.
  cbv beta iota zeta. rewrite V. change (byte_val "020") with 20.
  set (st2 := snd (read_st 4 (snd (read_st 4 st)))) in *.
  destruct (@gps5_loop_spec (str_of_bytes (ascii_bytes "GPS5")) (20 * n)
              s0 s1 s3 t (Z.to_nat n) st2 gd eq_refl Hok
              ltac:(change (gps_fix st2) with (gps_fix st);
                    change (gps_accuracy st2) with (gps_accuracy st);
                    rewrite Hfx, Hac; exact Hg)
              Hcur
              ltac:(change (scales st2) with (scales st); rewrite Hsc; reflexivity)
              ltac:(change (scales st2) with (scales st); rewrite Hsc; reflexivity)
              ltac:(change (scales st2) with (scales st); rewrite Hsc; reflexivity)
              N0 N1 N3
              ltac:(unfold bytes_left; rewrite Hr2, length_app, gps5_payload_length;
                    unfold n; lia))
    as (st3 & E3 & Hcur3 & Hrem3 & Hs3 & Hf3 & Ha3 & Hok3 & Hd3).
  rewrite E3.
  assert (Hpad : skip_padding (20 * n) st3 = st3).
  { unfold skip_padding. cbv zeta.
    replace ((20 * n) mod 4) with 0; [reflexivity|].
    symmetry. apply Z.mod_divide; [lia|]. exists (5 * n). lia. }
  rewrite Hpad. exists st3. split; [reflexivity|].
  unfold n in Hcur3, Hrem3. rewrite Nat2Z.id in Hcur3, Hrem3.
  rewrite Hr2 in Hcur3, Hrem3.
  rewrite (gps5_samples_payload s0 s1 s3 rest Hws) in Hcur3.
  rewrite skipn_app, gps5_payload_length, Nat.sub_diag in Hrem3.
  rewrite skipn_all2 in Hrem3 by (rewrite gps5_payload_length; lia).
  cbn [skipn app] in Hrem3.
  unfold parser_at. rewrite Hcur3, Hrem3, Hs3, Hf3, Ha3, Hok3, Hd3.
  repeat split; assumption.
Qed.

(** X23. A stream of one session: four scales, a timestamp, a fix of 2 or 3, an
    accuracy below 500, a GPS5 record of [n] samples, then the timestamp
    that closes the session.  [gopro_binary_to_csv] returns [n] points, in
    the order of the payload: point [j] has the latitude, longitude and
    speed words of sample [j] over [scales[0]], [scales[1]] and
    [scales[3]], and the first timestamp plus [j] times a second over [n],
    rounded to the microsecond.  The second timestamp has no part in the
    result. *)
Theorem one_session_stream_is_converted (s0 s1 s2 s3 : Z) (t1 t2 : ts_fields)
    (fix_ accuracy : Z) (samples : list (Z * Z * Z * Z * Z)) :
  0 < s0 < 65536 -> 0 < s1 < 65536 -> 0 <= s2 < 65536 -> 0 < s3 < 65536 ->
  fields_ok t1 -> fields_ok t2 ->
  fix_ = 2 \/ fix_ = 3 -> 0 <= accuracy < 500 ->
  samples <> [] -> Z.of_nat (List.length samples) < 65536 ->
  Forall sample_ok samples ->
  exists pts,
    gopro_binary_to_csv
      (BytesIO (session_stream s0 s1 s2 s3 t1 fix_ accuracy samples t2))
    = Some (Ok pts)
    /\ List.length pts = List.length samples
    /\ forall j w,
         nth_error samples j = Some w ->
         nth_error pts j
         = Some (with_timestamp (sample_datum s0 s1 s3 w)
                   (datetime_of t1
                    + Z.of_nat j
                      * divide_and_round 1000000
                          (Z.of_nat (List.length samples)))).
Proof.
  intros R0 R1 R2 R3 Ht1 Ht2 Hfix Hacc Hne Hn Hws.
  set (io := BytesIO (session_stream s0 s1 s2 s3 t1 fix_ accuracy samples t2)).
  assert (Hgate : gate fix_ accuracy = true).
  { unfold gate. apply andb_true_iff. split.
    - apply orb_true_iff. destruct Hfix as [-> | ->]; [left | right]; reflexivity.
    - apply Z.ltb_lt. lia. }
  assert (H0 : parser_at (initial io)
                 (session_stream s0 s1 s2 s3 t1 fix_ accuracy samples t2)
                 [1; 1; 1; 1] 0 9999 false [] empty_dict)
    by (repeat split).
  unfold session_stream in H0.
  destruct (@pass_scal _ _ _ _ _ _ _ _ _ _ _ _ H0
              ltac:(lia) ltac:(lia) ltac:(lia) ltac:(lia)) as (st1 & I1 & H1).
  destruct (@pass_gpsu _ _ _ _ _ _ _ _ _ H1 Ht1 ltac:(left; reflexivity))
    as (st2 & I2 & H2).
  cbn [samples_of empty_dict gps_data] in H2.
  destruct (@pass_gpsf _ _ _ _ _ _ _ _ _ H2 ltac:(lia)) as (st3 & I3 & H3).
  destruct (@pass_gpsp _ _ _ _ _ _ _ _ _ H3 ltac:(lia)) as (st4 & I4 & H4).
  rewrite Hgate in H4.
  destruct (@pass_gps5 _ _ _ _ _ _ _ _ _ _ _ _ H4 Hn Hws Hgate
              ltac:(lia) ltac:(lia) ltac:(lia)) as (st5 & I5 & H5).
  cbn [app] in H5. rewrite <- (app_nil_r (gpsu_record t2)) in H5.
  destruct (@pass_gpsu _ _ _ _ _ _ _ _ _ H5 Ht2
              ltac:(right; do 2 eexists; reflexivity))
    as (st6 & I6 & H6).
  cbn [samples_of gps_data] in H6.
  assert (Hmap : exists g gd, map (sample_datum s0 s1 s3) samples = g :: gd)
    by (destruct samples; [congruence | cbn [map]; eauto]).
  destruct Hmap as (g0 & gd0 & Hmap).
  assert (Hd6 : data st6 = [mk_row (Some (datetime_of t1))
                              (Some (map (sample_datum s0 s1 s3) samples))]).
  { destruct H6 as (_ & _ & _ & _ & _ & Hd & _). rewrite Hd, Hmap. reflexivity. }
  assert (Hsteps : steps (initial io) st6).
  { eapply steps_next; [exact I1|]. eapply steps_next; [exact I2|].
    eapply steps_next; [exact I3|]. eapply steps_next; [exact I4|].
    eapply steps_next; [exact I5|]. eapply steps_next; [exact I6|].
    apply steps_refl. }
  assert (Hbreak : iteration st6 = Break).
  { apply iteration_Break. unfold bytes_left.
    destruct H6 as (Hr & _). rewrite Hr. cbn [List.length]. lia. }
  rewrite (gopro_binary_to_csv_break Hsteps Hbreak), Hd6.
  set (r := mk_row (Some (datetime_of t1))
              (Some (map (sample_datum s0 s1 s3) samples))).
  assert (Hin : in_parsed_years (datetime_of t1)).
  { apply (@parse_timestamp_in_parsed_years
             (gpsu_text (f_y t1) (f_m t1) (f_d t1) (f_H t1) (f_M t1) (f_S t1)
                (f_f t1))).
    apply parse_timestamp_fields. exact Ht1. }
  destruct (@stamp_rows_returns [r] [r] 0 eq_refl) as [pts Hpts].
  { constructor; [|constructor]. exists (datetime_of t1), g0, gd0.
    split; [reflexivity|]. unfold r. cbn [gps_data]. now rewrite Hmap. }
  { constructor; [|constructor]. intros t Ht. injection Ht as <-. exact Hin. }
  { unfold all_samples. cbn [map List.concat samples_of r gps_data].
    rewrite app_nil_r, length_map. unfold max_source_bytes. lia. }
  exists pts. split; [unfold interpolate; now rewrite Hpts|].
  destruct (@stamp_rows_spec [r] [r] 0 pts Hpts 0%nat r eq_refl)
    as (out & Ho & Hnth).
  destruct (@stamp_row_spec [r] 0 r out Ho (datetime_of t1)
              (map (sample_datum s0 s1 s3) samples) eq_refl eq_refl)
    as (e & He & _ & Hlen & Hout).
  unfold session_end in He. cbn [nth_error] in He. subst e.
  assert (Hspan : datetime_of t1 + td_seconds 1 - datetime_of t1 = 1000000)
    by (unfold td_seconds, us_per_second; lia).
  rewrite Hspan, length_map in Hout. rewrite length_map in Hlen.
  assert (Hall : List.length pts = List.length out).
  { destruct (stamp_rows_points _ _ _ Hpts) as [Hm _].
    destruct (stamp_row_points _ _ _ Ho) as [Hm' _].
    apply (f_equal (@List.length _)) in Hm, Hm'.
    rewrite !length_map in Hm, Hm'. rewrite Hm, Hm'.
    unfold all_samples. cbn [map List.concat]. now rewrite app_nil_r. }
  split; [congruence|].
  intros j w Hj.
  assert (Hjlt : (j < List.length out)%nat)
    by (rewrite Hlen; apply nth_error_Some; rewrite Hj; discriminate).
  specialize (Hnth j Hjlt).
  change (points_before [r] 0 + j)%nat with j in Hnth. rewrite Hnth.
  apply Hout. now rewrite nth_error_map, Hj.
Qed.

Lemma one_session_stream_is_converted_witness :
  exists pts,
    gopro_binary_to_csv
      (BytesIO (session_stream 1 1 1 1 (mk_fields 21 6 15 12 0 0 0) 3 100
                  [(100000, 200000, 0, 500, 0); (100010, 200010, 0, 520, 0)]
                  (mk_fields 21 6 15 12 0 2 0)))
    = Some (Ok pts)
    /\ List.length pts = 2%nat
    /\ nth_error pts 1
       = Some (mk_datum 100010 200010 520
                 (Some (mk_datetime 2021 6 15 12 0 0 500000))).
Proof.
  destruct (@one_session_stream_is_converted 1 1 1 1
              (mk_fields 21 6 15 12 0 0 0) (mk_fields 21 6 15 12 0 2 0) 3 100
              [(100000, 200000, 0, 500, 0); (100010, 200010, 0, 520, 0)]
              ltac:(lia) ltac:(lia) ltac:(lia) ltac:(lia)
              ltac:(vm_compute; repeat split; intro H; discriminate H)
              ltac:(vm_compute; repeat split; intro H; discriminate H)
              ltac:(right; reflexivity) ltac:(lia) ltac:(discriminate)
              ltac:(vm_compute; reflexivity)
              ltac:(repeat constructor; vm_compute; intro H; discriminate H))
    as (pts & H & Hl & Hn).
  exists pts. split; [exact H|]. split; [exact Hl|].
  rewrite (Hn 1%nat _ eq_refl). vm_compute. reflexivity.
Defined.
